(** * Agent and command toolkits

    A shallow embedding of the six scripts of the repository:

    - [agent-toolkit/scripts/activate_agent.py]
    - [agent-toolkit/scripts/create_skogix_agent.py]
    - [agent-toolkit/scripts/validate_agent.py]
    - [agent-toolkit/scripts/validate_skogix_agent.py]
    - [command-toolkit/scripts/create_command.py]
    - [command-toolkit/scripts/validate_command.py]

    Python strings are sequences of Unicode code points: a character is its
    code point (an [N]) and a text is a list of characters.  Everything the
    scripts ask about ASCII characters is computed here; what Python's
    Unicode database says about the other characters is a parameter
    ([UnicodeData]), so every statement holds whatever that database says. *)

From Stdlib Require Import String Ascii.
From Stdlib Require Import List NArith ZArith Bool Arith Lia.
Import ListNotations.

Set Implicit Arguments.

(* ================================================================= *)
(** * Texts *)

Definition char := N.
Definition text := list char.

(** [txt "abc"] is the text of an ASCII literal. *)
Definition txt (s : string) : text := map N_of_ascii (list_ascii_of_string s).
Arguments txt s%_string.

Definition NL : char := 10%N.        (* "\n" *)
Definition HASH : char := 35%N.      (* "#" *)
Definition HYPHEN : char := 45%N.    (* "-" *)
Definition DOT : char := 46%N.       (* "." *)
Definition LBRACE : char := 123%N.   (* "{" *)
Definition RBRACE : char := 125%N.   (* "}" *)

Definition is_ascii (c : char) : bool := (c <? 128)%N.

Fixpoint text_eqb (a b : text) : bool :=
  match a, b with
  | [], [] => true
  | x :: a', y :: b' => (x =? y)%N && text_eqb a' b'
  | _, _ => false
  end.

(** [s.startswith(p)] *)
Fixpoint startswith (p s : text) : bool :=
  match p, s with
  | [], _ => true
  | x :: p', y :: s' => (x =? y)%N && startswith p' s'
  | _ :: _, [] => false
  end.

(** What is left of [s] after the literal [p], when [s] starts with it. *)
Fixpoint strip_prefix (p s : text) : option text :=
  match p, s with
  | [], _ => Some s
  | x :: p', y :: s' => if (x =? y)%N then strip_prefix p' s' else None
  | _ :: _, [] => None
  end.

(** [s.endswith(p)] *)
Definition endswith (p s : text) : bool := startswith (rev p) (rev s).

(** [sub in s] *)
Fixpoint contains (sub s : text) : bool :=
  startswith sub s ||
  match s with
  | [] => false
  | _ :: r => contains sub r
  end.

(** [s.count(sub)] for a non-empty [sub]: occurrences are counted from the
    left and do not overlap; [skip] is the number of characters still
    covered by the occurrence counted last. *)
Fixpoint count_from (sub : text) (skip : nat) (s : text) : nat :=
  match s with
  | [] => 0
  | _ :: r =>
      match skip with
      | S k => count_from sub k r
      | O => if startswith sub s
             then S (count_from sub (length sub - 1) r)
             else count_from sub 0 r
      end
  end.

Definition count (sub s : text) : nat := count_from sub 0 s.

(** The longest prefix whose characters satisfy [p], and the rest. *)
Fixpoint span (p : char -> bool) (s : text) : text * text :=
  match s with
  | [] => ([], [])
  | c :: r => if p c then let (a, b) := span p r in (c :: a, b) else ([], s)
  end.

Fixpoint dropwhile (p : char -> bool) (s : text) : text :=
  match s with
  | [] => []
  | c :: r => if p c then dropwhile p r else s
  end.

(** [s.split(sep)] for a one-character separator. *)
Fixpoint split_on (sep : char) (s : text) : list text :=
  match s with
  | [] => [[]]
  | c :: r =>
      if (c =? sep)%N then [] :: split_on sep r
      else match split_on sep r with
           | l :: ls => (c :: l) :: ls
           | [] => [[c]]
           end
  end.

(** The text before the first occurrence of [sep] and the text after it. *)
Fixpoint split_first (sep s : text) : option (text * text) :=
  match strip_prefix sep s with
  | Some after => Some ([], after)
  | None =>
      match s with
      | [] => None
      | c :: r =>
          match split_first sep r with
          | Some (before, after) => Some (c :: before, after)
          | None => None
          end
      end
  end.

(** The text before the first occurrence of [stop], or all of it. *)
Fixpoint up_to (stop s : text) : text :=
  if startswith stop s then []
  else match s with
       | [] => []
       | c :: r => c :: up_to stop r
       end.

(** Does [p] hold of some suffix of [s] (the empty one included)?  This is
    how [re.search] tries every start position. *)
Fixpoint any_suffix (p : text -> bool) (s : text) : bool :=
  p s ||
  match s with
  | [] => false
  | _ :: r => any_suffix p r
  end.

(* ----------------------------------------------------------------- *)
(** ** Character classes *)

(** What Python's Unicode database says about the characters above U+007F.
    [ud_lower before c after] is the lower-case form of [c] inside a text
    ([str.lower] looks at the context for the Greek final sigma);
    [ud_ieq p c] says whether the pattern letter [p] matches [c] under
    [re.IGNORECASE]. *)
Record UnicodeData : Type := {
  ud_isspace : char -> bool;     (* str.isspace, and \s *)
  ud_islower : char -> bool;     (* str.islower *)
  ud_isdigit : char -> bool;     (* str.isdigit *)
  ud_isdecimal : char -> bool;   (* \d *)
  ud_isword : char -> bool;      (* \w *)
  ud_lower : text -> char -> text -> text;
  ud_ieq : char -> char -> bool
}.

Definition between (lo hi c : char) : bool := ((lo <=? c) && (c <=? hi))%N.
Arguments between (lo hi c)%_N.

Definition ascii_isspace (c : char) : bool :=
  between 9 13 c || between 28 32 c.
Definition ascii_islower (c : char) : bool := between 97 122 c.
Definition ascii_isupper (c : char) : bool := between 65 90 c.
Definition ascii_isdigit (c : char) : bool := between 48 57 c.
Definition ascii_isword (c : char) : bool :=
  ascii_islower c || ascii_isupper c || ascii_isdigit c || (c =? 95)%N.
Definition ascii_lower (c : char) : char :=
  if ascii_isupper c then (c + 32)%N else c.

Section Classes.
Variable U : UnicodeData.

Definition isspace (c : char) : bool :=
  if is_ascii c then ascii_isspace c else ud_isspace U c.
Definition islower (c : char) : bool :=
  if is_ascii c then ascii_islower c else ud_islower U c.
Definition isdigit (c : char) : bool :=
  if is_ascii c then ascii_isdigit c else ud_isdigit U c.
Definition isdecimal (c : char) : bool :=
  if is_ascii c then ascii_isdigit c else ud_isdecimal U c.
Definition isword (c : char) : bool :=
  if is_ascii c then ascii_isword c else ud_isword U c.

(** [s.strip()] *)
Definition lstrip (s : text) : text := dropwhile isspace s.
Definition rstrip (s : text) : text := rev (dropwhile isspace (rev s)).
Definition strip (s : text) : text := rstrip (lstrip s).

(** [s.lower()]; [before] holds the characters already passed, last
    first. *)
Fixpoint lower_from (before s : text) : text :=
  match s with
  | [] => []
  | c :: r =>
      (if is_ascii c then [ascii_lower c] else ud_lower U before c r)
        ++ lower_from (c :: before) r
  end.
Definition lower (s : text) : text := lower_from [] s.

(** A pattern letter against a character of the text, under
    [re.IGNORECASE]. *)
Definition ichar (p c : char) : bool :=
  if is_ascii c then (ascii_lower p =? ascii_lower c)%N else ud_ieq U p c.

(** What is left of [s] after the literal [p] matched without regard to
    case. *)
Fixpoint istrip_prefix (p s : text) : option text :=
  match p, s with
  | [], _ => Some s
  | x :: p', y :: s' => if ichar x y then istrip_prefix p' s' else None
  | _ :: _, [] => None
  end.

Definition istartswith (p s : text) : bool :=
  match istrip_prefix p s with Some _ => true | None => false end.
End Classes.

(** [s.strip(chars)] for a one-character set. *)
Definition lstrip_char (x : char) (s : text) : text :=
  dropwhile (fun c => (c =? x)%N) s.
Definition strip_char (x : char) (s : text) : text :=
  rev (lstrip_char x (rev (lstrip_char x s))).

(** A database that knows nothing beyond ASCII; it serves the examples. *)
Definition ascii_only : UnicodeData :=
  {| ud_isspace := fun _ => false;
     ud_islower := fun _ => false;
     ud_isdigit := fun _ => false;
     ud_isdecimal := fun _ => false;
     ud_isword := fun _ => false;
     ud_lower := fun _ c _ => [c];
     ud_ieq := fun _ _ => false |}.

(* ================================================================= *)
(** * Paths and the directory resolver *)

(** An absolute POSIX path is the list of its components, the last one
    first: [/a/b] is [["b"; "a"]] and the root [/] is [[]].  So
    [current.parent] is the tail, the root is its own parent, and
    [current / name] puts [name] in front. *)
Definition Path := list text.

Definition parent (p : Path) : Path := tl p.
Definition joinpath (p : Path) (name : text) : Path := name :: p.

Declare Scope path_scope.
Delimit Scope path_scope with path.
Notation "p // name" := (joinpath p name)
  (at level 40, left associativity) : path_scope.
Open Scope path_scope.

Definition root : Path := [].

Definition DOT_CLAUDE : text := txt ".claude".
Definition AGENTS : text := txt "agents".
Definition COMMANDS : text := txt "commands".

(** What an invocation sees of its surroundings: [Path.home()],
    [Path.cwd()] and [Path.exists]. *)
Record Env : Type := {
  home : Path;
  cwd : Path;
  fs_exists : Path -> bool
}.

Inductive ExitReason : Type :=
| NotFound (source : Path)
| InvalidScope (scope : text)
| NoProjectRoot.

(** The loop of [activate_agent] and of [create_agent]:
<<
    current = Path.cwd()
    while current != current.parent:
        if (current / ".claude").exists():
            target_dir = current / ".claude" / "agents"
            break
        current = current.parent
    else:
        ... sys.exit(1)
>>
    [current != current.parent] holds exactly of the non-empty lists
    ([parent_fixed_iff_root] below). *)
Fixpoint walk_up (E : Env) (current : Path) : option Path :=
  match current with
  | [] => None
  | _ :: up =>                      (* [up] is [parent current] *)
      if fs_exists E (current // DOT_CLAUDE)
      then Some (current // DOT_CLAUDE // AGENTS)
      else walk_up E up
  end.

(** "Determine target directory" of [activate_agent] and [create_agent]. *)
Definition agents_target_dir (E : Env) (scope : text) : ExitReason + Path :=
  if text_eqb scope (txt "user") then inr (home E // DOT_CLAUDE // AGENTS)
  else if text_eqb scope (txt "project") then
    match walk_up E (cwd E) with
    | Some target_dir => inr target_dir
    | None => inl NoProjectRoot
    end
  else inl (InvalidScope scope).

(** "Determine target directory" of [create_command]. *)
Definition commands_target_dir (E : Env) (scope : text) : option Path :=
  if text_eqb scope (txt "user") then Some (home E // DOT_CLAUDE // COMMANDS)
  else if text_eqb scope (txt "project") then
    Some (cwd E // DOT_CLAUDE // COMMANDS)
  else None.

(** [activate_agent(agent_name, source_dir, scope)]: the file copied and
    where to, or the reason of [sys.exit(1)].  [agent_name] is one path
    component. *)
Inductive Activation : Type :=
| ActivateExit (why : ExitReason)
| Activated (source target : Path).

(** "Ensure .md extension" *)
Definition ensure_md (agent_name : text) : text :=
  if endswith (txt ".md") agent_name then agent_name
  else agent_name ++ txt ".md".

Definition activate_agent (E : Env) (agent_name : text) (source_dir : Path)
    (scope : text) : Activation :=
  let agent_name := ensure_md agent_name in
  let source := source_dir // agent_name in
  if negb (fs_exists E source) then ActivateExit (NotFound source)
  else
    match agents_target_dir E scope with
    | inl why => ActivateExit why
    | inr target_dir => Activated source (target_dir // agent_name)
    end.

(* ================================================================= *)
(** * Template fill: [str.format] *)

(** A format string is cut into literal text and replacement fields;
    [{{] and [}}] stand for one brace. *)
Inductive Segment : Type :=
| Lit (s : text)
| Field (name : text).

(** The exceptions of [str.format].  [Unsupported] marks the parts of the
    format mini-language that no template of the repository uses
    (conversions, format specifications, attribute and index lookups,
    names outside ASCII). *)
Inductive FormatError : Type :=
| KeyError (name : text)
| IndexError
| ValueError
| Unsupported.

Definition Parsed : Type := (list Segment * option FormatError)%type.

Definition lit (c : char) (p : Parsed) : Parsed :=
  match p with
  | (Lit s :: segs, err) => (Lit (c :: s) :: segs, err)
  | (segs, err) => (Lit [c] :: segs, err)
  end.

Definition field_seg (name : text) (p : Parsed) : Parsed :=
  (Field name :: fst p, snd p).

Definition field_special (c : char) : bool :=
  (c =? 33)%N || (c =? 58)%N || (c =? DOT)%N || (c =? 91)%N
  || (c =? LBRACE)%N || negb (is_ascii c).

(** The scan of the format string, left to right.  [field] is [Some acc]
    inside a replacement field, [acc] being the name read so far, last
    character first.  The segments read before an error are kept: a field
    that cannot be filled raises before a later syntax error is reached. *)
Fixpoint parse_format (field : option text) (s : text) : Parsed :=
  match s with
  | [] =>
      match field with
      | None => ([], None)
      | Some _ => ([], Some ValueError)
      end
  | c :: r =>
      match field with
      | None =>
          if (c =? LBRACE)%N then
            match r with
            | c' :: r' =>
                if (c' =? LBRACE)%N then lit LBRACE (parse_format None r')
                else parse_format (Some []) r
            | [] => ([], Some ValueError)
            end
          else if (c =? RBRACE)%N then
            match r with
            | c' :: r' =>
                if (c' =? RBRACE)%N then lit RBRACE (parse_format None r')
                else ([], Some ValueError)
            | [] => ([], Some ValueError)
            end
          else lit c (parse_format None r)
      | Some acc =>
          if (c =? RBRACE)%N then field_seg (rev acc) (parse_format None r)
          else if field_special c then ([], Some Unsupported)
          else parse_format (Some (c :: acc)) r
      end
  end.

(** A Python [dict] with string keys, as the list of its items. *)
Definition Dict (V : Type) : Type := list (text * V).

Fixpoint dict_get {V : Type} (d : Dict V) (key : text) : option V :=
  match d with
  | [] => None
  | (k, v) :: d' => if text_eqb k key then Some v else dict_get d' key
  end.

(** [d[key] = v] *)
Fixpoint dict_set {V : Type} (d : Dict V) (key : text) (v : V) : Dict V :=
  match d with
  | [] => [(key, v)]
  | (k, w) :: d' =>
      if text_eqb k key then (k, v) :: d' else (k, w) :: dict_set d' key v
  end.

(** The value of a replacement field, no positional argument being given:
    an empty or numeric name is an index out of range. *)
Definition get_value (kwargs : Dict text) (name : text)
    : FormatError + text :=
  if forallb ascii_isdigit name then inl IndexError
  else match dict_get kwargs name with
       | Some v => inr v
       | None => inl (KeyError name)
       end.

Fixpoint fill (kwargs : Dict text) (segs : list Segment)
    : FormatError + text :=
  match segs with
  | [] => inr []
  | Lit s :: rest =>
      match fill kwargs rest with
      | inr out => inr (s ++ out)
      | inl e => inl e
      end
  | Field name :: rest =>
      match get_value kwargs name with
      | inl e => inl e
      | inr v =>
          match fill kwargs rest with
          | inr out => inr (v ++ out)
          | inl e => inl e
          end
      end
  end.

(** [template.format] on the keyword arguments [kwargs]. *)
Definition format (template : text) (kwargs : Dict text)
    : FormatError + text :=
  let (segs, err) := parse_format None template in
  match fill kwargs segs with
  | inl e => inl e
  | inr out =>
      match err with
      | Some e => inl e
      | None => inr out
      end
  end.

(** The names of the replacement fields of a template, in order. *)
Fixpoint field_names (segs : list Segment) : list text :=
  match segs with
  | [] => []
  | Lit _ :: rest => field_names rest
  | Field name :: rest => name :: field_names rest
  end.

Definition placeholders (template : text) : list text :=
  field_names (fst (parse_format None template)).

(** [AGENT_TEMPLATE] of [create_skogix_agent.py]; the dashes after the
    principle names are U+2013. *)
Definition EN_DASH : char := 8211%N.

Definition AGENT_TEMPLATE : text :=
  txt "---
name: {name}
description: {description}
color: {color}
---

You are the **{role}**.

**Principles**

1. **Hard-to-vary explanations** "
  ++ [EN_DASH] ++ txt " Every {output_element} must be necessary; remove anything that doesn't reduce error or falsify the outcome.
2. **Popperian falsifiability** "
  ++ [EN_DASH] ++ txt " Prefer {action_element} that can obviously succeed or fail.
3. **KISS** "
  ++ [EN_DASH] ++ txt " Favor the shortest path that covers edge-cases; avoid cleverness that future readers can't follow.
4. **{domain_principle_name}** "
  ++ [EN_DASH] ++ txt " {domain_principle_desc}
5. **{additional_principle_name}** "
  ++ [EN_DASH] ++ txt " {additional_principle_desc}

**Workflow**

* **Input**: {input_desc}
* **Steps**:
  1. {step1}
  2. {step2}
  3. {step3}
* **Output**: {output_desc}

**Quality bar**

{quality_bar}

If {uncertainty_condition}, {handling_approach} rather than {anti_pattern}.
".

(** [COMMAND_TEMPLATES['generation']] of [create_command.py]. *)
Definition GENERATION_TEMPLATE : text :=
  txt "# {title}

{description}

## Task

I'll analyze the project structure and create comprehensive {target} for $ARGUMENTS following project conventions and best practices.

## Process

I'll follow these steps:

1. Analyze project structure and existing patterns
2. Identify the appropriate location for new {target}
3. Generate {target} with proper structure and naming
4. Create associated test files and documentation
5. Update imports, exports, and configuration as needed
6. Validate generated code follows project standards

## Generation Features

### Code Structure

- Follow project naming conventions and file organization
- Implement proper component/module structure
- Add comprehensive type definitions and interfaces
- Include error handling and validation

### Quality Standards

- Generate clean, readable, maintainable code
- Add inline comments for complex logic
- Follow language-specific best practices
- Ensure consistency with existing codebase patterns

### Supporting Files

- Create test files with basic test cases
- Generate usage documentation and examples
- Add JSDoc/docstring comments
- Update relevant configuration files

## Validation

I'll ensure the generated {target}:

- Compiles/runs without errors
- Follows project linting rules
- Matches existing code style
- Includes proper imports and dependencies
- Has appropriate file permissions

## Best Practices

### Project Integration

- Match existing architectural patterns
- Use established naming conventions
- Follow project directory structure
- Integrate with existing tooling

### Code Quality

- Write self-documenting code with clear names
- Add comments only where needed for clarity
- Keep functions/methods focused and small
- Handle edge cases and errors appropriately

I'll adapt to your project's framework, language, and established patterns.
".

(** [COMMAND_TEMPLATES['analysis']] of [create_command.py]. *)
Definition ANALYSIS_TEMPLATE : text :=
  txt "# {title}

{description}

## Task

I'll perform comprehensive analysis of $ARGUMENTS for {concerns} and provide actionable recommendations.

## Process

I'll follow these steps:

1. Scan and read the target files or directories
2. Apply analysis rules and heuristics
3. Identify issues, patterns, and opportunities
4. Classify findings by severity (critical/warning/info)
5. Generate structured report with recommendations
6. Provide specific code examples for fixes

## Analysis Areas

### Code Quality

- Code complexity and maintainability metrics
- Naming conventions and consistency
- Function/method length and responsibility
- Code duplication and reusability
- Documentation completeness

### Potential Issues

- Logic errors and edge cases
- Performance bottlenecks
- Security vulnerabilities
- Resource leaks and inefficiencies
- Deprecated API usage

### Best Practice Compliance

- Language-specific idioms and patterns
- Framework conventions
- Project-specific standards
- Industry best practices
- Accessibility requirements

## Reporting Format

### Issue Classification

**Critical**: Issues that must be fixed immediately
- Security vulnerabilities
- Logic errors causing failures
- Data corruption risks
- Breaking changes

**Warning**: Issues that should be addressed
- Performance problems
- Code smells and anti-patterns
- Deprecated usage
- Missing error handling

**Info**: Suggestions for improvement
- Style inconsistencies
- Refactoring opportunities
- Documentation gaps
- Optimization potential

### Recommendations

For each finding, I'll provide:

- Clear description of the issue
- Impact and risk assessment
- Specific code examples showing the problem
- Suggested fix with code examples
- Priority and effort estimate
- References to documentation or best practices

## Best Practices

### Analysis Approach

- Focus on actionable findings, not theoretical issues
- Prioritize based on impact and risk
- Provide specific, concrete recommendations
- Include code examples in all suggestions
- Consider project context and constraints

### Reporting Quality

- Structure findings logically by category
- Use consistent severity classifications
- Provide clear, concise descriptions
- Include file names and line numbers
- Summarize key findings at the end

I'll adapt the analysis to your project's language, framework, and specific requirements.
".

(** [COMMAND_TEMPLATES['build']] of [create_command.py]. *)
Definition BUILD_TEMPLATE : text :=
  txt "# {title}

{description}

## Task

I'll {action} for $ARGUMENTS following build best practices and deployment standards.

## Process

I'll follow these steps:

1. Validate the build environment and dependencies
2. Read and parse build configuration
3. Apply {action_type} optimizations and transformations
4. Execute build steps in proper sequence
5. Validate build output and artifacts
6. Generate build report with metrics

## Build Operations

### Pre-Build Validation

- Check environment variables and configuration
- Verify all dependencies are available
- Validate source files and assets
- Ensure proper permissions and access

### Build Execution

- Clean previous build artifacts
- Compile/transpile source code
- Process assets and resources
- Apply optimizations (minification, tree-shaking, etc.)
- Generate source maps if needed

### Post-Build Validation

- Verify build completed without errors
- Check output file sizes and structure
- Validate generated artifacts
- Run smoke tests if applicable

## Optimization Strategies

### Performance

- Minimize bundle size
- Optimize asset loading
- Enable code splitting
- Configure caching strategies

### Quality

- Enable strict compilation mode
- Generate type definitions
- Include debugging information
- Validate output integrity

## Best Practices

### Build Configuration

- Use consistent build settings across environments
- Document all build options and flags
- Version-lock dependencies
- Maintain reproducible builds

### Error Handling

- Provide clear error messages
- Include resolution steps for common issues
- Validate inputs before processing
- Clean up partial builds on failure

### Reporting

- Show build progress and timing
- Report file sizes and optimizations
- Highlight warnings and errors
- Provide actionable next steps

I'll adapt to your project's build system, tools, and deployment requirements.
".

(** [COMMAND_TEMPLATES['workflow']] of [create_command.py]. *)
Definition WORKFLOW_TEMPLATE : text :=
  txt "# {title}

{description}

## Task

I'll automate {workflow_task} for $ARGUMENTS following project workflow patterns and best practices.

## Process

I'll follow these steps:

1. Understand the current state and requirements
2. Validate all preconditions are met
3. Execute workflow steps in proper sequence
4. Handle errors and edge cases gracefully
5. Verify successful completion
6. Provide summary and next steps

## Workflow Steps

### Preparation

- Validate input arguments and parameters
- Check system state and prerequisites
- Backup data if needed
- Set up temporary resources

### Execution

- Perform primary workflow operations
- Monitor progress and status
- Handle interruptions and retries
- Log important actions and decisions

### Completion

- Clean up temporary resources
- Validate final state
- Update relevant tracking or configuration
- Generate completion report

## Error Handling

### Prevention

- Validate inputs before processing
- Check preconditions explicitly
- Use safe operations and transactions
- Provide dry-run mode when appropriate

### Recovery

- Detect errors early
- Rollback partial changes on failure
- Provide clear error messages
- Suggest corrective actions

### Logging

- Track all significant operations
- Record decision points
- Log errors with context
- Generate audit trail if needed

## Best Practices

### Automation Quality

- Make workflows idempotent when possible
- Handle partial completion gracefully
- Provide status updates for long operations
- Support both interactive and batch modes

### User Experience

- Show clear progress indicators
- Explain what's happening at each step
- Provide meaningful completion summaries
- Include next steps and follow-up actions

### Reliability

- Test common failure scenarios
- Handle network and I/O errors
- Support cancellation and interruption
- Maintain data integrity throughout

I'll adapt to your project's specific workflow requirements and constraints.
".

Definition COMMAND_TEMPLATES : Dict text :=
  [ (txt "generation", GENERATION_TEMPLATE);
    (txt "analysis", ANALYSIS_TEMPLATE);
    (txt "build", BUILD_TEMPLATE);
    (txt "workflow", WORKFLOW_TEMPLATE) ].

(* ----------------------------------------------------------------- *)
(** ** [create_skogix_agent.py] *)

(** What [prompt_user] returned for each question. *)
Record AgentAnswers : Type := {
  role : text;
  description : text;
  color : text;
  output_element : text;
  action_element : text;
  domain_principle_name : text;
  domain_principle_desc : text;
  additional_principle_name : text;
  additional_principle_desc : text;
  input_desc : text;
  step1 : text;
  step2 : text;
  step3 : text;
  output_desc : text;
  quality_bar : text;
  uncertainty_condition : text;
  handling_approach : text;
  anti_pattern : text
}.

(** [x or default] on strings. *)
Definition or_default (x default : text) : text :=
  match x with
  | [] => default
  | _ :: _ => x
  end.

(** The keyword arguments of [AGENT_TEMPLATE.format(...)]. *)
Definition agent_kwargs (agent_name : text) (a : AgentAnswers) : Dict text :=
  [ (txt "name", agent_name);
    (txt "description", description a);
    (txt "color", color a);
    (txt "role", role a);
    (txt "output_element", output_element a);
    (txt "action_element", action_element a);
    (txt "domain_principle_name", domain_principle_name a);
    (txt "domain_principle_desc", domain_principle_desc a);
    (txt "additional_principle_name",
       or_default (additional_principle_name a) (txt "Efficiency"));
    (txt "additional_principle_desc",
       or_default (additional_principle_desc a)
         (txt "Optimize for clarity and performance."));
    (txt "input_desc", input_desc a);
    (txt "step1", step1 a);
    (txt "step2", step2 a);
    (txt "step3", step3 a);
    (txt "output_desc", output_desc a);
    (txt "quality_bar", quality_bar a);
    (txt "uncertainty_condition", uncertainty_condition a);
    (txt "handling_approach", handling_approach a);
    (txt "anti_pattern", anti_pattern a) ].

(** [create_agent(agent_name, scope)]: the file written and its content,
    the reason of [sys.exit(1)], or the exception of [str.format]. *)
Inductive AgentCreation : Type :=
| AgentExit (why : ExitReason)
| AgentRaised (e : FormatError)
| AgentCreated (agent_file : Path) (agent_content : text).

Definition create_agent (E : Env) (agent_name scope : text)
    (a : AgentAnswers) : AgentCreation :=
  match format AGENT_TEMPLATE (agent_kwargs agent_name a) with
  | inl e => AgentRaised e
  | inr agent_content =>
      match agents_target_dir E scope with
      | inl why => AgentExit why
      | inr target_dir =>
          AgentCreated (target_dir // (agent_name ++ txt ".md")) agent_content
      end
  end.

(* ----------------------------------------------------------------- *)
(** ** [create_command.py] *)

(** What [input] and [get_user_input] returned for each question, and
    whether [mkdir] and [write_text] went through.  A question that is not
    asked for the chosen category leaves its field unused. *)
Record CommandAnswers : Type := {
  mkdir_ok : bool;
  overwrite : text;
  title : text;
  c_description : text;
  category : text;
  target : text;
  concerns : text;
  action : text;
  action_type : text;
  workflow_task : text;
  write_ok : bool
}.

Definition category_map : Dict text :=
  [ (txt "1", txt "generation"); (txt "2", txt "analysis");
    (txt "3", txt "build"); (txt "4", txt "workflow") ].

(** [category_map.get(category, 'generation')] *)
Definition category_name_of (category : text) : text :=
  match dict_get category_map category with
  | Some name => name
  | None => txt "generation"
  end.

(** [template_vars] as the category-specific prompts leave it. *)
Definition template_vars (category_name : text) (a : CommandAnswers)
    : Dict text :=
  let vars := [ (txt "title", title a); (txt "description", c_description a) ] in
  if text_eqb category_name (txt "generation") then
    dict_set vars (txt "target") (target a)
  else if text_eqb category_name (txt "analysis") then
    dict_set vars (txt "concerns") (concerns a)
  else if text_eqb category_name (txt "build") then
    dict_set (dict_set vars (txt "action") (action a))
      (txt "action_type") (action_type a)
  else if text_eqb category_name (txt "workflow") then
    dict_set vars (txt "workflow_task") (workflow_task a)
  else vars.

(** "Generate command content from template":
<<
    template = COMMAND_TEMPLATES[category_name]
    content = template.format( **template_vars)
>> *)
Definition fill_command_template (category_name : text) (vars : Dict text)
    : FormatError + text :=
  match dict_get COMMAND_TEMPLATES category_name with
  | None => inl (KeyError category_name)
  | Some template => format template vars
  end.

(** [create_command(command_name, scope)]: [None], an exception of the
    template fill, or the file written and its content. *)
Inductive CommandCreation : Type :=
| CommandNone
| CommandRaised (e : FormatError)
| CommandCreated (command_file : Path) (content : text).

Definition create_command (E : Env) (command_name scope : text)
    (a : CommandAnswers) : CommandCreation :=
  match commands_target_dir E scope with
  | None => CommandNone
  | Some commands_dir =>
      if negb (mkdir_ok a) then CommandNone
      else
        let command_file := commands_dir // (command_name ++ txt ".md") in
        if fs_exists E command_file && negb (text_eqb (overwrite a) (txt "y"))
        then CommandNone
        else
          let category_name := category_name_of (category a) in
          match fill_command_template category_name
                  (template_vars category_name a) with
          | inl e => CommandRaised e
          | inr content =>
              if write_ok a then CommandCreated command_file content
              else CommandNone
          end
  end.

Section CreateCommandMain.
Variable U : UnicodeData.

(** "Validate command name" of [main]:
<<
  all(c.islower() or c.isdigit() or c == '-' for c in command_name)
  command_name.startswith('-') or command_name.endswith('-')
>> *)
Definition name_chars_ok (command_name : text) : bool :=
  forallb (fun c => islower U c || isdigit U c || (c =? HYPHEN)%N)
    command_name.

Definition hyphen_at_edge (command_name : text) : bool :=
  startswith [HYPHEN] command_name || endswith [HYPHEN] command_name.

(** Does [main] let the name through to [create_command]? *)
Definition command_name_accepted (command_name : text) : bool :=
  name_chars_ok command_name && negb (hyphen_at_edge command_name).

(** [main] with [sys.argv = [_, command_name, scope]]: the exit code and
    what was created. *)
Definition create_command_main (E : Env) (command_name scope : text)
    (a : CommandAnswers) : nat * CommandCreation :=
  if negb (name_chars_ok command_name) then (1, CommandNone)
  else if hyphen_at_edge command_name then (1, CommandNone)
  else
    match create_command E command_name scope a with
    | CommandCreated f c => (0, CommandCreated f c)
    | other => (1, other)
    end.
End CreateCommandMain.

(* ================================================================= *)
(** * Agent validators *)

Definition is_nil {A : Type} (l : list A) : bool :=
  match l with
  | [] => true
  | _ :: _ => false
  end.

Fixpoint first_some {A B : Type} (f : A -> option B) (l : list A)
    : option B :=
  match l with
  | [] => None
  | x :: r =>
      match f x with
      | Some y => Some y
      | None => first_some f r
      end
  end.

Definition FENCE : text := txt "---".

(* ----------------------------------------------------------------- *)
(** ** [validate_skogix_agent.py]: the validator that loads YAML *)

(** What [yaml.safe_load] can return.  The keys of a mapping that are not
    strings are left out: the validator looks up string keys only.
    [YOther] stands for the remaining scalars (floats, dates, binary
    data), of which the validator asks only whether they are true and
    whether they can be sliced. *)
#[warnings="-register-all"]
Inductive yaml_value : Type :=
| YNull
| YBool (b : bool)
| YInt (z : Z)
| YStr (s : text)
| YSeq (items : list yaml_value)
| YMap (items : Dict yaml_value)
| YOther (is_true can_slice : bool).

Inductive yaml_load : Type :=
| YamlError
| YamlLoaded (v : yaml_value).

Definition is_str (v : yaml_value) : bool :=
  match v with
  | YStr _ => true
  | _ => false
  end.

(** [bool(v)] *)
Definition truthy (v : yaml_value) : bool :=
  match v with
  | YNull => false
  | YBool b => b
  | YInt z => negb (z =? 0)%Z
  | YStr s => negb (is_nil s)
  | YSeq items => negb (is_nil items)
  | YMap items => negb (is_nil items)
  | YOther t _ => t
  end.

(** Does [v[:60]] go through? *)
Definition sliceable (v : yaml_value) : bool :=
  match v with
  | YStr _ | YSeq _ => true
  | YOther _ s => s
  | _ => false
  end.

Definition valid_colors : list text :=
  [txt "blue"; txt "cyan"; txt "green"; txt "yellow"; txt "orange";
   txt "red"].

(** [v in valid_colors] *)
Definition in_valid_colors (v : yaml_value) : bool :=
  match v with
  | YStr s => existsb (text_eqb s) valid_colors
  | _ => false
  end.

Inductive AgentMsg : Type :=
| MissingFrontmatter             (* "Missing YAML frontmatter (---)" *)
| InvalidYaml                    (* "Invalid YAML frontmatter: ..." *)
| MissingRequired (field : text) (* "Missing required field: '...'" *)
| NotAString (field : text)      (* "Field '...' must be a string" *)
| MissingColor                   (* "Missing recommended field: 'color'" *)
| ColorNotRecommended (v : yaml_value)
| MissingIdentity
| MissingPrinciples
| MissingHardToVary
| MissingPopper
| MissingKiss
| MissingWorkflow
| MissingInput
| MissingOutput
| MissingQuality
| MissingUncertainty.

(** How a validator run ends: an uncaught exception, or the value returned
    together with the [errors] and [warnings] lists as they stand then. *)
Inductive Report (M : Type) : Type :=
| Raised
| Returned (ok : bool) (errors warnings : list M).
Arguments Raised {M}.
Arguments Returned {M} ok errors warnings.

(** What [validate_agent] of [validate_skogix_agent.py] prints, one
    constructor for each call of [print]; the path and the file name that
    some lines show are left out. *)
Inductive AgentLine : Type :=
| SayNotFound                        (* "Error: ... not found" *)
| SayRule                            (* sixty equals signs *)
| SayValidating                      (* "Validating: ..." *)
| SayName (v : yaml_value)           (* "   Name: ..." *)
| SayColor (v : yaml_value)          (* "   Color: ..." *)
| SayDescription (v : yaml_value)    (* its first sixty characters *)
| SayBlank
| SayErrors                          (* "ERRORS:" *)
| SayWarnings                        (* "WARNINGS (...):" *)
| SayItem (m : AgentMsg)             (* a bullet with the message *)
| SayPerfect                         (* "Perfect! ..." *)
| SayValid.                          (* "Valid agent (...)" *)

Section SkogixValidator.
Variable U : UnicodeData.
Variable safe_load : text -> yaml_load.

(** [re.match(pattern, content, re.DOTALL)] for the pattern
    [^---\n(.*?)\n---\n] followed by a greedy dot-star group and [$]: the
    two groups.  The first group is lazy, so it ends at the first
    closing fence after the opening one; with [re.DOTALL] the second
    group takes everything that is left. *)
Definition frontmatter_match (content : text) : option (text * text) :=
  match strip_prefix (FENCE ++ [NL]) content with
  | None => None
  | Some rest => split_first (NL :: FENCE ++ [NL]) rest
  end.

(** [re.search(r'You are the \*\*[\w\s-]+\*\*', body)].  No character of
    the class is a star, so the class must run up to the closing stars. *)
Definition identity_class (c : char) : bool :=
  isword U c || isspace U c || (c =? HYPHEN)%N.

Definition identity_at (s : text) : bool :=
  match strip_prefix (txt "You are the **") s with
  | None => false
  | Some r =>
      let (run, after) := span identity_class r in
      negb (is_nil run) && startswith (txt "**") after
  end.

Definition has_identity (body : text) : bool := any_suffix identity_at body.

Definition required_field (frontmatter : Dict yaml_value) (field : text)
    : list AgentMsg :=
  match dict_get frontmatter field with
  | None => [MissingRequired field]
  | Some v => if is_str v then [] else [NotAString field]
  end.

Definition color_warnings (frontmatter : Dict yaml_value)
    : list AgentMsg :=
  match dict_get frontmatter (txt "color") with
  | None => [MissingColor]
  | Some v => if in_valid_colors v then [] else [ColorNotRecommended v]
  end.

Definition warn_unless (b : bool) (m : AgentMsg) : list AgentMsg :=
  if b then [] else [m].

(** The checks of the "Skogix-pattern structure", in the order of the
    script. *)
Definition body_warnings (body : text) : list AgentMsg :=
  warn_unless (has_identity body) MissingIdentity
  ++ warn_unless (contains (txt "Principles") body
                  || contains (txt "principles") (lower U body))
       MissingPrinciples
  ++ warn_unless (contains (txt "hard-to-vary") (lower U body))
       MissingHardToVary
  ++ warn_unless (contains (txt "popper") (lower U body)
                  || contains (txt "falsif") (lower U body))
       MissingPopper
  ++ warn_unless (contains (txt "kiss") (lower U body)) MissingKiss
  ++ warn_unless
       (existsb (fun keyword => contains keyword body)
          [txt "Workflow"; txt "workflow"; txt "Method"; txt "method";
           txt "Steps"; txt "steps"])
       MissingWorkflow
  ++ warn_unless (contains (txt "**Input") body
                  || contains (txt "Input:") body)
       MissingInput
  ++ warn_unless (contains (txt "**Output") body
                  || contains (txt "Output:") body
                  || contains (txt "Deliverable") body)
       MissingOutput
  ++ warn_unless
       (existsb (fun keyword => contains keyword body)
          [txt "Quality"; txt "quality"; txt "Checklist"; txt "checklist";
           txt "Guidelines"; txt "guidelines"])
       MissingQuality
  ++ warn_unless (contains (txt "If") body
                  && contains (txt "rather than") body)
       MissingUncertainty.

(** "Print results": [frontmatter['description'][:60]] is evaluated when
    the description is true, and raises when it cannot be sliced. *)
Definition printing_raises (frontmatter : Dict yaml_value) : bool :=
  match dict_get frontmatter (txt "description") with
  | Some v => truthy v && negb (sliceable v)
  | None => false
  end.

(** [validate_agent(file_path)]; [file] is [None] when the path does not
    exist and the text of the file otherwise.  A loaded value that is
    not a mapping makes the run raise: [in] or the subscript raises on
    the scalars, and [frontmatter.get] on strings and sequences. *)
Definition validate_skogix_agent (file : option text) : Report AgentMsg :=
  match file with
  | None => Returned false [] []
  | Some content =>
      match frontmatter_match content with
      | None => Returned false [MissingFrontmatter] []
      | Some (frontmatter_str, body) =>
          match safe_load frontmatter_str with
          | YamlError => Returned false [InvalidYaml] []
          | YamlLoaded (YMap frontmatter) =>
              let errors :=
                required_field frontmatter (txt "name")
                ++ required_field frontmatter (txt "description") in
              let warnings :=
                color_warnings frontmatter ++ body_warnings body in
              if printing_raises frontmatter then Raised
              else Returned (is_nil errors) errors warnings
          | YamlLoaded _ => Raised
          end
      end
  end.

(** [if frontmatter.get(field): print(...)] *)
Definition shown (frontmatter : Dict yaml_value) (field : text)
    (say : yaml_value -> AgentLine) : list AgentLine :=
  match dict_get frontmatter field with
  | Some v => if truthy v then [say v] else []
  | None => []
  end.

(** What a run of [validate_agent(file_path)] that returns has printed by
    then; [None] stands for the run that raises.  The two early returns
    after [errors.append] print nothing, and [errors] is a local list
    that no caller sees. *)
Definition validate_skogix_agent_printed (file : option text)
    : option (list AgentLine) :=
  match file with
  | None => Some [SayNotFound]
  | Some content =>
      match frontmatter_match content with
      | None => Some []
      | Some (frontmatter_str, body) =>
          match safe_load frontmatter_str with
          | YamlError => Some []
          | YamlLoaded (YMap frontmatter) =>
              let errors :=
                required_field frontmatter (txt "name")
                ++ required_field frontmatter (txt "description") in
              let warnings :=
                color_warnings frontmatter ++ body_warnings body in
              if printing_raises frontmatter then None
              else
                Some
                  ([SayRule; SayValidating; SayRule]
                   ++ shown frontmatter (txt "name") SayName
                   ++ shown frontmatter (txt "color") SayColor
                   ++ shown frontmatter (txt "description") SayDescription
                   ++ [SayBlank]
                   ++ (if is_nil errors then
                         if is_nil warnings then [SayPerfect]
                         else SayWarnings :: map SayItem warnings
                                ++ [SayBlank; SayValid]
                       else SayErrors :: map SayItem errors))
          | YamlLoaded _ => None
          end
      end
  end.
End SkogixValidator.

(* ----------------------------------------------------------------- *)
(** ** [validate_agent.py]: the validator that scans lines *)

Inductive ScanMsg : Type :=
| MissingScanField (field : text)   (* "Missing required field: ..." *)
| ModelNotValid (model : text)      (* "Model '...' not in [...]" *)
| NoContentAfter.                   (* "No content after frontmatter" *)

(** What [validate_agent] of [validate_agent.py] prints, one constructor
    for each call of [print]; the path and the file name are left out. *)
Inductive ScanLine : Type :=
| SaysNotFound                       (* "Error: ... not found" *)
| SaysNoFrontmatter                  (* "Error: No YAML frontmatter found" *)
| SaysHint                           (* "   Frontmatter must start and end with '---'" *)
| SaysFailed                         (* "Validation failed for ...:" *)
| SaysItem (m : ScanMsg)             (* a bullet with the message *)
| SaysValid                          (* "... is valid" *)
| SaysName (value : text)            (* "   Name: ..." *)
| SaysField (label value : text)     (* "   Tools: ...", "   Model: ..." *)
| SaysWarnings.                      (* "   Warnings:" *)

Section ScanningValidator.
Variable U : UnicodeData.

(** [\s*\n] at the start of [s]: what is left after it, for every way
    of matching, in the order the matcher tries them (the longest run of
    white space first). *)
Fixpoint ws_newline_tails (s : text) : list text :=
  match s with
  | [] => []
  | c :: r =>
      if isspace U c
      then ws_newline_tails r ++ (if (c =? NL)%N then [r] else [])
      else []
  end.

(** [\n---\s*\n] at the start of [s]. *)
Definition closes_here (s : text) : bool :=
  match strip_prefix (NL :: FENCE) s with
  | Some r => negb (is_nil (ws_newline_tails r))
  | None => false
  end.

(** [(.*?)\n---\s*\n] at the start of [s]: the lazy group. *)
Fixpoint find_close (s : text) : option text :=
  if closes_here s then Some []
  else match s with
       | [] => None
       | c :: r =>
           match find_close r with
           | Some g => Some (c :: g)
           | None => None
           end
       end.

(** [re.match(r'^---\s*\n(.*?)\n---\s*\n', content, re.DOTALL)]:
    group 1. *)
Definition scan_frontmatter (content : text) : option text :=
  match strip_prefix FENCE content with
  | None => None
  | Some r => first_some find_close (ws_newline_tails r)
  end.

(** [\s*(.+)] at the start of [s]: the length of the white space taken
    and the group.  The dot does not match a newline. *)
Fixpoint value_after_ws (s : text) : option (nat * text) :=
  match s with
  | [] => None
  | c :: r =>
      if isspace U c then
        match value_after_ws r with
        | Some (k, g) => Some (S k, g)
        | None => if (c =? NL)%N then None else Some (0, up_to [NL] s)
        end
      else Some (0, up_to [NL] s)
  end.

(** [re.search(key + r':\s*(.+)', s)]: the group and [match.end()]. *)
Fixpoint search_field (key s : text) : option (text * nat) :=
  let here :=
    match strip_prefix (key ++ txt ":") s with
    | None => None
    | Some r =>
        match value_after_ws r with
        | Some (k, g) => Some (g, length key + 1 + k + length g)
        | None => None
        end
    end in
  match here with
  | Some m => Some m
  | None =>
      match s with
      | [] => None
      | _ :: r =>
          match search_field key r with
          | Some (g, e) => Some (g, S e)
          | None => None
          end
      end
  end.

Definition valid_models : list text :=
  [txt "sonnet"; txt "opus"; txt "haiku"; txt "inherit"].

(** [re.search(r'model:\s*(sonnet|opus|haiku|inherit)', s)]: the group.
    The alternatives start with a letter, so the white space is taken
    whole. *)
Definition model_at (s : text) : option text :=
  match strip_prefix (txt "model:") s with
  | None => None
  | Some r =>
      let after := dropwhile (isspace U) r in
      first_some (fun m => if startswith m after then Some m else None)
        valid_models
  end.

Fixpoint search_model (s : text) : option text :=
  match model_at s with
  | Some m => Some m
  | None =>
      match s with
      | [] => None
      | _ :: r => search_model r
      end
  end.

(** [validate_agent(agent_path)].  The loop over the optional fields
    assigns to [match] again, so [match.end()] below it is the end of
    the [color] field inside the frontmatter, and the call raises when
    there is no such field. *)
Definition validate_agent (file : option text) : Report ScanMsg :=
  match file with
  | None => Returned false [] []
  | Some content =>
      match scan_frontmatter content with
      | None => Returned false [] []
      | Some frontmatter =>
          let missing field :=
            match search_field field frontmatter with
            | Some _ => []
            | None => [MissingScanField field]
            end in
          let errors := missing (txt "name") ++ missing (txt "description") in
          let warnings :=
            match search_model frontmatter with
            | Some m =>
                if existsb (text_eqb (strip U m)) valid_models then []
                else [ModelNotValid (strip U m)]
            | None => []
            end in
          match search_field (txt "color") frontmatter with
          | None => Raised
          | Some (_, match_end) =>
              let content_after := skipn match_end content in
              let errors :=
                errors ++ (if is_nil (strip U content_after)
                           then [NoContentAfter] else []) in
              Returned (is_nil errors) errors warnings
          end
      end
  end.

(** "Show optional fields": the line of a field found by the loop over
    the optional fields, under the title-cased name of the field. *)
Definition found_line (label : text) (found : option text)
    : list ScanLine :=
  match found with
  | Some value => [SaysField label (strip U value)]
  | None => []
  end.

(** What a run of [validate_agent(agent_path)] that returns has printed
    by then; [None] stands for the run that raises. *)
Definition validate_agent_printed (file : option text)
    : option (list ScanLine) :=
  match file with
  | None => Some [SaysNotFound]
  | Some content =>
      match scan_frontmatter content with
      | None => Some [SaysNoFrontmatter; SaysHint]
      | Some frontmatter =>
          let missing field :=
            match search_field field frontmatter with
            | Some _ => []
            | None => [MissingScanField field]
            end in
          let errors := missing (txt "name") ++ missing (txt "description") in
          let warnings :=
            match search_model frontmatter with
            | Some m =>
                if existsb (text_eqb (strip U m)) valid_models then []
                else [ModelNotValid (strip U m)]
            | None => []
            end in
          match search_field (txt "color") frontmatter with
          | None => None
          | Some (color, match_end) =>
              let content_after := skipn match_end content in
              let errors :=
                errors ++ (if is_nil (strip U content_after)
                           then [NoContentAfter] else []) in
              if is_nil errors then
                Some
                  (SaysValid
                   :: match search_field (txt "name") frontmatter with
                      | Some (name, _) => [SaysName (strip U name)]
                      | None => []
                      end
                   ++ found_line (txt "Tools")
                        (option_map fst
                           (search_field (txt "tools") frontmatter))
                   ++ found_line (txt "Model") (search_model frontmatter)
                   ++ [SaysField (txt "Color") (strip U color)]
                   ++ (if is_nil warnings then []
                       else SaysWarnings :: map SaysItem warnings))
              else Some (SaysFailed :: map SaysItem errors)
          end
      end
  end.
End ScanningValidator.

(* ================================================================= *)
(** * [validate_command.py]: the command validator *)

(** The messages, each with the values its text interpolates. *)
Inductive Msg : Type :=
| FileDoesNotExist
| BadExtension (suffix : text)
| ReadFailed
| NotKebabCase (name : text)
| NameLong (n : nat)
| NameShort (name : text)
| FileEmpty
| ContentShort
| MissingTitle                       (* "Missing title (H1 heading)" *)
| MissingArguments
| ManyArguments (n : nat)
| FoundArguments (n : nat)
| MissingSection (section : text)
| FoundSection (section : text)
| NoHeadings                         (* "No headings found in document" *)
| FirstHeadingNotH1 (level : nat)
| HeadingJump (prev_level curr_level line : nat)
| FoundHeadings (n : nat)
| NoNumberedSteps
| FewSteps (n : nat)
| ManySteps (n : nat)
| WellDefinedSteps (n : nat)
| HasBestPractices
| SuggestBestPractices
| HasAdaptation
| SuggestAdaptation
| CodeBlocks (n : nat).

(** [self.errors], [self.warnings] and [self.info]. *)
Record State : Type := {
  errors : list Msg;
  warnings : list Msg;
  info : list Msg
}.

Definition init : State := {| errors := []; warnings := []; info := [] |}.

Definition add_error (m : Msg) (st : State) : State :=
  {| errors := errors st ++ [m]; warnings := warnings st; info := info st |}.
Definition add_warning (m : Msg) (st : State) : State :=
  {| errors := errors st; warnings := warnings st ++ [m]; info := info st |}.
Definition add_info (m : Msg) (st : State) : State :=
  {| errors := errors st; warnings := warnings st; info := info st ++ [m] |}.

(** The file named on the command line: whether it exists, the last
    component of its path, and its text ([None] when reading raises). *)
Record CommandFile : Type := {
  file_exists : bool;
  file_name : text;
  file_text : option text
}.

(** [name.rfind(x)] *)
Fixpoint rfind (x : char) (s : text) : option nat :=
  match s with
  | [] => None
  | c :: r =>
      match rfind x r with
      | Some i => Some (S i)
      | None => if (c =? x)%N then Some 0 else None
      end
  end.

(** [PurePath.suffix] and [PurePath.stem]: the name is cut at its last dot
    unless that dot is its first or its last character. *)
Definition cut_point (name : text) : option nat :=
  match rfind DOT name with
  | Some i => if (0 <? i) && (i <? length name - 1) then Some i else None
  | None => None
  end.

Definition path_suffix (name : text) : text :=
  match cut_point name with
  | Some i => skipn i name
  | None => []
  end.

Definition path_stem (name : text) : text :=
  match cut_point name with
  | Some i => firstn i name
  | None => name
  end.

(** [[a-z0-9]] *)
Definition kebab_char (c : char) : bool := between 97 122 c || between 48 57 c.

(** [[a-z0-9]+(-[a-z0-9]+)*] against the whole of [s]; [in_group] says that
    the character before was one of [[a-z0-9]]. *)
Fixpoint kebab_groups (in_group : bool) (s : text) : bool :=
  match s with
  | [] => in_group
  | c :: r =>
      if kebab_char c then kebab_groups true r
      else if (c =? HYPHEN)%N && in_group then kebab_groups false r
      else false
  end.

Definition without_final_newline (s : text) : option text :=
  match rev s with
  | c :: r => if (c =? NL)%N then Some (rev r) else None
  | [] => None
  end.

(** [re.match(r'^[a-z0-9]+(-[a-z0-9]+)*$', name)]: [$] matches at the end
    of the string and also just before a newline that ends it. *)
Definition kebab_match (name : text) : bool :=
  kebab_groups false name ||
  match without_final_newline name with
  | Some core => kebab_groups false core
  | None => false
  end.

Definition ARGUMENTS : text := txt "$ARGUMENTS".

Definition Heading : Type := (nat * text * nat)%type.
Definition h_level (h : Heading) : nat := fst (fst h).
Definition h_text (h : Heading) : text := snd (fst h).
Definition h_line (h : Heading) : nat := snd h.

Section CommandValidator.
Variable U : UnicodeData.

(** [_check_file_naming]; [name] is the stem of the path. *)
Definition check_file_naming (name : text) (st : State) : State :=
  let st := if negb (kebab_match name)
            then add_error (NotKebabCase name) st else st in
  let st := if 50 <? length name
            then add_warning (NameLong (length name)) st else st in
  if length name <? 3 then add_warning (NameShort name) st else st.

(** [re.search(r'^# .+', content, re.MULTILINE)]: some line starts with
    a hash and a space and goes on for one character at least. *)
Definition has_title (content : text) : bool :=
  existsb (fun line =>
             match strip_prefix (txt "# ") line with
             | Some (_ :: _) => true
             | _ => false
             end)
    (split_on NL content).

(** [_check_content_structure] *)
Definition check_content_structure (content : text) (st : State) : State :=
  if is_nil (strip U content) then add_error FileEmpty st
  else
    let st := if length content <? 100
              then add_warning ContentShort st else st in
    if negb (has_title content) then add_error MissingTitle st else st.

(** [_check_arguments_placeholder] *)
Definition check_arguments_placeholder (content : text) (st : State)
    : State :=
  if negb (contains ARGUMENTS content) then add_error MissingArguments st
  else
    let n := count ARGUMENTS content in
    let st := if 5 <? n then add_warning (ManyArguments n) st else st in
    add_info (FoundArguments n) st.

Definition required_sections : list text :=
  [txt "## Task"; txt "## Process"].

(** [_check_required_sections] *)
Definition check_required_sections (content : text) (st : State) : State :=
  fold_left
    (fun st section =>
       if negb (contains section content)
       then add_error (MissingSection section) st
       else add_info (FoundSection section) st)
    required_sections st.

(** The first loop of [_check_heading_structure]; [i] is the number of
    the first of [lines]. *)
Fixpoint collect_headings (i : nat) (lines : list text) : list Heading :=
  match lines with
  | [] => []
  | line :: rest =>
      (if startswith [HASH] (strip U line)
       then [(length line - length (lstrip_char HASH line),
              strip U (strip_char HASH line), i)]
       else [])
      ++ collect_headings (S i) rest
  end.

Definition no_heading : Heading := (0, [], 0).

(** The body of the loop "Check for heading hierarchy jumps", at
    index [i]. *)
Definition jump_step (headings : list Heading) (st : State) (i : nat)
    : State :=
  let prev_level := h_level (nth (i - 1) headings no_heading) in
  let curr_level := h_level (nth i headings no_heading) in
  if prev_level + 1 <? curr_level
  then add_warning
         (HeadingJump prev_level curr_level
            (h_line (nth i headings no_heading))) st
  else st.

(** [_check_heading_structure] *)
Definition check_heading_structure (content : text) (st : State) : State :=
  let lines := split_on NL content in
  let headings := collect_headings 1 lines in
  match headings with
  | [] => add_error NoHeadings st
  | first :: _ =>
      let st := if negb (h_level first =? 1)
                then add_warning (FirstHeadingNotH1 (h_level first)) st
                else st in
      let st := fold_left (jump_step headings)
                  (seq 1 (length headings - 1)) st in
      add_info (FoundHeadings (length headings)) st
  end.

(** [## Process\s*\n(.*?)(?=\n##|\Z)] at the start of [s], with
    [re.DOTALL]: the group.  What follows [\s*\n] cannot fail, so the
    longest run of white space that ends in a newline is kept; the lazy
    group then stops before the first [\n##] or at the end. *)
Definition process_at (s : text) : option text :=
  match strip_prefix (txt "## Process") s with
  | None => None
  | Some r =>
      match ws_newline_tails U r with
      | t :: _ => Some (up_to (NL :: txt "##") t)
      | [] => None
      end
  end.

(** [re.search] of that pattern: the leftmost start that matches. *)
Fixpoint process_search (s : text) : option text :=
  match process_at s with
  | Some g => Some g
  | None =>
      match s with
      | [] => None
      | _ :: r => process_search r
      end
  end.

(** [\d+\.\s+.+] at the start of [s]: the length of the match.  The
    digits are taken whole, since a dot must follow them. *)
Definition step_at (s : text) : option nat :=
  let (digits, r) := span (isdecimal U) s in
  if is_nil digits then None
  else
    match r with
    | c :: c' :: r' =>
        if (c =? DOT)%N && isspace U c' then
          match value_after_ws U r' with
          | Some (k, g) => Some (length digits + 2 + k + length g)
          | None => None
          end
        else None
    | _ => None
    end.

(** [len(re.findall(r'^\d+\.\s+.+', s, re.MULTILINE))]: the matches start
    at the beginning of a line and do not overlap.  [at_bol] says that
    [s] starts a line, [skip] counts the characters still covered by the
    match found last. *)
Fixpoint count_steps (at_bol : bool) (skip : nat) (s : text) : nat :=
  match s with
  | [] => 0
  | c :: r =>
      match skip with
      | S k => count_steps (c =? NL)%N k r
      | O =>
          match (if at_bol then step_at s else None) with
          | Some n => S (count_steps (c =? NL)%N (n - 1) r)
          | None => count_steps (c =? NL)%N 0 r
          end
      end
  end.

Definition numbered_steps (process_content : text) : nat :=
  count_steps true 0 process_content.

(** [_check_process_steps] *)
Definition check_process_steps (content : text) (st : State) : State :=
  match process_search content with
  | None => st
  | Some process_content =>
      let step_count := numbered_steps process_content in
      if step_count =? 0 then add_warning NoNumberedSteps st
      else if step_count <? 3 then add_warning (FewSteps step_count) st
      else if 10 <? step_count then add_warning (ManySteps step_count) st
      else add_info (WellDefinedSteps step_count) st
  end.

(** [.*] and then [p], without [re.DOTALL]: [p] holds further on the
    same line. *)
Fixpoint later_on_line (p : text -> bool) (s : text) : bool :=
  p s ||
  match s with
  | [] => false
  | c :: r => negb (c =? NL)%N && later_on_line p r
  end.

(** [following.*(project|your).*patterns] at the start of [s], with
    [re.IGNORECASE]. *)
Definition following_at (s : text) : bool :=
  match istrip_prefix U (txt "following") s with
  | None => false
  | Some r =>
      later_on_line
        (fun t =>
           existsb
             (fun word =>
                match istrip_prefix U word t with
                | Some u => later_on_line (istartswith U (txt "patterns")) u
                | None => false
                end)
             [txt "project"; txt "your"])
        r
  end.

Definition has_adaptation (content : text) : bool :=
  any_suffix (istartswith U (txt "I'll adapt")) content
  || any_suffix (istartswith U (txt "adapt to your")) content
  || any_suffix following_at content.

(** [_check_best_practices] *)
Definition check_best_practices (content : text) (st : State) : State :=
  let st :=
    if contains (txt "## Best Practices") content
       || contains (txt "## Best practices") content
    then add_info HasBestPractices st
    else add_warning SuggestBestPractices st in
  let st :=
    if has_adaptation content then add_info HasAdaptation st
    else add_warning SuggestAdaptation st in
  let code_blocks := count (txt "```") content in
  if 0 <? code_blocks then add_info (CodeBlocks (code_blocks / 2)) st
  else st.

(** "Run validation checks" of [validate]. *)
Definition run_checks (name content : text) (st : State) : State :=
  let st := check_file_naming name st in
  let st := check_content_structure content st in
  let st := check_arguments_placeholder content st in
  let st := check_required_sections content st in
  let st := check_heading_structure content st in
  let st := check_process_steps content st in
  check_best_practices content st.

(** [validate]: the value returned and the validator afterwards. *)
Definition validate (f : CommandFile) : bool * State :=
  if negb (file_exists f) then (false, add_error FileDoesNotExist init)
  else if negb (text_eqb (path_suffix (file_name f)) (txt ".md"))
  then (false, add_error (BadExtension (path_suffix (file_name f))) init)
  else
    match file_text f with
    | None => (false, add_error ReadFailed init)
    | Some content =>
        let st := run_checks (path_stem (file_name f)) content init in
        (is_nil (errors st), st)
    end.
End CommandValidator.

(* ================================================================= *)
(** * What the specification says, in its own words *)

(** Project scope: "start at the current working directory and walk upward
    through parent directories until a directory containing the fixed
    hidden configuration marker subdirectory is found; the target is that
    marker directory's artifact-kind subdirectory.  Fails with
    NoProjectRoot if the filesystem root is reached without finding the
    marker."  [None] is that failure. *)
Fixpoint spec_project_dir (E : Env) (kind : text) (dir : Path)
    : option Path :=
  if fs_exists E (dir // DOT_CLAUDE) then Some (dir // DOT_CLAUDE // kind)
  else match dir with
       | [] => None
       | _ :: up => spec_project_dir E kind up
       end.

(** The text of the [## Process] section: "text from that heading to the
    next [##] heading or end of document". *)
Definition spec_process_text (content : text) : option text :=
  match split_first (txt "## Process") content with
  | Some (_, after) => Some (up_to (NL :: txt "##") after)
  | None => None
  end.

(** "No heading level may jump by more than one level above its immediate
    predecessor ... warn per each such jump, citing the line number":
    the warnings for the headings [rest] that follow [prev]. *)
Fixpoint spec_jumps (prev : Heading) (rest : list Heading) : list Msg :=
  match rest with
  | [] => []
  | h :: later =>
      (if h_level prev + 1 <? h_level h
       then [HeadingJump (h_level prev) (h_level h) (h_line h)]
       else [])
      ++ spec_jumps h later
  end.

(** The number of leading hash characters of a line. *)
Definition leading_hashes (line : text) : nat :=
  length (fst (span (fun c => (c =? HASH)%N) line)).

(** The token [sub] appears in [s]. *)
Definition appears (sub s : text) : Prop :=
  exists pre post : text, s = pre ++ sub ++ post.

(** The number of places of [s] at which [sub] occurs. *)
Fixpoint occurrences (sub s : text) : nat :=
  (if startswith sub s then 1 else 0) +
  match s with
  | [] => 0
  | _ :: r => occurrences sub r
  end.

(** The text in which every replacement field has given way to its value. *)
Fixpoint substitute (kwargs : Dict text) (segs : list Segment) : text :=
  match segs with
  | [] => []
  | Lit s :: rest => s ++ substitute kwargs rest
  | Field name :: rest =>
      match dict_get kwargs name with
      | Some v => v ++ substitute kwargs rest
      | None => substitute kwargs rest
      end
  end.

Definition is_brace (c : char) : bool := (c =? LBRACE)%N || (c =? RBRACE)%N.
Definition brace_free (s : text) : bool := forallb (fun c => negb (is_brace c)) s.

(** The eight kinds of warning of the agent validator. *)
Inductive Category : Type :=
| CatColor
| CatIdentity
| CatPrinciples
| CatWorkflow
| CatInput
| CatOutput
| CatQuality
| CatUncertainty.

Definition all_categories : list Category :=
  [CatColor; CatIdentity; CatPrinciples; CatWorkflow; CatInput; CatOutput;
   CatQuality; CatUncertainty].

Definition warning_category (m : AgentMsg) : option Category :=
  match m with
  | MissingColor | ColorNotRecommended _ => Some CatColor
  | MissingIdentity => Some CatIdentity
  | MissingPrinciples | MissingHardToVary | MissingPopper | MissingKiss =>
      Some CatPrinciples
  | MissingWorkflow => Some CatWorkflow
  | MissingInput => Some CatInput
  | MissingOutput => Some CatOutput
  | MissingQuality => Some CatQuality
  | MissingUncertainty => Some CatUncertainty
  | _ => None
  end.

Definition category_eq_dec (a b : option Category) : {a = b} + {a <> b}.
Proof. decide equality. decide equality. Defined.

(** A text begins with a line of three hyphens: the hyphens, white space
    at most, and the end of the line. *)
Definition begins_with_fence_line (U : UnicodeData) (content : text) : Prop :=
  exists ws rest,
    content = FENCE ++ ws ++ NL :: rest /\ forallb (isspace U) ws = true.

(** "A [---]-delimited block at the very start of the text": a line of
    three hyphens, the block, and a line of three hyphens again. *)
Definition fenced_block (content : text) : Prop :=
  exists frontmatter body : text,
    content = FENCE ++ NL :: frontmatter ++ NL :: FENCE ++ NL :: body.

(** The same, white space being let in between the hyphens and the end
    of their line. *)
Definition fenced_block_ws (U : UnicodeData) (content : text) : Prop :=
  exists ws1 frontmatter ws2 rest : text,
    content = FENCE ++ ws1 ++ NL :: frontmatter
                ++ NL :: FENCE ++ ws2 ++ NL :: rest
    /\ forallb (isspace U) ws1 = true
    /\ forallb (isspace U) ws2 = true.

(** A replacement field that is looked up by name (not by position). *)
Definition named (name : text) : bool := negb (forallb ascii_isdigit name).

Definition lit_brace_free (seg : Segment) : bool :=
  match seg with
  | Lit s => brace_free s
  | Field _ => true
  end.

(** A template that parses, whose fields are all named and whose literal
    text has no brace left. *)
Definition well_formed (t : text) : bool :=
  match parse_format None t with
  | (segs, None) =>
      forallb named (field_names segs) && forallb lit_brace_free segs
  | (_, Some _) => false
  end.

(** What the specification asks of a template fill [run] over the
    template [t]: a missing placeholder is a [KeyError] (MissingField) and
    nothing is produced; with every placeholder supplied the fill goes
    through, every placeholder has given way to its value, and no brace
    is left unless a value brought it. *)
Definition fill_contract (run : Dict text -> FormatError + text) (t : text)
    : Prop :=
  forall kwargs : Dict text,
    ((exists p, In p (placeholders t) /\ dict_get kwargs p = None) ->
     exists p, In p (placeholders t) /\ dict_get kwargs p = None
               /\ run kwargs = inl (KeyError p))
    /\
    ((forall p, In p (placeholders t) -> dict_get kwargs p <> None) ->
     exists out,
       run kwargs = inr out
       /\ out = substitute kwargs (fst (parse_format None t))
       /\ ((forall p v, In p (placeholders t) -> dict_get kwargs p = Some v ->
                        brace_free v = true) ->
           brace_free out = true)).

(** Do the keyword arguments supply every placeholder of [t]? *)
Definition supplies (kwargs : Dict text) (t : text) : bool :=
  forallb (fun p => match dict_get kwargs p with
                    | Some _ => true
                    | None => false
                    end)
    (placeholders t).

(* ----------------------------------------------------------------- *)
(** ** Surroundings for the examples *)

Fixpoint path_eqb (p q : Path) : bool :=
  match p, q with
  | [], [] => true
  | x :: p', y :: q' => text_eqb x y && path_eqb p' q'
  | _, _ => false
  end.

(** The home directory [/home/u], a working directory, and the paths that
    exist. *)
Definition env_of (working : Path) (existing : list Path) : Env :=
  {| home := [txt "u"; txt "home"];
     cwd := working;
     fs_exists := fun p => existsb (path_eqb p) existing |}.

(** Working in [/a/b]; [/a/.claude] and [/src/planner.md] exist. *)
Definition env_nested : Env :=
  env_of [txt "b"; txt "a"]
    [ [DOT_CLAUDE; txt "a"]; [txt "planner.md"; txt "src"] ].

(** Working in [/a/b]; [/.claude] and [/src/planner.md] exist. *)
Definition env_root_marker : Env :=
  env_of [txt "b"; txt "a"]
    [ [DOT_CLAUDE]; [txt "planner.md"; txt "src"] ].

Definition some_agent_answers : AgentAnswers :=
  {| role := txt "Planner"; description := txt "Plans the work";
     color := txt "blue"; output_element := txt "step";
     action_element := txt "steps";
     domain_principle_name := txt "Single-Responsibility";
     domain_principle_desc := txt "One job per step";
     additional_principle_name := []; additional_principle_desc := [];
     input_desc := txt "a goal"; step1 := txt "read"; step2 := txt "plan";
     step3 := txt "check"; output_desc := txt "a plan";
     quality_bar := txt "short"; uncertainty_condition := txt "unsure";
     handling_approach := txt "ask"; anti_pattern := txt "guessing" |}.

Definition some_command_answers : CommandAnswers :=
  {| mkdir_ok := true; overwrite := []; title := txt "Optimize Images";
     c_description := txt "Shrinks images"; category := txt "1";
     target := txt "images"; concerns := []; action := [];
     action_type := []; workflow_task := []; write_ok := true |}.

(** Two agent documents, and what [yaml.safe_load] makes of their
    frontmatter. *)
Definition doc_without_fields : text :=
  FENCE ++ NL :: txt "x: 1" ++ NL :: FENCE ++ [NL].
Definition load_without_fields (_ : text) : yaml_load :=
  YamlLoaded (YMap [(txt "x", YInt 1)]).

Definition doc_with_fields : text :=
  FENCE ++ NL :: txt "name: planner" ++ NL :: txt "description: plans"
    ++ NL :: FENCE ++ [NL].
Definition load_with_fields (_ : text) : yaml_load :=
  YamlLoaded (YMap [(txt "name", YStr (txt "planner"));
                    (txt "description", YStr (txt "plans"))]).

(** An agent document whose frontmatter is empty, and the [None] that
    [yaml.safe_load] makes of an empty text. *)
Definition doc_empty_header : text := FENCE ++ NL :: NL :: FENCE ++ [NL].
Definition load_none (_ : text) : yaml_load := YamlLoaded YNull.

(** The warning of the loop of [_check_heading_structure] at index [i],
    if there is one. *)
Definition jump_msgs (headings : list Heading) (i : nat) : list Msg :=
  let prev_level := h_level (nth (i - 1) headings no_heading) in
  let curr_level := h_level (nth i headings no_heading) in
  if prev_level + 1 <? curr_level
  then [HeadingJump prev_level curr_level (h_line (nth i headings no_heading))]
  else [].

(** The seven checks of [validate], in its order. *)
Definition checks (U : UnicodeData) (name content : text)
    : list (State -> State) :=
  [ check_file_naming name;
    check_content_structure U content;
    check_arguments_placeholder content;
    check_required_sections content;
    check_heading_structure U content;
    check_process_steps U content;
    check_best_practices U content ].

(** A check that only adds findings, and adds the same ones whatever was
    found before it. *)
Definition appends (chk : State -> State) : Prop :=
  forall st : State,
    errors (chk st) = errors st ++ errors (chk init)
    /\ warnings (chk st) = warnings st ++ warnings (chk init)
    /\ info (chk st) = info st ++ info (chk init).

(** An empty command file, [my-command.md]. *)
Definition empty_command_file : CommandFile :=
  {| file_exists := true;
     file_name := txt "my-command.md";
     file_text := Some [] |}.

(** A command document whose [## Process] section is empty and whose next
    section holds a numbered list. *)
Definition empty_process_doc : text :=
  txt "# Deploy

## Task

Deploy $ARGUMENTS

## Process

## Notes

1. first
2. second
3. third
".

(* ================================================================= *)
(** * The prompts *)


Definition ascii_upper (c : char) : char :=
  if ascii_islower c then (c - 32)%N else c.

(** [sep.join(parts)] *)
Fixpoint join (sep : text) (parts : list text) : text :=
  match parts with
  | [] => []
  | [p] => p
  | p :: rest => p ++ sep ++ join sep rest
  end.

Section Prompts.
Variable U : UnicodeData.

(** [word.capitalize()] of a word with a character outside ASCII. *)
Variable uni_capitalize : text -> text.




(** [word.capitalize()] *)
Definition capitalize (word : text) : text :=
  if forallb is_ascii word then
    match word with
    | [] => []
    | c :: r => ascii_upper c :: map ascii_lower r
    end
  else uni_capitalize word.

(** [title_case_command_name(command_name)] *)
Definition title_case_command_name (command_name : text) : text :=
  join [32%N] (map capitalize (split_on HYPHEN command_name)).




End Prompts.

(** A text whose first character is there and is not a line end. *)
Definition starts_visible (t : text) : bool :=
  match t with
  | c :: _ => negb (c =? NL)%N
  | [] => false
  end.

(** Does some literal part of the template contain [sub]? *)
Definition lit_contains (sub : text) (segs : list Segment) : bool :=
  existsb (fun seg => match seg with
                      | Lit s => contains sub s
                      | Field _ => false
                      end) segs.

(** A command template as the validator wants a command: it parses, it
    opens with a hash, a space and the title, and its literal text holds
    the placeholder token and the two required sections. *)
Definition command_template_shape (t : text) : bool :=
  match parse_format None t with
  | (Lit s :: Field name :: rest, None) =>
      text_eqb s (txt "# ") && text_eqb name (txt "title")
      && lit_contains ARGUMENTS rest
      && lit_contains (txt "## Task") rest
      && lit_contains (txt "## Process") rest
  | _ => false
  end.

(** A document with a model that is none of the valid ones. *)
Definition doc_with_unknown_model : text :=
  txt "---
name: x
color: red
model: gpt
---
".

(** The next characters of [t] are ASCII and are [sub] once in lower
    case. *)
Definition lowers_to (sub t : text) : bool :=
  let w := firstn (length sub) t in
  forallb is_ascii w && text_eqb (map ascii_lower w) sub.

(** Does some literal part of the template hold, in ASCII, a text that is
    [sub] once in lower case? *)
Definition lit_lower_contains (sub : text) (segs : list Segment) : bool :=
  existsb (fun seg => match seg with
                      | Lit s => any_suffix (lowers_to sub) s
                      | Field _ => false
                      end) segs.

Definition not_nl (c : char) : bool := negb (c =? NL)%N.

(** A character that is no line end: neither the line feed nor the
    carriage return, which [read_text] gives back as a line feed. *)
Definition CR : char := 13%N.
Definition line_char (c : char) : bool := not_nl c && negb (c =? CR)%N.

(** "Collect all heading lines with their level (number of leading [#]
    characters) and line number, in document order": the headings of a
    document given line by line, the lines counted from 1.  A heading
    line is one that starts with a hash once the white space around it is
    taken away. *)
Definition spec_headings (U : UnicodeData) (lines : list text)
    : list Heading :=
  map (fun p => (leading_hashes (snd p),
                 strip U (strip_char HASH (snd p)), fst p))
    (filter (fun p => startswith [HASH] (strip U (snd p)))
       (combine (seq 1 (length lines)) lines)).

(** No newline of [s] is followed by a hyphen or ends [s]: no closing
    fence can start inside [s]. *)
Fixpoint fence_free (s : text) : bool :=
  match s with
  | [] => true
  | c :: r =>
      (if (c =? NL)%N
       then match r with
            | c' :: _ => negb (c' =? HYPHEN)%N
            | [] => false
            end
       else true)
      && fence_free r
  end.

(** The agent template as the agent validator reads an agent: a
    frontmatter with [name], [description] and [color], the identity
    statement with the role, and after it, in literal text, the words
    that the pattern checks look for. *)
Definition agent_template_shape (t : text) : bool :=
  match parse_format None t with
  | (Lit l1 :: Field f1 :: Lit l2 :: Field f2 :: Lit l3 :: Field f3
       :: Lit l4 :: Field f4 :: Lit l5 :: rest, None) =>
      text_eqb l1 (FENCE ++ NL :: txt "name: ")
      && text_eqb f1 (txt "name")
      && text_eqb l2 (NL :: txt "description: ")
      && text_eqb f2 (txt "description")
      && text_eqb l3 (NL :: txt "color: ")
      && text_eqb f3 (txt "color")
      && text_eqb l4 (NL :: FENCE ++ NL :: NL :: txt "You are the **")
      && text_eqb f4 (txt "role")
      && startswith (txt "**") l5
      && forallb (fun k => lit_contains k (Lit l5 :: rest))
           [txt "Principles"; txt "Workflow"; txt "**Input"; txt "**Output";
            txt "Quality"; txt "If"; txt "rather than"]
      && forallb (fun k => lit_lower_contains k (Lit l5 :: rest))
           [txt "hard-to-vary"; txt "popper"; txt "kiss"]
  | _ => false
  end.

(** A title taken back to a name: lower case, and a hyphen for every
    blank. *)
Definition untitle (t : text) : text :=
  map (fun c => if (c =? 32)%N then HYPHEN else ascii_lower c) t.

(** A character of a command name: one of [[a-z0-9]] or a hyphen. *)
Definition name_char (c : char) : bool := kebab_char c || (c =? HYPHEN)%N.

(** The length of the literal text of a template. *)
Fixpoint lit_length (segs : list Segment) : nat :=
  match segs with
  | [] => 0
  | Lit s :: rest => length s + lit_length rest
  | Field _ :: rest => lit_length rest
  end.

(** Does some literal part of the template hold [pat], case apart? *)
Definition lit_icontains (U : UnicodeData) (pat : text)
    (segs : list Segment) : bool :=
  existsb (fun seg => match seg with
                      | Lit s => any_suffix (istartswith U pat) s
                      | Field _ => false
                      end) segs.

(** A command template with what the recommendations of the validator
    ask for: a hundred characters of literal text, the best-practices
    section and the adaptation statement. *)
Definition command_template_recommended (U : UnicodeData) (t : text) : bool :=
  match parse_format None t with
  | (segs, None) =>
      (100 <=? lit_length segs)
      && lit_contains (txt "## Best Practices") segs
      && lit_icontains U (txt "I'll adapt") segs
  | (_, Some _) => false
  end.

(** The warnings that depend on the name and on the answers. *)
Definition answer_dependent (m : Msg) : bool :=
  match m with
  | NameLong _ | NameShort _ | ManyArguments _ | HeadingJump _ _ _
  | NoNumberedSteps | FewSteps _ | ManySteps _ => true
  | _ => false
  end.

(* ================================================================= *)
(** * Properties *)

Unset Implicit Arguments.

(* ----------------------------------------------------------------- *)
(** ** Texts *)

Lemma text_eqb_eq : forall a b : text, text_eqb a b = true <-> a = b.
Proof.
  induction a as [|x a IH]; destruct b as [|y b]; simpl; split;
    try congruence; try reflexivity.
  - intros H. apply andb_true_iff in H. destruct H as [H1 H2].
    apply N.eqb_eq in H1. apply IH in H2. congruence.
  - intros H. injection H as -> ->. apply andb_true_iff. split.
    + apply N.eqb_refl.
    + apply IH. reflexivity.
Qed.

Lemma text_eqb_refl : forall a : text, text_eqb a a = true.
Proof. intros a. apply text_eqb_eq. reflexivity. Qed.

Lemma strip_prefix_Some :
  forall p s r : text, strip_prefix p s = Some r -> s = p ++ r.
Proof.
  induction p as [|x p IH]; intros s r H; simpl in *.
  - congruence.
  - destruct s as [|y s]; [discriminate|].
    destruct (N.eqb_spec x y) as [->|]; [|discriminate].
    simpl. f_equal. apply IH. exact H.
Qed.

Lemma strip_prefix_app : forall p r : text, strip_prefix p (p ++ r) = Some r.
Proof.
  induction p as [|x p IH]; intros r; simpl.
  - reflexivity.
  - rewrite N.eqb_refl. apply IH.
Qed.

Lemma startswith_app : forall p r : text, startswith p (p ++ r) = true.
Proof.
  induction p as [|x p IH]; intros r; simpl.
  - reflexivity.
  - rewrite N.eqb_refl. apply IH.
Qed.

Lemma startswith_true :
  forall p s : text, startswith p s = true -> exists r, s = p ++ r.
Proof.
  induction p as [|x p IH]; intros s H; simpl in *.
  - exists s. reflexivity.
  - destruct s as [|y s]; [discriminate|].
    apply andb_true_iff in H. destruct H as [H1 H2].
    apply N.eqb_eq in H1. subst y.
    destruct (IH s H2) as [r ->]. exists r. reflexivity.
Qed.

Lemma split_on_nonnil :
  forall (sep : char) (s : text), split_on sep s <> [].
Proof.
  intros sep s. destruct s as [|c r]; cbn [split_on]; [discriminate|].
  destruct (c =? sep)%N; [discriminate|].
  destruct (split_on sep r); discriminate.
Qed.

Lemma join_split :
  forall (sep : char) (s : text), join [sep] (split_on sep s) = s.
Proof.
  intros sep. induction s as [|c r IH].
  - reflexivity.
  - cbn [split_on]. destruct (N.eqb_spec c sep) as [->|Hne].
    + destruct (split_on sep r) as [|l ls] eqn:Hr.
      * exfalso. apply (split_on_nonnil sep r Hr).
      * cbn [join app] in *. rewrite IH. reflexivity.
    + destruct (split_on sep r) as [|l ls] eqn:Hr.
      * exfalso. apply (split_on_nonnil sep r Hr).
      * destruct ls; cbn [join app] in *; rewrite IH; reflexivity.
Qed.

Lemma split_on_words :
  forall (sep : char) (s : text),
    Forall (fun w => forallb (fun c => negb (c =? sep)%N) w = true)
      (split_on sep s).
Proof.
  intros sep. induction s as [|c r IH].
  - constructor; [reflexivity | constructor].
  - cbn [split_on]. destruct (c =? sep)%N eqn:Hc.
    + constructor; [reflexivity | exact IH].
    + destruct (split_on sep r) as [|l ls].
      * constructor; [|constructor]. cbn [forallb]. rewrite Hc. reflexivity.
      * inversion IH; subst. constructor; [|assumption].
        cbn [forallb]. rewrite Hc. assumption.
Qed.

(** Splitting at a separator undoes joining with it, for parts that do
    not hold it. *)
Lemma split_on_join :
  forall (sep : char) (parts : list text),
    parts <> [] ->
    forallb (forallb (fun c => negb (c =? sep)%N)) parts = true ->
    split_on sep (join [sep] parts) = parts.
Proof.
  intros sep. induction parts as [|p rest IH]; intros Hne Hfree.
  - exfalso. apply Hne. reflexivity.
  - cbn [forallb] in Hfree. apply andb_true_iff in Hfree.
    destruct Hfree as [Hp Hrest].
    destruct rest as [|q rest'].
    + cbn [join]. clear IH Hrest Hne.
      induction p as [|c r IHp]; [reflexivity|].
      cbn [forallb] in Hp. apply andb_true_iff in Hp. destruct Hp as [Hc Hr].
      apply negb_true_iff in Hc. cbn [split_on]. rewrite Hc, (IHp Hr).
      reflexivity.
    + assert (IH' := IH ltac:(discriminate) Hrest).
      change (join [sep] (p :: q :: rest'))
        with (p ++ [sep] ++ join [sep] (q :: rest')).
      clear IH Hrest Hne.
      induction p as [|c r IHp].
      * cbn [app split_on]. rewrite N.eqb_refl, IH'. reflexivity.
      * cbn [forallb] in Hp. apply andb_true_iff in Hp.
        destruct Hp as [Hc Hr]. apply negb_true_iff in Hc.
        cbn [app split_on]. cbn [app] in IHp. rewrite Hc, (IHp Hr).
        reflexivity.
Qed.

(** [sub in s] says that [s] is some text, then [sub], then some text. *)
Lemma contains_appears :
  forall sub s : text,
    contains sub s = true <-> exists pre post, s = pre ++ sub ++ post.
Proof.
  intros sub s. split.
  - induction s as [|c r IH]; cbn [contains]; intros H.
    + rewrite orb_false_r in H. apply startswith_true in H.
      destruct H as [post H]. exists [], post. exact H.
    + apply orb_true_iff in H. destruct H as [H|H].
      * apply startswith_true in H. destruct H as [post H].
        exists [], post. exact H.
      * destruct (IH H) as [pre [post ->]]. exists (c :: pre), post.
        reflexivity.
  - intros [pre [post ->]]. induction pre as [|c pre IH].
    + cbn [app]. destruct (sub ++ post) as [|c r] eqn:Hs; cbn [contains];
        rewrite <- Hs, startswith_app; reflexivity.
    + cbn [app contains]. rewrite IH. apply orb_true_r.
Qed.

(* ----------------------------------------------------------------- *)
(** ** Template fill *)

Lemma get_value_named :
  forall (kwargs : Dict text) (name : text),
    named name = true ->
    get_value kwargs name =
      match dict_get kwargs name with
      | Some v => inr v
      | None => inl (KeyError name)
      end.
Proof.
  intros kwargs name H. unfold get_value, named in *.
  destruct (forallb ascii_isdigit name); [discriminate | reflexivity].
Qed.

Lemma fill_all_present :
  forall (kwargs : Dict text) (segs : list Segment),
    forallb named (field_names segs) = true ->
    (forall p, In p (field_names segs) -> dict_get kwargs p <> None) ->
    fill kwargs segs = inr (substitute kwargs segs).
Proof.
  intros kwargs. induction segs as [|seg segs IH]; intros Hn Hall.
  - reflexivity.
  - destruct seg as [s|name]; simpl in *.
    + rewrite (IH Hn Hall). reflexivity.
    + apply andb_true_iff in Hn. destruct Hn as [Hname Hn].
      rewrite (get_value_named kwargs name Hname).
      destruct (dict_get kwargs name) as [v|] eqn:Hv.
      * rewrite IH; [reflexivity | exact Hn |].
        intros p Hp. apply Hall. right. exact Hp.
      * exfalso. apply (Hall name); [left; reflexivity | exact Hv].
Qed.

Lemma fill_missing :
  forall (kwargs : Dict text) (segs : list Segment),
    forallb named (field_names segs) = true ->
    (exists p, In p (field_names segs) /\ dict_get kwargs p = None) ->
    exists p, In p (field_names segs) /\ dict_get kwargs p = None
              /\ fill kwargs segs = inl (KeyError p).
Proof.
  intros kwargs. induction segs as [|seg segs IH]; intros Hn [p [Hin Hp]].
  - destruct Hin.
  - destruct seg as [s|name]; simpl in *.
    + destruct (IH Hn (ex_intro _ p (conj Hin Hp))) as [q [Hq1 [Hq2 Hq3]]].
      exists q. rewrite Hq3. auto.
    + apply andb_true_iff in Hn. destruct Hn as [Hname Hn].
      rewrite (get_value_named kwargs name Hname).
      destruct (dict_get kwargs name) as [v|] eqn:Hv.
      * destruct Hin as [->|Hin]; [congruence|].
        destruct (IH Hn (ex_intro _ p (conj Hin Hp))) as [q [Hq1 [Hq2 Hq3]]].
        exists q. rewrite Hq3. auto.
      * exists name. auto.
Qed.

Lemma brace_free_app :
  forall a b : text, brace_free (a ++ b) = brace_free a && brace_free b.
Proof. intros a b. unfold brace_free. apply forallb_app. Qed.

Lemma substitute_brace_free :
  forall (kwargs : Dict text) (segs : list Segment),
    forallb lit_brace_free segs = true ->
    (forall p v, In p (field_names segs) -> dict_get kwargs p = Some v ->
                 brace_free v = true) ->
    brace_free (substitute kwargs segs) = true.
Proof.
  intros kwargs. induction segs as [|seg segs IH]; intros Hl Hv.
  - reflexivity.
  - simpl in Hl. apply andb_true_iff in Hl. destruct Hl as [Hseg Hl].
    destruct seg as [s|name]; simpl in *.
    + rewrite brace_free_app, Hseg. simpl. apply IH; assumption.
    + destruct (dict_get kwargs name) as [v|] eqn:Hname.
      * rewrite brace_free_app, (Hv name v (or_introl eq_refl) Hname). simpl.
        apply IH; [exact Hl|]. intros p w Hp. apply Hv. right. exact Hp.
      * apply IH; [exact Hl|]. intros p w Hp. apply Hv. right. exact Hp.
Qed.

(** Every well-formed template is filled all or nothing. *)
Lemma well_formed_fill_contract :
  forall t : text, well_formed t = true -> fill_contract (format t) t.
Proof.
  intros t Hwf kwargs. unfold well_formed in Hwf.
  unfold format, placeholders.
  destruct (parse_format None t) as [segs [e|]]; [discriminate|].
  apply andb_true_iff in Hwf. destruct Hwf as [Hn Hl]. simpl. split.
  - intros Hmiss.
    destruct (fill_missing kwargs segs Hn Hmiss) as [p [H1 [H2 H3]]].
    exists p. rewrite H3. auto.
  - intros Hall. exists (substitute kwargs segs).
    rewrite (fill_all_present kwargs segs Hn Hall).
    split; [reflexivity|]. split; [reflexivity|].
    intros Hv. apply substitute_brace_free; assumption.
Qed.

Lemma agent_template_well_formed : well_formed AGENT_TEMPLATE = true.
Proof. vm_compute. reflexivity. Qed.

Lemma command_templates_well_formed :
  forallb (fun item => well_formed (snd item)) COMMAND_TEMPLATES = true.
Proof. vm_compute. reflexivity. Qed.

Lemma dict_get_In :
  forall (V : Type) (d : Dict V) (key : text) (v : V),
    dict_get d key = Some v -> In (key, v) d.
Proof.
  induction d as [|[k w] d IH]; intros key v H; simpl in *.
  - discriminate.
  - destruct (text_eqb k key) eqn:Hk.
    + apply text_eqb_eq in Hk. injection H as ->. left. congruence.
    + right. apply IH. exact H.
Qed.

Lemma command_template_well_formed :
  forall category t : text,
    dict_get COMMAND_TEMPLATES category = Some t -> well_formed t = true.
Proof.
  intros category t H. apply dict_get_In in H.
  pose proof command_templates_well_formed as Hall.
  rewrite forallb_forall in Hall. apply (Hall (category, t) H).
Qed.

Lemma supplies_all :
  forall (kwargs : Dict text) (t : text),
    supplies kwargs t = true ->
    forall p, In p (placeholders t) -> dict_get kwargs p <> None.
Proof.
  intros kwargs t H p Hp. unfold supplies in H.
  rewrite forallb_forall in H. specialize (H p Hp).
  destruct (dict_get kwargs p); [discriminate | discriminate].
Qed.

(** [create_agent] supplies every placeholder of its template. *)
Lemma create_agent_content :
  forall (agent_name : text) (a : AgentAnswers),
    exists content,
      format AGENT_TEMPLATE (agent_kwargs agent_name a) = inr content.
Proof.
  intros agent_name a.
  destruct (well_formed_fill_contract AGENT_TEMPLATE agent_template_well_formed
              (agent_kwargs agent_name a)) as [_ H].
  destruct H as [out [H _]].
  - apply supplies_all. vm_compute. reflexivity.
  - exists out. exact H.
Qed.

Lemma category_name_cases :
  forall c : text,
    category_name_of c = txt "generation" \/ category_name_of c = txt "analysis"
    \/ category_name_of c = txt "build" \/ category_name_of c = txt "workflow".
Proof.
  intros c. unfold category_name_of, category_map. cbn [dict_get].
  destruct (text_eqb (txt "1") c); [auto|].
  destruct (text_eqb (txt "2") c); [auto|].
  destruct (text_eqb (txt "3") c); [auto|].
  destruct (text_eqb (txt "4") c); auto.
Qed.

(** [create_command] supplies every placeholder of the template of the
    category chosen. *)
Lemma create_command_content :
  forall a : CommandAnswers,
    exists content,
      fill_command_template (category_name_of (category a))
        (template_vars (category_name_of (category a)) a) = inr content.
Proof.
  intros a.
  assert (Hfill : forall name t,
             dict_get COMMAND_TEMPLATES name = Some t ->
             supplies (template_vars name a) t = true ->
             exists content,
               fill_command_template name (template_vars name a) = inr content).
  { intros name t Ht Hs. unfold fill_command_template. rewrite Ht.
    destruct (well_formed_fill_contract t (command_template_well_formed _ _ Ht)
                (template_vars name a)) as [_ H].
    destruct H as [out [H _]].
    - apply supplies_all. exact Hs.
    - exists out. exact H. }
  destruct (category_name_cases (category a)) as [H|[H|[H|H]]]; rewrite H.
  - apply (Hfill _ GENERATION_TEMPLATE); vm_compute; reflexivity.
  - apply (Hfill _ ANALYSIS_TEMPLATE); vm_compute; reflexivity.
  - apply (Hfill _ BUILD_TEMPLATE); vm_compute; reflexivity.
  - apply (Hfill _ WORKFLOW_TEMPLATE); vm_compute; reflexivity.
Qed.

(** C8.  Template fill is all or nothing, for the command templates (by
    category) and for the agent template: when a placeholder of the
    template has no entry in the mapping the fill fails with the
    [KeyError] of such a placeholder and produces nothing; when every
    placeholder has an entry the fill succeeds, its output is the template
    with every placeholder replaced by its value, and the output has no
    brace left unless a supplied value contains one.  A category outside
    the table is a [KeyError] too. *)
Theorem template_fill_all_or_nothing :
  (forall category t : text,
      dict_get COMMAND_TEMPLATES category = Some t ->
      fill_contract (fill_command_template category) t)
  /\ fill_contract (format AGENT_TEMPLATE) AGENT_TEMPLATE
  /\ (forall (category : text) (vars : Dict text),
         dict_get COMMAND_TEMPLATES category = None ->
         fill_command_template category vars = inl (KeyError category)).
Proof.
  split; [|split].
  - intros category t Ht. unfold fill_command_template. rewrite Ht.
    apply well_formed_fill_contract.
    apply (command_template_well_formed _ _ Ht).
  - apply well_formed_fill_contract. exact agent_template_well_formed.
  - intros category vars H. unfold fill_command_template. rewrite H.
    reflexivity.
Qed.

(** The generation template without a title, and with every field. *)
Lemma template_fill_all_or_nothing_witness :
  (exists p, fill_command_template (txt "generation")
               [(txt "description", txt "d"); (txt "target", txt "x")]
             = inl (KeyError p))
  /\ (exists out, fill_command_template (txt "generation")
                    [(txt "title", txt "T"); (txt "description", txt "d");
                     (txt "target", txt "x")]
                  = inr out /\ brace_free out = true).
Proof.
  pose proof (proj1 template_fill_all_or_nothing (txt "generation")
                GENERATION_TEMPLATE eq_refl) as H.
  split.
  - destruct (H [(txt "description", txt "d"); (txt "target", txt "x")])
      as [Hmiss _].
    destruct Hmiss as [p [_ [_ Hp]]].
    + exists (txt "title"). split; [vm_compute; auto | reflexivity].
    + exists p. exact Hp.
  - destruct (H [(txt "title", txt "T"); (txt "description", txt "d");
                 (txt "target", txt "x")]) as [_ Hall].
    destruct Hall as [out [Hout [_ Hfree]]].
    + apply supplies_all. vm_compute. reflexivity.
    + exists out. split; [exact Hout|]. apply Hfree.
      intros p v Hp Hv. vm_compute in Hp.
      repeat (destruct Hp as [Hp|Hp];
              [subst p; vm_compute in Hv; injection Hv as <-; reflexivity|]).
      destruct Hp.
Defined.

(* ----------------------------------------------------------------- *)
(** ** The directory resolver *)

(** The guard of the loop, [current != current.parent], fails at the root
    only. *)
Lemma parent_fixed_iff_root : forall p : Path, parent p = p <-> p = root.
Proof.
  intros p. split.
  - destruct p as [|c r]; [reflexivity|]. simpl. intros H.
    apply (f_equal (@length text)) in H. simpl in H. lia.
  - intros ->. reflexivity.
Qed.

(** The walk of the specification ends at the nearest directory that holds
    the marker. *)
Lemma spec_project_dir_nearest :
  forall (E : Env) (kind : text) (pre d : Path),
    fs_exists E (d // DOT_CLAUDE) = true ->
    (forall pre1 pre2, pre = pre1 ++ pre2 -> pre2 <> [] ->
                       fs_exists E ((pre2 ++ d) // DOT_CLAUDE) = false) ->
    spec_project_dir E kind (pre ++ d) = Some (d // DOT_CLAUDE // kind).
Proof.
  intros E kind. induction pre as [|c pre IH]; intros d Hd Hnear.
  - cbn [app]. destruct d; cbn [spec_project_dir]; rewrite Hd; reflexivity.
  - assert (H0 := Hnear [] (c :: pre) eq_refl ltac:(discriminate)).
    cbn [app] in H0. cbn [app spec_project_dir]. rewrite H0.
    apply IH; [exact Hd|]. intros pre1 pre2 -> Hne.
    apply (Hnear (c :: pre1) pre2); [reflexivity | exact Hne].
Qed.

Lemma spec_project_dir_none :
  forall (E : Env) (kind : text) (dir : Path),
    (forall pre d, dir = pre ++ d -> fs_exists E (d // DOT_CLAUDE) = false) ->
    spec_project_dir E kind dir = None.
Proof.
  intros E kind. induction dir as [|c up IH]; intros H.
  - cbn [spec_project_dir]. rewrite (H [] [] eq_refl). reflexivity.
  - cbn [spec_project_dir]. rewrite (H [] (c :: up) eq_refl). apply IH.
    intros pre d ->. apply (H (c :: pre) d). reflexivity.
Qed.

(** Away from a marker in the root, the loop is the walk of the
    specification. *)
Lemma walk_up_spec :
  forall (E : Env) (dir : Path),
    fs_exists E (root // DOT_CLAUDE) = false ->
    walk_up E dir = spec_project_dir E AGENTS dir.
Proof.
  intros E dir Hroot. induction dir as [|c up IH].
  - cbn [spec_project_dir walk_up]. unfold root in Hroot. rewrite Hroot.
    reflexivity.
  - cbn [spec_project_dir walk_up].
    destruct (fs_exists E ((c :: up) // DOT_CLAUDE)); [reflexivity|].
    exact IH.
Qed.

Lemma walk_up_none :
  forall (E : Env) (dir : Path),
    (forall pre d, dir = pre ++ d -> d <> root ->
                   fs_exists E (d // DOT_CLAUDE) = false) ->
    walk_up E dir = None.
Proof.
  intros E. induction dir as [|c up IH]; intros H.
  - reflexivity.
  - cbn [walk_up]. rewrite (H [] (c :: up) eq_refl); [|discriminate].
    apply IH. intros pre d ->. apply (H (c :: pre) d). reflexivity.
Qed.

Lemma agents_target_dir_project :
  forall E : Env,
    agents_target_dir E (txt "project") =
      match walk_up E (cwd E) with
      | Some target_dir => inr target_dir
      | None => inl NoProjectRoot
      end.
Proof. intros E. reflexivity. Qed.

(** C1 (amended).  With project scope, and no marker in the filesystem
    root itself, [activate_agent] and [create_agent] resolve as the
    specification says: they walk up from the working directory to the
    nearest directory that holds [.claude] and take its [agents]
    subdirectory, and exit with the no-project-root error when no
    directory on the way holds it.  [create_command] does not walk: its
    directory is [.claude/commands] under the working directory, whatever
    exists, and every file it creates lies there. *)
Theorem project_scope_resolution :
  forall E : Env,
    fs_exists E (root // DOT_CLAUDE) = false ->
    (forall (agent_name : text) (source_dir : Path),
        fs_exists E (source_dir // ensure_md agent_name) = true ->
        activate_agent E agent_name source_dir (txt "project") =
          match spec_project_dir E AGENTS (cwd E) with
          | Some target_dir =>
              Activated (source_dir // ensure_md agent_name)
                (target_dir // ensure_md agent_name)
          | None => ActivateExit NoProjectRoot
          end)
    /\ (forall (agent_name : text) (a : AgentAnswers),
           exists content,
             format AGENT_TEMPLATE (agent_kwargs agent_name a) = inr content
             /\ create_agent E agent_name (txt "project") a =
                  match spec_project_dir E AGENTS (cwd E) with
                  | Some target_dir =>
                      AgentCreated (target_dir // (agent_name ++ txt ".md"))
                        content
                  | None => AgentExit NoProjectRoot
                  end)
    /\ commands_target_dir E (txt "project")
       = Some (cwd E // DOT_CLAUDE // COMMANDS)
    /\ (forall (command_name : text) (a : CommandAnswers) (f : Path)
               (c : text),
           create_command E command_name (txt "project") a
           = CommandCreated f c ->
           f = cwd E // DOT_CLAUDE // COMMANDS // (command_name ++ txt ".md")).
Proof.
  intros E Hroot. split; [|split; [|split]].
  - intros agent_name source_dir Hsrc. unfold activate_agent.
    rewrite Hsrc. simpl negb. cbv iota.
    rewrite agents_target_dir_project, (walk_up_spec E (cwd E) Hroot).
    destruct (spec_project_dir E AGENTS (cwd E)); reflexivity.
  - intros agent_name a.
    destruct (create_agent_content agent_name a) as [content Hc].
    exists content. split; [exact Hc|]. unfold create_agent. rewrite Hc.
    rewrite agents_target_dir_project, (walk_up_spec E (cwd E) Hroot).
    destruct (spec_project_dir E AGENTS (cwd E)); reflexivity.
  - reflexivity.
  - intros command_name a f c. unfold create_command.
    change (commands_target_dir E (txt "project"))
      with (Some (cwd E // DOT_CLAUDE // COMMANDS)).
    cbv iota beta.
    destruct (negb (mkdir_ok a)); [discriminate|].
    destruct (fs_exists E _ && negb _); [discriminate|].
    destruct (fill_command_template _ _); [discriminate|].
    destruct (write_ok a); [|discriminate].
    intros H. injection H as <- _. reflexivity.
Qed.

(** From [/a/b] with the marker in [/a]: the agent scripts go to
    [/a/.claude/agents]. *)
Lemma project_scope_resolution_witness :
  activate_agent env_nested (txt "planner") [txt "src"] (txt "project")
  = Activated [txt "planner.md"; txt "src"]
      [txt "planner.md"; AGENTS; DOT_CLAUDE; txt "a"].
Proof.
  exact (proj1 (project_scope_resolution env_nested eq_refl)
           (txt "planner") [txt "src"] eq_refl).
Defined.

(** C1, as stated, fails for [create_command]: from [/a/b] with the marker
    in [/a] the walk of the specification ends in [/a/.claude/commands],
    and [create_command] writes under [/a/b/.claude/commands]. *)
Lemma create_command_does_not_walk :
  spec_project_dir env_nested COMMANDS (cwd env_nested)
  = Some [COMMANDS; DOT_CLAUDE; txt "a"]
  /\ exists content,
       create_command env_nested (txt "optimize-images") (txt "project")
         some_command_answers
       = CommandCreated
           [txt "optimize-images.md"; COMMANDS; DOT_CLAUDE; txt "b"; txt "a"]
           content.
Proof.
  split; [vm_compute; reflexivity|].
  destruct (create_command_content some_command_answers) as [content Hc].
  exists content. unfold create_command.
  change (commands_target_dir env_nested (txt "project"))
    with (Some (cwd env_nested // DOT_CLAUDE // COMMANDS)).
  cbv iota beta. rewrite Hc. reflexivity.
Qed.

(** C10.  The loop stops at the root without testing it: when the marker
    exists in the filesystem root, and in no other directory from the
    working directory upward (the working directory may be the root),
    the walk of the specification would find it, and [activate_agent] and
    [create_agent] report that there is no project root. *)
Theorem root_marker_is_never_found :
  forall E : Env,
    fs_exists E (root // DOT_CLAUDE) = true ->
    (forall pre d, cwd E = pre ++ d -> d <> root ->
                   fs_exists E (d // DOT_CLAUDE) = false) ->
    spec_project_dir E AGENTS (cwd E) = Some (root // DOT_CLAUDE // AGENTS)
    /\ agents_target_dir E (txt "project") = inl NoProjectRoot
    /\ (forall (agent_name : text) (source_dir : Path),
           fs_exists E (source_dir // ensure_md agent_name) = true ->
           activate_agent E agent_name source_dir (txt "project")
           = ActivateExit NoProjectRoot)
    /\ (forall (agent_name : text) (a : AgentAnswers),
           create_agent E agent_name (txt "project") a
           = AgentExit NoProjectRoot).
Proof.
  intros E Hroot Hnone.
  assert (Hdir : agents_target_dir E (txt "project") = inl NoProjectRoot).
  { rewrite agents_target_dir_project, (walk_up_none E (cwd E) Hnone).
    reflexivity. }
  split; [|split; [exact Hdir|split]].
  - rewrite <- (app_nil_r (cwd E)).
    apply spec_project_dir_nearest; [exact Hroot|].
    intros pre1 pre2 Hcwd Hne. unfold root. rewrite app_nil_r.
    apply (Hnone pre1 pre2); [exact Hcwd | exact Hne].
  - intros agent_name source_dir Hsrc. unfold activate_agent.
    rewrite Hsrc, Hdir. reflexivity.
  - intros agent_name a. unfold create_agent.
    destruct (create_agent_content agent_name a) as [content ->].
    rewrite Hdir. reflexivity.
Qed.

(** From [/a/b] with the marker in [/] only. *)
Lemma root_marker_is_never_found_witness :
  activate_agent env_root_marker (txt "planner") [txt "src"] (txt "project")
  = ActivateExit NoProjectRoot
  /\ create_agent env_root_marker (txt "planner") (txt "project")
       some_agent_answers
     = AgentExit NoProjectRoot.
Proof.
  assert (Hnone : forall pre d, cwd env_root_marker = pre ++ d -> d <> root ->
                    fs_exists env_root_marker (d // DOT_CLAUDE) = false).
  { intros pre d H Hd.
    destruct pre as [|x [|y [|z pre]]]; simpl in H.
    - subst d. reflexivity.
    - injection H as _ <-. reflexivity.
    - injection H as _ _ <-. exfalso. apply Hd. reflexivity.
    - destruct pre; discriminate. }
  destruct (root_marker_is_never_found env_root_marker eq_refl Hnone)
    as [_ [_ [Hact Hcreate]]].
  split.
  - apply Hact. reflexivity.
  - apply Hcreate.
Defined.

(* ----------------------------------------------------------------- *)
(** ** The agent validators *)

Lemma ws_newline_tails_In :
  forall (U : UnicodeData) (s t : text),
    In t (ws_newline_tails U s) ->
    exists ws, s = ws ++ NL :: t /\ forallb (isspace U) ws = true.
Proof.
  intros U. induction s as [|c r IH]; intros t Hin; simpl in Hin.
  - destruct Hin.
  - destruct (isspace U c) eqn:Hc; [|destruct Hin].
    apply in_app_or in Hin. destruct Hin as [Hin|Hin].
    + destruct (IH t Hin) as [ws [-> Hws]].
      exists (c :: ws). split; [reflexivity|]. simpl. rewrite Hc. exact Hws.
    + destruct (N.eqb_spec c NL) as [->|]; [|destruct Hin].
      destruct Hin as [<-|[]]. exists []. split; reflexivity.
Qed.

Lemma first_some_In :
  forall (A B : Type) (f : A -> option B) (l : list A) (y : B),
    first_some f l = Some y -> exists x, In x l /\ f x = Some y.
Proof.
  intros A B f. induction l as [|x r IH]; intros y H; simpl in H.
  - discriminate.
  - destruct (f x) as [z|] eqn:Hx.
    + injection H as ->. exists x. split; [left; reflexivity | exact Hx].
    + destruct (IH y H) as [x' [Hin Hf]]. exists x'. split; [right|]; auto.
Qed.

Lemma split_first_here :
  forall sep s after : text,
    strip_prefix sep s = Some after -> split_first sep s = Some ([], after).
Proof.
  intros sep s after H. destruct s; cbn [split_first]; rewrite H; reflexivity.
Qed.

(** A closing fence is found right after a text in which none can
    start. *)
Lemma split_first_fence :
  forall p y : text,
    fence_free p = true ->
    split_first (NL :: FENCE ++ [NL]) (p ++ NL :: FENCE ++ NL :: y)
    = Some (p, y).
Proof.
  induction p as [|c r IH]; intros y H.
  - cbn [app]. apply split_first_here.
    change (NL :: FENCE ++ NL :: y) with ((NL :: FENCE ++ [NL]) ++ y).
    apply strip_prefix_app.
  - cbn [fence_free] in H. apply andb_true_iff in H. destruct H as [Hc Hr].
    assert (Hmiss : strip_prefix (NL :: FENCE ++ [NL])
                      (c :: r ++ NL :: FENCE ++ NL :: y) = None).
    { cbn [strip_prefix]. destruct (N.eqb_spec NL c) as [<-|Hne];
        [|reflexivity].
      rewrite N.eqb_refl in Hc. destruct r as [|c' r']; [discriminate|].
      apply negb_true_iff in Hc. change (FENCE ++ [NL])
        with (HYPHEN :: HYPHEN :: HYPHEN :: [NL]).
      cbn [app strip_prefix]. rewrite N.eqb_sym, Hc. reflexivity. }
    cbn [app split_first]. rewrite Hmiss, (IH y Hr). reflexivity.
Qed.

Lemma split_first_Some :
  forall sep s before after : text,
    split_first sep s = Some (before, after) -> s = before ++ sep ++ after.
Proof.
  intros sep. induction s as [|c r IH]; intros before after H;
    cbn [split_first] in H.
  - destruct (strip_prefix sep []) as [a|] eqn:Hp; [|discriminate].
    injection H as <- <-. apply strip_prefix_Some in Hp. exact Hp.
  - destruct (strip_prefix sep (c :: r)) as [a|] eqn:Hp.
    + injection H as <- <-. apply strip_prefix_Some in Hp. exact Hp.
    + destruct (split_first sep r) as [[b a]|] eqn:Hr; [|discriminate].
      injection H as <- <-. rewrite (IH b a eq_refl). reflexivity.
Qed.

(** What the pattern of the validator that loads YAML matches is a
    block between two lines of three hyphens. *)
Lemma frontmatter_match_fenced :
  forall content frontmatter_str body : text,
    frontmatter_match content = Some (frontmatter_str, body) ->
    content = FENCE ++ NL :: frontmatter_str ++ NL :: FENCE ++ NL :: body.
Proof.
  intros content frontmatter_str body H. unfold frontmatter_match in H.
  destruct (strip_prefix (FENCE ++ [NL]) content) as [rest|] eqn:Hp;
    [|discriminate].
  apply strip_prefix_Some in Hp. apply split_first_Some in H.
  rewrite Hp, H. reflexivity.
Qed.

Lemma find_close_fenced :
  forall (U : UnicodeData) (s g : text),
    find_close U s = Some g ->
    exists ws rest,
      s = g ++ NL :: FENCE ++ ws ++ NL :: rest
      /\ forallb (isspace U) ws = true.
Proof.
  intros U. induction s as [|c r IH]; intros g H; cbn [find_close] in H.
  - destruct (closes_here U []) eqn:Hc; [|discriminate]. discriminate Hc.
  - destruct (closes_here U (c :: r)) eqn:Hc.
    + injection H as <-. unfold closes_here in Hc.
      destruct (strip_prefix (NL :: FENCE) (c :: r)) as [post|] eqn:Hp;
        [|discriminate].
      apply strip_prefix_Some in Hp.
      destruct (ws_newline_tails U post) as [|t tails] eqn:Ht;
        [discriminate|].
      destruct (ws_newline_tails_In U post t) as [ws [Hpost Hws]].
      { rewrite Ht. left. reflexivity. }
      exists ws, t. split; [|exact Hws]. rewrite Hp, Hpost. reflexivity.
    + destruct (find_close U r) as [g'|] eqn:Hr; [|discriminate].
      injection H as <-. destruct (IH g' eq_refl) as [ws [rest [-> Hws]]].
      exists ws, rest. split; [reflexivity | exact Hws].
Qed.

(** What the pattern of the validator that scans lines matches is a
    block between two lines of three hyphens and white space. *)
Lemma scan_frontmatter_fenced :
  forall (U : UnicodeData) (content frontmatter : text),
    scan_frontmatter U content = Some frontmatter ->
    fenced_block_ws U content.
Proof.
  intros U content frontmatter H. unfold scan_frontmatter in H.
  destruct (strip_prefix FENCE content) as [r|] eqn:Hp; [|discriminate].
  apply strip_prefix_Some in Hp.
  apply first_some_In in H. destruct H as [t [Hin Hc]].
  apply ws_newline_tails_In in Hin. destruct Hin as [ws1 [Hr Hws1]].
  apply find_close_fenced in Hc. destruct Hc as [ws2 [rest [Ht Hws2]]].
  exists ws1, frontmatter, ws2, rest. split; [|split; assumption].
  rewrite Hp, Hr, Ht. reflexivity.
Qed.

(** Conversely, a block between two fences is found by the patterns. *)
Lemma split_first_complete :
  forall sep before after : text,
    split_first sep (before ++ sep ++ after) <> None.
Proof.
  intros sep. induction before as [|c r IH]; intros after.
  - cbn [app]. rewrite (split_first_here sep (sep ++ after) after).
    + discriminate.
    + apply strip_prefix_app.
  - cbn [app split_first].
    destruct (strip_prefix sep (c :: r ++ sep ++ after)); [discriminate|].
    destruct (split_first sep (r ++ sep ++ after)) as [[b a]|] eqn:Hr;
      [discriminate|].
    exfalso. apply (IH after). exact Hr.
Qed.

Lemma frontmatter_match_complete :
  forall content : text,
    fenced_block content -> frontmatter_match content <> None.
Proof.
  intros content [fm [body ->]]. unfold frontmatter_match.
  change (FENCE ++ NL :: fm ++ NL :: FENCE ++ NL :: body)
    with ((FENCE ++ [NL]) ++ (fm ++ (NL :: FENCE ++ [NL]) ++ body)).
  rewrite strip_prefix_app. apply split_first_complete.
Qed.

Lemma ws_newline_tails_complete :
  forall (U : UnicodeData) (ws t : text),
    forallb (isspace U) ws = true ->
    In t (ws_newline_tails U (ws ++ NL :: t)).
Proof.
  intros U. induction ws as [|c r IH]; intros t H.
  - cbn [app ws_newline_tails].
    change (isspace U NL) with true. cbv iota. rewrite N.eqb_refl.
    apply in_or_app. right. left. reflexivity.
  - cbn [forallb] in H. apply andb_true_iff in H. destruct H as [Hc Hr].
    cbn [app ws_newline_tails]. rewrite Hc.
    apply in_or_app. left. apply IH. exact Hr.
Qed.

Lemma closes_here_complete :
  forall (U : UnicodeData) (ws rest : text),
    forallb (isspace U) ws = true ->
    closes_here U (NL :: FENCE ++ ws ++ NL :: rest) = true.
Proof.
  intros U ws rest H. unfold closes_here.
  change (NL :: FENCE ++ ws ++ NL :: rest)
    with ((NL :: FENCE) ++ (ws ++ NL :: rest)).
  rewrite strip_prefix_app.
  pose proof (ws_newline_tails_complete U ws rest H) as Hin.
  destruct (ws_newline_tails U (ws ++ NL :: rest)); [destruct Hin|].
  reflexivity.
Qed.

Lemma find_close_complete :
  forall (U : UnicodeData) (g post : text),
    closes_here U post = true -> find_close U (g ++ post) <> None.
Proof.
  intros U. induction g as [|c r IH]; intros post H.
  - cbn [app]. destruct post as [|c r]; cbn [find_close]; rewrite H;
      discriminate.
  - cbn [app find_close].
    destruct (closes_here U (c :: r ++ post)); [discriminate|].
    destruct (find_close U (r ++ post)) eqn:Hr; [discriminate|].
    exfalso. apply (IH post H). exact Hr.
Qed.

Lemma first_some_complete :
  forall (A B : Type) (f : A -> option B) (l : list A) (x : A),
    In x l -> f x <> None -> first_some f l <> None.
Proof.
  intros A B f. induction l as [|y r IH]; intros x Hin Hx.
  - destruct Hin.
  - cbn [first_some]. destruct (f y) eqn:Hy; [discriminate|].
    destruct Hin as [->|Hin]; [congruence|]. apply (IH x Hin Hx).
Qed.

Lemma scan_frontmatter_complete :
  forall (U : UnicodeData) (content : text),
    fenced_block_ws U content -> scan_frontmatter U content <> None.
Proof.
  intros U content [ws1 [fm [ws2 [rest [-> [H1 H2]]]]]].
  unfold scan_frontmatter. rewrite strip_prefix_app.
  apply (first_some_complete _ _ _ _
           (fm ++ NL :: FENCE ++ ws2 ++ NL :: rest)).
  - apply ws_newline_tails_complete. exact H1.
  - apply find_close_complete. apply closes_here_complete. exact H2.
Qed.

(** The lines printed are given for the runs that return, and for
    them only. *)
Lemma skogix_printed_iff_returns :
  forall (U : UnicodeData) (safe_load : text -> yaml_load)
         (file : option text),
    validate_skogix_agent_printed U safe_load file = None
    <-> validate_skogix_agent U safe_load file = Raised.
Proof.
  intros U safe_load file.
  unfold validate_skogix_agent_printed, validate_skogix_agent.
  destruct file as [content|]; [|split; discriminate].
  destruct (frontmatter_match content) as [[fm body]|]; [|split; discriminate].
  destruct (safe_load fm) as [|v]; [split; discriminate|].
  destruct v; try (split; reflexivity).
  destruct (printing_raises items); split; try reflexivity; discriminate.
Qed.

Lemma scan_printed_iff_returns :
  forall (U : UnicodeData) (file : option text),
    validate_agent_printed U file = None
    <-> validate_agent U file = Raised.
Proof.
  intros U file. unfold validate_agent_printed, validate_agent.
  destruct file as [content|]; [|split; discriminate].
  destruct (scan_frontmatter U content) as [fm|]; [|split; discriminate].
  destruct (search_field U (txt "color") fm) as [[color e]|];
    [|split; reflexivity].
  match goal with
  | |- context [if is_nil ?errs then _ else _] => destruct (is_nil errs)
  end; split; discriminate.
Qed.

(** C2.  For every text without a block between two lines of three
    hyphens at its very start, the validator that scans lines prints its
    error on the missing frontmatter and returns failure at once, with
    no finding about any field.  The validator that loads YAML returns
    failure at once too, with no finding about any field, but reports
    nothing: the message it has added to its list of errors is not
    printed, and the list is lost when it returns.  A text that does not
    begin with a line of three hyphens has no such block, for either
    validator; and a text that has such a block does not end in these
    outcomes. *)
Theorem missing_frontmatter_outcome :
  forall (U : UnicodeData) (safe_load : text -> yaml_load) (content : text),
    (~ fenced_block content ->
     validate_skogix_agent U safe_load (Some content)
     = Returned false [MissingFrontmatter] []
     /\ validate_skogix_agent_printed U safe_load (Some content) = Some [])
    /\
    (~ fenced_block_ws U content ->
     validate_agent U (Some content) = Returned false [] []
     /\ validate_agent_printed U (Some content)
        = Some [SaysNoFrontmatter; SaysHint])
    /\
    (~ begins_with_fence_line U content ->
     ~ fenced_block content /\ ~ fenced_block_ws U content)
    /\
    (fenced_block content ->
     validate_skogix_agent U safe_load (Some content)
     <> Returned false [MissingFrontmatter] [])
    /\
    (fenced_block_ws U content ->
     validate_agent_printed U (Some content)
     <> Some [SaysNoFrontmatter; SaysHint]).
Proof.
  intros U safe_load content. split; [|split; [|split; [|split]]].
  - intros H.
    assert (Hm : frontmatter_match content = None).
    { destruct (frontmatter_match content) as [[fm body]|] eqn:Hm;
        [|reflexivity].
      exfalso. apply H. exists fm, body.
      apply frontmatter_match_fenced. exact Hm. }
    unfold validate_skogix_agent, validate_skogix_agent_printed.
    rewrite Hm. split; reflexivity.
  - intros H.
    assert (Hm : scan_frontmatter U content = None).
    { destruct (scan_frontmatter U content) as [fm|] eqn:Hm; [|reflexivity].
      exfalso. apply H. apply (scan_frontmatter_fenced U content fm Hm). }
    unfold validate_agent, validate_agent_printed.
    rewrite Hm. split; reflexivity.
  - intros H. split.
    + intros [fm [body Hc]]. apply H.
      exists [], (fm ++ NL :: FENCE ++ NL :: body).
      split; [exact Hc | reflexivity].
    + intros [ws1 [fm [ws2 [rest [Hc [Hws1 _]]]]]]. apply H.
      exists ws1, (fm ++ NL :: FENCE ++ ws2 ++ NL :: rest).
      split; [exact Hc | exact Hws1].
  - intros H. apply frontmatter_match_complete in H.
    unfold validate_skogix_agent.
    destruct (frontmatter_match content) as [[fm body]|]; [|congruence].
    destruct (safe_load fm) as [|v]; [discriminate|].
    destruct v; try discriminate.
    destruct (printing_raises items); [discriminate|].
    unfold required_field.
    destruct (dict_get items (txt "name")) as [n|];
      [destruct (is_str n)|];
      (destruct (dict_get items (txt "description")) as [d|];
       [destruct (is_str d)|]); discriminate.
  - intros H. apply scan_frontmatter_complete in H.
    unfold validate_agent_printed.
    destruct (scan_frontmatter U content) as [fm|]; [|congruence].
    destruct (search_field U (txt "color") fm) as [[color e]|];
      [|discriminate].
    match goal with
    | |- context [if is_nil ?errs then _ else _] => destruct (is_nil errs)
    end; discriminate.
Qed.

(** A file that starts with its first field: the validator that loads
    YAML returns failure and prints nothing. *)
Lemma missing_frontmatter_outcome_witness :
  (validate_skogix_agent ascii_only load_none (Some (txt "name: planner"))
   = Returned false [MissingFrontmatter] []
   /\ validate_skogix_agent_printed ascii_only load_none
        (Some (txt "name: planner"))
      = Some [])
  /\ (validate_agent ascii_only (Some (txt "name: planner"))
      = Returned false [] []
      /\ validate_agent_printed ascii_only (Some (txt "name: planner"))
         = Some [SaysNoFrontmatter; SaysHint])
  /\ validate_skogix_agent ascii_only load_with_fields (Some doc_with_fields)
     <> Returned false [MissingFrontmatter] []
  /\ validate_agent_printed ascii_only (Some doc_with_fields)
     <> Some [SaysNoFrontmatter; SaysHint].
Proof.
  destruct (missing_frontmatter_outcome ascii_only load_none
              (txt "name: planner")) as [Hstrict [Hscan [Hline _]]].
  assert (Hno : ~ begins_with_fence_line ascii_only (txt "name: planner")).
  { intros [ws [rest [H _]]]. discriminate H. }
  destruct (Hline Hno) as [H1 H2].
  split; [exact (Hstrict H1)|]. split; [exact (Hscan H2)|].
  destruct (missing_frontmatter_outcome ascii_only load_with_fields
              doc_with_fields) as [_ [_ [_ [Hfound Hfound_ws]]]].
  split.
  - apply Hfound.
    exists (txt "name: planner" ++ NL :: txt "description: plans"), [].
    reflexivity.
  - apply Hfound_ws.
    exists [], (txt "name: planner" ++ NL :: txt "description: plans"),
      [], [].
    split; [reflexivity | split; reflexivity].
Defined.

Lemma body_warnings_empty :
  forall U : UnicodeData,
    body_warnings U [] =
      [MissingIdentity; MissingPrinciples; MissingHardToVary; MissingPopper;
       MissingKiss; MissingWorkflow; MissingInput; MissingOutput;
       MissingQuality; MissingUncertainty].
Proof. intros U. reflexivity. Qed.

(** For an agent document whose frontmatter [yaml.safe_load] makes a
    mapping: without [name] and without [description] the validator fails
    with exactly the two missing-field errors; with [name] and
    [description] bound to strings, nothing else in the mapping and an
    empty body, it passes with no error and with eleven warnings, which
    cover exactly the eight categories (color, identity, principles,
    workflow, input, output, quality, uncertainty). *)
Theorem agent_required_fields_and_warnings :
  forall (U : UnicodeData) (safe_load : text -> yaml_load)
         (content frontmatter_str body : text)
         (frontmatter : Dict yaml_value),
    frontmatter_match content = Some (frontmatter_str, body) ->
    safe_load frontmatter_str = YamlLoaded (YMap frontmatter) ->
    (dict_get frontmatter (txt "name") = None ->
     dict_get frontmatter (txt "description") = None ->
     exists warnings,
       validate_skogix_agent U safe_load (Some content)
       = Returned false
           [MissingRequired (txt "name"); MissingRequired (txt "description")]
           warnings)
    /\
    (forall n d : text,
        dict_get frontmatter (txt "name") = Some (YStr n) ->
        dict_get frontmatter (txt "description") = Some (YStr d) ->
        (forall key, key <> txt "name" -> key <> txt "description" ->
                     dict_get frontmatter key = None) ->
        body = [] ->
        exists warnings,
          validate_skogix_agent U safe_load (Some content)
          = Returned true [] warnings
          /\ warnings =
               [MissingColor; MissingIdentity; MissingPrinciples;
                MissingHardToVary; MissingPopper; MissingKiss;
                MissingWorkflow; MissingInput; MissingOutput; MissingQuality;
                MissingUncertainty]
          /\ nodup category_eq_dec (map warning_category warnings)
             = map Some all_categories).
Proof.
  intros U safe_load content frontmatter_str body frontmatter Hm Hload.
  split.
  - intros Hname Hdesc. eexists. unfold validate_skogix_agent.
    rewrite Hm, Hload. unfold printing_raises, required_field.
    rewrite Hname, Hdesc. reflexivity.
  - intros n d Hname Hdesc Helse ->. eexists. split; [|split].
    + unfold validate_skogix_agent. rewrite Hm, Hload.
      unfold printing_raises, required_field, color_warnings.
      rewrite Hname, Hdesc.
      rewrite (Helse (txt "color")) by (vm_compute; discriminate).
      rewrite body_warnings_empty. cbn [is_str truthy sliceable negb].
      rewrite andb_false_r. reflexivity.
    + reflexivity.
    + vm_compute. reflexivity.
Qed.

(** A document without the two fields, and one with both and nothing
    else. *)
Lemma agent_required_fields_and_warnings_witness :
  (exists warnings,
      validate_skogix_agent ascii_only load_without_fields
        (Some doc_without_fields)
      = Returned false
          [MissingRequired (txt "name"); MissingRequired (txt "description")]
          warnings)
  /\ (exists warnings,
         validate_skogix_agent ascii_only load_with_fields
           (Some doc_with_fields)
         = Returned true [] warnings /\ length warnings = 11).
Proof.
  split.
  - apply (proj1 (agent_required_fields_and_warnings ascii_only
                    load_without_fields doc_without_fields
                    (txt "x: 1") [] [(txt "x", YInt 1)]
                    eq_refl eq_refl)); reflexivity.
  - destruct (proj2 (agent_required_fields_and_warnings ascii_only
                       load_with_fields doc_with_fields
                       (txt "name: planner" ++ NL :: txt "description: plans")
                       []
                       [(txt "name", YStr (txt "planner"));
                        (txt "description", YStr (txt "plans"))]
                       eq_refl eq_refl)
                (txt "planner") (txt "plans") eq_refl eq_refl)
      as [warnings [Hv [Hw _]]].
    + intros key Hn Hd. cbn [dict_get].
      destruct (text_eqb (txt "name") key) eqn:H1.
      * apply text_eqb_eq in H1. congruence.
      * destruct (text_eqb (txt "description") key) eqn:H2; [|reflexivity].
        apply text_eqb_eq in H2. congruence.
    + reflexivity.
    + exists warnings. split; [exact Hv|]. rewrite Hw. reflexivity.
Defined.

(** C3.  An agent document whose frontmatter is well formed and holds
    neither [name] nor [description] because it holds no mapping at all
    (an empty block, a block of comments, a scalar) does not get the two
    errors: [yaml.safe_load] returns [None] or a scalar, the tests on
    the fields are made on that value, and the run ends in an exception
    that nothing catches, before any error is printed. *)
Theorem header_without_mapping_raises :
  forall (U : UnicodeData) (safe_load : text -> yaml_load)
         (frontmatter_str body : text) (v : yaml_value),
    fence_free frontmatter_str = true ->
    safe_load frontmatter_str = YamlLoaded v ->
    (forall items, v <> YMap items) ->
    let content :=
      FENCE ++ NL :: frontmatter_str ++ NL :: FENCE ++ NL :: body in
    frontmatter_match content = Some (frontmatter_str, body)
    /\ validate_skogix_agent U safe_load (Some content) = Raised
    /\ validate_skogix_agent_printed U safe_load (Some content) = None.
Proof.
  intros U safe_load frontmatter_str body v Hfree Hload Hv content.
  assert (Hm : frontmatter_match content = Some (frontmatter_str, body)).
  { subst content. unfold frontmatter_match.
    change (FENCE ++ NL :: frontmatter_str ++ NL :: FENCE ++ NL :: body)
      with ((FENCE ++ [NL])
            ++ (frontmatter_str ++ NL :: FENCE ++ NL :: body)).
    rewrite strip_prefix_app. apply split_first_fence. exact Hfree. }
  split; [exact Hm|].
  unfold validate_skogix_agent, validate_skogix_agent_printed.
  rewrite Hm, Hload.
  destruct v; try (split; reflexivity).
  exfalso. apply (Hv items). reflexivity.
Qed.

(** The file of three hyphens, an empty line and three hyphens. *)
Lemma header_without_mapping_raises_witness :
  frontmatter_match doc_empty_header = Some ([], [])
  /\ validate_skogix_agent ascii_only load_none (Some doc_empty_header)
     = Raised
  /\ validate_skogix_agent_printed ascii_only load_none
       (Some doc_empty_header)
     = None.
Proof.
  apply (header_without_mapping_raises ascii_only load_none [] [] YNull).
  - reflexivity.
  - reflexivity.
  - intros items H. discriminate H.
Defined.

(* ----------------------------------------------------------------- *)
(** ** The two kebab-case tests *)

Lemma kebab_char_true :
  forall (U : UnicodeData) (c : char),
    kebab_char c = true ->
    is_ascii c = true /\ (c =? HYPHEN)%N = false
    /\ (islower U c || isdigit U c) = true.
Proof.
  intros U c H.
  assert (Ha : is_ascii c = true).
  { unfold kebab_char, between, is_ascii in *.
    apply orb_true_iff in H. apply N.ltb_lt.
    destruct H as [H|H]; apply andb_true_iff in H; destruct H as [_ H];
      apply N.leb_le in H; lia. }
  split; [exact Ha|]. split.
  - unfold kebab_char, between, HYPHEN in *. apply N.eqb_neq.
    apply orb_true_iff in H.
    destruct H as [H|H]; apply andb_true_iff in H; destruct H as [H _];
      apply N.leb_le in H; lia.
  - unfold islower, isdigit. rewrite Ha. exact H.
Qed.

Lemma ascii_name_char :
  forall (U : UnicodeData) (c : char),
    is_ascii c = true ->
    (islower U c || isdigit U c || (c =? HYPHEN)%N) = true ->
    kebab_char c = true \/ c = HYPHEN.
Proof.
  intros U c Ha H. unfold islower, isdigit in H. rewrite Ha in H.
  apply orb_true_iff in H. destruct H as [H|H].
  - left. exact H.
  - right. apply N.eqb_eq. exact H.
Qed.

Lemma endswith_single :
  forall x c : char, endswith [x] [c] = (x =? c)%N.
Proof. intros x c. unfold endswith. simpl. apply andb_true_r. Qed.

Lemma endswith_cons :
  forall (x c : char) (r : text),
    r <> [] -> endswith [x] (c :: r) = endswith [x] r.
Proof.
  intros x c r Hr. unfold endswith. cbn [rev app].
  destruct (rev r) as [|y l] eqn:Hrev.
  - exfalso. apply Hr. apply (f_equal (@rev char)) in Hrev.
    rewrite rev_involutive in Hrev. exact Hrev.
  - simpl. reflexivity.
Qed.

Lemma endswith_nil : forall x : char, endswith [x] [] = false.
Proof. reflexivity. Qed.

(** What a match of the groups says about the name. *)
Lemma kebab_groups_sound :
  forall (U : UnicodeData) (s : text) (b : bool),
    kebab_groups b s = true ->
    name_chars_ok U s = true
    /\ forallb is_ascii s = true
    /\ contains (txt "--") s = false
    /\ endswith [HYPHEN] s = false
    /\ (b = false -> s <> [] /\ startswith [HYPHEN] s = false).
Proof.
  intros U. induction s as [|c r IH]; intros b H.
  - simpl in H. subst b. repeat split; try reflexivity; discriminate.
  - cbn [kebab_groups] in H.
    destruct (kebab_char c) eqn:Hk.
    + destruct (kebab_char_true U c Hk) as [Ha [Hh Hc]].
      destruct (IH true H) as [H1 [H2 [H3 [H4 _]]]].
      split; [|split; [|split; [|split]]].
      * unfold name_chars_ok in *. cbn [forallb]. rewrite Hc. exact H1.
      * cbn [forallb]. rewrite Ha. exact H2.
      * cbn [contains]. rewrite H3, orb_false_r.
        change (txt "--") with [HYPHEN; HYPHEN]. cbn [startswith].
        rewrite N.eqb_sym, Hh. reflexivity.
      * destruct r as [|c' r'].
        -- rewrite endswith_single, N.eqb_sym. exact Hh.
        -- rewrite endswith_cons by discriminate. exact H4.
      * intros _. split; [discriminate|]. cbn [startswith].
        rewrite N.eqb_sym, Hh. reflexivity.
    + destruct ((c =? HYPHEN)%N && b) eqn:Hcb; [|discriminate].
      apply andb_true_iff in Hcb. destruct Hcb as [Hc ->].
      apply N.eqb_eq in Hc. subst c.
      destruct (IH false H) as [H1 [H2 [H3 [H4 H5]]]].
      destruct (H5 eq_refl) as [Hne Hst].
      split; [|split; [|split; [|split]]].
      * unfold name_chars_ok in *. cbn [forallb]. rewrite H1.
        rewrite N.eqb_refl, orb_true_r. reflexivity.
      * cbn [forallb]. rewrite H2. reflexivity.
      * cbn [contains]. rewrite H3, orb_false_r.
        change (txt "--") with [HYPHEN; HYPHEN]. cbn [startswith].
        rewrite N.eqb_refl. exact Hst.
      * rewrite endswith_cons by exact Hne. exact H4.
      * discriminate.
Qed.

Lemma contains_cons_false :
  forall (sub : text) (c : char) (r : text),
    contains sub (c :: r) = false ->
    startswith sub (c :: r) = false /\ contains sub r = false.
Proof.
  intros sub c r H. cbn [contains] in H. apply orb_false_iff in H. exact H.
Qed.

(** An ASCII name that [main] lets through, without two hyphens in a row
    and not empty, matches the groups. *)
Lemma kebab_groups_complete :
  forall (U : UnicodeData) (s : text) (b : bool),
    name_chars_ok U s = true ->
    forallb is_ascii s = true ->
    contains (txt "--") s = false ->
    endswith [HYPHEN] s = false ->
    (b = false -> s <> [] /\ startswith [HYPHEN] s = false) ->
    kebab_groups b s = true.
Proof.
  intros U. induction s as [|c r IH]; intros b Hok Hascii Hdd Hend Hb.
  - destruct b; [reflexivity|]. destruct (Hb eq_refl) as [Hne _].
    exfalso. apply Hne. reflexivity.
  - unfold name_chars_ok in Hok. cbn [forallb] in Hok, Hascii.
    apply andb_true_iff in Hok. destruct Hok as [Hc Hok].
    apply andb_true_iff in Hascii. destruct Hascii as [Ha Hascii].
    destruct (contains_cons_false _ _ _ Hdd) as [Hst Hdd'].
    assert (Hend' : endswith [HYPHEN] r = false).
    { destruct r as [|c' r']; [reflexivity|].
      rewrite endswith_cons in Hend by discriminate. exact Hend. }
    cbn [kebab_groups].
    destruct (kebab_char c) eqn:Hk.
    + apply IH; try assumption. discriminate.
    + destruct (ascii_name_char U c Ha Hc) as [Hk' | ->]; [congruence|].
      rewrite N.eqb_refl.
      assert (Hbt : b = true).
      { destruct b; [reflexivity|]. destruct (Hb eq_refl) as [_ Hs].
        cbn [startswith] in Hs. rewrite N.eqb_refl in Hs. discriminate. }
      subst b. cbn [andb]. apply IH; try assumption.
      intros _. split.
      * intros ->. rewrite endswith_single, N.eqb_refl in Hend.
        discriminate.
      * change (txt "--") with [HYPHEN; HYPHEN] in Hst.
        cbn [startswith] in Hst. rewrite N.eqb_refl in Hst. exact Hst.
Qed.

Lemma kebab_groups_iff :
  forall (U : UnicodeData) (s : text),
    kebab_groups false s = true <->
    (command_name_accepted U s = true /\ s <> []
     /\ contains (txt "--") s = false /\ forallb is_ascii s = true).
Proof.
  intros U s. unfold command_name_accepted, hyphen_at_edge. split.
  - intros H. destruct (kebab_groups_sound U s false H)
      as [H1 [H2 [H3 [H4 H5]]]].
    destruct (H5 eq_refl) as [Hne Hst].
    rewrite H1, Hst, H4. repeat split; assumption.
  - intros [Hacc [Hne [Hdd Hascii]]].
    apply andb_true_iff in Hacc. destruct Hacc as [Hok Hedge].
    apply negb_true_iff, orb_false_iff in Hedge. destruct Hedge as [Hst Hend].
    apply (kebab_groups_complete U); try assumption.
    intros _. split; assumption.
Qed.

Lemma without_final_newline_Some :
  forall s core : text,
    without_final_newline s = Some core <-> s = core ++ [NL].
Proof.
  intros s core. unfold without_final_newline. split.
  - destruct (rev s) as [|c r] eqn:Hrev; [discriminate|].
    destruct (N.eqb_spec c NL) as [->|]; [|discriminate].
    intros H. injection H as <-.
    apply (f_equal (@rev char)) in Hrev. rewrite rev_involutive in Hrev.
    exact Hrev.
  - intros ->. rewrite rev_app_distr. simpl. rewrite rev_involutive.
    reflexivity.
Qed.

(** The two kebab-case tests side by side.  The pattern of the validator
    accepts a name exactly when the name, or the name without one final
    newline, is a name that [main] of create-command lets through and
    that moreover is not empty, has no two hyphens in a row and is all
    ASCII. *)
Theorem kebab_checks_compared :
  forall (U : UnicodeData) (name : text),
    kebab_match name = true <->
    exists core : text,
      (name = core \/ name = core ++ [NL])
      /\ command_name_accepted U core = true
      /\ core <> []
      /\ contains (txt "--") core = false
      /\ forallb is_ascii core = true.
Proof.
  intros U name. unfold kebab_match. split.
  - intros H. apply orb_true_iff in H. destruct H as [H|H].
    + exists name. split; [left; reflexivity|].
      apply (kebab_groups_iff U). exact H.
    + destruct (without_final_newline name) as [core|] eqn:Hw;
        [|discriminate].
      exists core. split.
      * right. apply without_final_newline_Some. exact Hw.
      * apply (kebab_groups_iff U). exact H.
  - intros [core [Hname Hcore]]. apply (kebab_groups_iff U) in Hcore.
    apply orb_true_iff. destruct Hname as [->| ->].
    + left. exact Hcore.
    + right.
      rewrite (proj2 (without_final_newline_Some (core ++ [NL]) core) eq_refl).
      exact Hcore.
Qed.

(* ----------------------------------------------------------------- *)
(** ** The command validator: the placeholder *)

Lemma contains_occurrences :
  forall sub s : text, contains sub s = true <-> 1 <= occurrences sub s.
Proof.
  intros sub. induction s as [|c r IH]; cbn [contains occurrences].
  - destruct (startswith sub []); simpl; split; intros; try lia;
      try reflexivity; discriminate.
  - destruct (startswith sub (c :: r)); simpl.
    + split; intros; [lia | reflexivity].
    + exact IH.
Qed.

(** After an occurrence of [$ARGUMENTS] no other one starts inside it. *)
Lemma no_overlap_ARGUMENTS :
  forall (c : char) (r : text),
    startswith ARGUMENTS (c :: r) = true ->
    forall j, j < length ARGUMENTS - 1 ->
              startswith ARGUMENTS (skipn j r) = false.
Proof.
  intros c r H j Hj. apply startswith_true in H. destruct H as [rest H].
  change ARGUMENTS with (36%N :: txt "ARGUMENTS") in H.
  injection H as _ ->.
  change (length ARGUMENTS - 1) with 9 in Hj.
  do 9 (destruct j as [|j]; [reflexivity|]). lia.
Qed.

Lemma count_from_occurrences :
  forall (s : text) (k : nat),
    (forall j, j < k -> startswith ARGUMENTS (skipn j s) = false) ->
    count_from ARGUMENTS k s = occurrences ARGUMENTS s.
Proof.
  induction s as [|c r IH]; intros k Hk.
  - reflexivity.
  - cbn [count_from occurrences]. destruct k as [|k].
    + destruct (startswith ARGUMENTS (c :: r)) eqn:Hs.
      * rewrite IH; [reflexivity|]. apply (no_overlap_ARGUMENTS c r Hs).
      * rewrite IH; [reflexivity|]. intros j Hj. lia.
    + assert (H0 := Hk 0 ltac:(lia)). cbn [skipn] in H0. rewrite H0.
      rewrite IH; [reflexivity|].
      intros j Hj. apply (Hk (S j)). lia.
Qed.

(** [content.count('$ARGUMENTS')] is the number of places at which the
    token occurs. *)
Lemma count_ARGUMENTS :
  forall s : text, count ARGUMENTS s = occurrences ARGUMENTS s.
Proof.
  intros s. unfold count. apply count_from_occurrences. intros j Hj. lia.
Qed.

(** C5.  For every command document and every state of the validator: if
    [$ARGUMENTS] does not appear, the check adds exactly one error (the
    missing placeholder) to the errors and leaves the warnings and the
    info findings as they are; if it appears, the check adds no error,
    counts the places where it occurs (one at least), adds one warning
    when the count exceeds 5 and none otherwise, and adds the count as one
    info finding. *)
Theorem arguments_placeholder_check :
  forall (content : text) (st : State),
    let st' := check_arguments_placeholder content st in
    (~ appears ARGUMENTS content ->
     errors st' = errors st ++ [MissingArguments]
     /\ warnings st' = warnings st
     /\ info st' = info st)
    /\
    (appears ARGUMENTS content ->
     let n := count ARGUMENTS content in
     n = occurrences ARGUMENTS content
     /\ 1 <= n
     /\ errors st' = errors st
     /\ warnings st' =
          warnings st ++ (if 5 <? n then [ManyArguments n] else [])
     /\ info st' = info st ++ [FoundArguments n]).
Proof.
  intros content st st'. subst st'. unfold check_arguments_placeholder.
  split.
  - intros H.
    destruct (contains ARGUMENTS content) eqn:Hc.
    + exfalso. apply H. apply contains_appears. exact Hc.
    + cbn [negb add_error errors warnings info]. auto.
  - intros H. apply contains_appears in H. rewrite H. cbn [negb]. cbv zeta.
    split; [apply count_ARGUMENTS|]. split.
    + rewrite count_ARGUMENTS. apply contains_occurrences. exact H.
    + destruct (5 <? count ARGUMENTS content); cbn;
        rewrite ?app_nil_r; auto.
Qed.

(** A document without the token after two earlier findings, and a
    document that holds the token six times. *)
Lemma arguments_placeholder_check_witness :
  (let st := add_warning ContentShort (add_error FileEmpty init) in
   let st' := check_arguments_placeholder (txt "# Title") st in
   errors st' = [FileEmpty; MissingArguments]
   /\ warnings st' = [ContentShort]
   /\ info st' = [])
  /\ (let st' :=
        check_arguments_placeholder
          (txt "$ARGUMENTS $ARGUMENTS $ARGUMENTS $ARGUMENTS $ARGUMENTS $ARGUMENTS")
          init in
      errors st' = []
      /\ warnings st' = [ManyArguments 6]
      /\ info st' = [FoundArguments 6]).
Proof.
  split.
  - apply (proj1 (arguments_placeholder_check (txt "# Title")
                    (add_warning ContentShort (add_error FileEmpty init)))).
    intros H. apply contains_appears in H. discriminate H.
  - destruct (proj2 (arguments_placeholder_check
                       (txt "$ARGUMENTS $ARGUMENTS $ARGUMENTS $ARGUMENTS $ARGUMENTS $ARGUMENTS")
                       init))
      as [_ [_ [He [Hw Hi]]]].
    + exists [], (txt " $ARGUMENTS $ARGUMENTS $ARGUMENTS $ARGUMENTS $ARGUMENTS").
      reflexivity.
    + cbv zeta. split; [exact He|]. split; [exact Hw | exact Hi].
Defined.

(* ----------------------------------------------------------------- *)
(** ** The command validator: headings *)

Lemma span_dropwhile_length :
  forall (p : char -> bool) (s : text),
    length (fst (span p s)) + length (dropwhile p s) = length s.
Proof.
  intros p. induction s as [|c r IH]; simpl.
  - reflexivity.
  - destruct (p c); simpl.
    + destruct (span p r) as [a b]. simpl in *. lia.
    + reflexivity.
Qed.

(** The level computed by the script is the number of leading hashes. *)
Lemma level_leading_hashes :
  forall line : text,
    length line - length (lstrip_char HASH line) = leading_hashes line.
Proof.
  intros line. unfold lstrip_char, leading_hashes.
  pose proof (span_dropwhile_length (fun c => (c =? HASH)%N) line). lia.
Qed.

(** The headings are the lines whose stripped text starts with a hash, in
    the order of the document, each with its level and its number. *)
Lemma collect_headings_spec :
  forall (U : UnicodeData) (lines : list text) (i : nat),
    collect_headings U i lines =
      map (fun p => (leading_hashes (snd p),
                     strip U (strip_char HASH (snd p)), fst p))
        (filter (fun p => startswith [HASH] (strip U (snd p)))
           (combine (seq i (length lines)) lines)).
Proof.
  intros U. induction lines as [|line rest IH]; intros i.
  - reflexivity.
  - cbn [collect_headings length seq combine filter snd].
    rewrite IH, level_leading_hashes.
    destruct (startswith [HASH] (strip U line)); reflexivity.
Qed.

Lemma jump_fold :
  forall (headings : list Heading) (l : list nat) (st : State),
    errors (fold_left (jump_step headings) l st) = errors st
    /\ warnings (fold_left (jump_step headings) l st)
       = warnings st ++ flat_map (jump_msgs headings) l
    /\ info (fold_left (jump_step headings) l st) = info st.
Proof.
  intros headings. induction l as [|i l IH]; intros st.
  - simpl. rewrite app_nil_r. auto.
  - cbn [fold_left flat_map].
    destruct (IH (jump_step headings st i)) as [He [Hw Hi]].
    rewrite He, Hw, Hi. unfold jump_step, jump_msgs. cbv zeta.
    destruct (_ <? _); cbn; rewrite <- ?app_assoc; auto.
Qed.

Lemma jump_msgs_shift :
  forall (x : Heading) (hs : list Heading) (i : nat),
    1 <= i -> jump_msgs (x :: hs) (S i) = jump_msgs hs i.
Proof.
  intros x hs i Hi. unfold jump_msgs.
  destruct i as [|i]; [lia|].
  replace (S (S i) - 1) with (S i) by lia.
  replace (S i - 1) with i by lia. reflexivity.
Qed.

Lemma flat_map_jumps_shift :
  forall (x : Heading) (hs : list Heading) (n a : nat),
    1 <= a ->
    flat_map (jump_msgs (x :: hs)) (seq (S a) n)
    = flat_map (jump_msgs hs) (seq a n).
Proof.
  intros x hs. induction n as [|n IH]; intros a Ha.
  - reflexivity.
  - cbn [seq flat_map]. rewrite jump_msgs_shift by exact Ha.
    rewrite IH by lia. reflexivity.
Qed.

(** The loop over the indices warns where the specification says. *)
Lemma jumps_by_index :
  forall (rest : list Heading) (prev : Heading),
    flat_map (jump_msgs (prev :: rest)) (seq 1 (length rest))
    = spec_jumps prev rest.
Proof.
  induction rest as [|h later IH]; intros prev.
  - reflexivity.
  - cbn [length seq flat_map spec_jumps].
    rewrite flat_map_jumps_shift by lia. rewrite IH. reflexivity.
Qed.

(** What [_check_heading_structure] adds. *)
Lemma heading_findings :
  forall (U : UnicodeData) (content : text) (st : State),
    match collect_headings U 1 (split_on NL content) with
    | [] => check_heading_structure U content st = add_error NoHeadings st
    | first :: rest =>
        errors (check_heading_structure U content st) = errors st
        /\ warnings (check_heading_structure U content st) =
             warnings st
             ++ (if h_level first =? 1 then []
                 else [FirstHeadingNotH1 (h_level first)])
             ++ spec_jumps first rest
        /\ info (check_heading_structure U content st)
           = info st ++ [FoundHeadings (S (length rest))]
    end.
Proof.
  intros U content st. unfold check_heading_structure.
  destruct (collect_headings U 1 (split_on NL content))
    as [|first rest] eqn:Hh; [reflexivity|].
  match goal with
  | |- context [fold_left ?f ?l ?s] =>
      destruct (jump_fold (first :: rest) l s) as [He [Hw Hi]]
  end.
  cbn [add_info errors warnings info].
  rewrite He, Hw, Hi.
  cbn [length]. rewrite Nat.sub_succ, Nat.sub_0_r, jumps_by_index.
  destruct (h_level first =? 1); cbn; rewrite <- ?app_assoc; auto.
Qed.

(** Every document is its lines joined by newlines; the lines are not
    none and hold no newline. *)
Lemma document_lines :
  forall content : text,
    exists lines : list text,
      content = join [NL] lines
      /\ lines <> []
      /\ forallb (forallb not_nl) lines = true.
Proof.
  intros content. exists (split_on NL content). split; [|split].
  - symmetry. apply join_split.
  - apply split_on_nonnil.
  - pose proof (split_on_words NL content) as H.
    induction H as [|w ws Hw _ IH]; [reflexivity|].
    cbn [forallb]. rewrite IH, andb_true_r. exact Hw.
Qed.

(** C7.  For every command document, given as its lines joined by
    newlines: the headings are the lines whose stripped text starts with a
    hash, in document order, each with its level (the number of leading
    hash characters of the line) and its line number (from 1).  When there
    is none the check adds one error and nothing else.  When there is one
    at least, the check adds no error, adds a warning if the first heading
    is not of level 1, then one warning, citing the line number, for every
    heading whose level exceeds the level of the heading before it by more
    than one, and no other warning; it adds the number of headings as one
    info finding. *)
Theorem heading_hierarchy_check :
  forall (U : UnicodeData) (content : text) (lines : list text)
         (st : State),
    content = join [NL] lines ->
    lines <> [] ->
    forallb (forallb not_nl) lines = true ->
    let headings := spec_headings U lines in
    let st' := check_heading_structure U content st in
    match headings with
    | [] =>
        errors st' = errors st ++ [NoHeadings]
        /\ warnings st' = warnings st
        /\ info st' = info st
    | first :: rest =>
        errors st' = errors st
        /\ warnings st' =
             warnings st
             ++ (if h_level first =? 1 then []
                 else [FirstHeadingNotH1 (h_level first)])
             ++ spec_jumps first rest
        /\ info st' = info st ++ [FoundHeadings (length headings)]
    end.
Proof.
  intros U content lines st -> Hne Hfree headings st'.
  subst st' headings.
  pose proof (heading_findings U (join [NL] lines) st) as H.
  rewrite (split_on_join NL lines Hne Hfree), collect_headings_spec in H.
  fold (spec_headings U lines) in H.
  destruct (spec_headings U lines) as [|first rest].
  - rewrite H. cbn [add_error errors warnings info]. auto.
  - exact H.
Qed.

(** A title followed on the next line by a heading of level 3, after a
    blank line a heading of level 5, and a last line without a hash: one
    warning for each jump, with the number of its line. *)
Lemma heading_hierarchy_check_witness :
  let st' :=
    check_heading_structure ascii_only
      (txt "# Title
### Deep

  ##### Indented
##### Deeper
text") init in
  errors st' = []
  /\ warnings st' = [HeadingJump 1 3 2; HeadingJump 0 5 5]
  /\ info st' = [FoundHeadings 4].
Proof.
  apply (heading_hierarchy_check ascii_only _
           [txt "# Title"; txt "### Deep"; []; txt "  ##### Indented";
            txt "##### Deeper"; txt "text"] init);
    [reflexivity | discriminate | reflexivity].
Defined.

(* ----------------------------------------------------------------- *)
(** ** The command validator: the checks one after the other *)

Ltac only_appends :=
  cbn; rewrite <- ?app_assoc; cbn; rewrite ?app_nil_r; auto.

Lemma check_file_naming_appends :
  forall name : text, appends (check_file_naming name).
Proof.
  intros name st. unfold check_file_naming.
  destruct (negb (kebab_match name)); destruct (50 <? length name);
    destruct (length name <? 3); only_appends.
Qed.

Lemma check_content_structure_appends :
  forall (U : UnicodeData) (content : text),
    appends (check_content_structure U content).
Proof.
  intros U content st. unfold check_content_structure.
  destruct (is_nil (strip U content)); [only_appends|].
  destruct (length content <? 100); destruct (negb (has_title content));
    only_appends.
Qed.

Lemma check_arguments_placeholder_appends :
  forall content : text, appends (check_arguments_placeholder content).
Proof.
  intros content st. unfold check_arguments_placeholder.
  destruct (negb (contains ARGUMENTS content)); [only_appends|].
  cbv zeta. destruct (5 <? count ARGUMENTS content); only_appends.
Qed.

Lemma check_required_sections_appends :
  forall content : text, appends (check_required_sections content).
Proof.
  intros content st. unfold check_required_sections, required_sections.
  cbn [fold_left].
  destruct (negb (contains (txt "## Task") content));
    destruct (negb (contains (txt "## Process") content)); only_appends.
Qed.

Lemma check_heading_structure_appends :
  forall (U : UnicodeData) (content : text),
    appends (check_heading_structure U content).
Proof.
  intros U content st.
  pose proof (heading_findings U content st) as H.
  pose proof (heading_findings U content init) as H0.
  destruct (collect_headings U 1 (split_on NL content)) as [|first rest].
  - rewrite H, H0. only_appends.
  - destruct H as [He [Hw Hi]]. destruct H0 as [He0 [Hw0 Hi0]].
    rewrite He, Hw, Hi, He0, Hw0, Hi0. only_appends.
Qed.

Lemma check_process_steps_appends :
  forall (U : UnicodeData) (content : text),
    appends (check_process_steps U content).
Proof.
  intros U content st. unfold check_process_steps.
  destruct (process_search U content) as [g|]; [|only_appends].
  cbv zeta. destruct (numbered_steps U g =? 0); [only_appends|].
  destruct (numbered_steps U g <? 3); [only_appends|].
  destruct (10 <? numbered_steps U g); only_appends.
Qed.

Lemma check_best_practices_appends :
  forall (U : UnicodeData) (content : text),
    appends (check_best_practices U content).
Proof.
  intros U content st. unfold check_best_practices. cbv zeta.
  destruct (contains (txt "## Best Practices") content
            || contains (txt "## Best practices") content);
    destruct (has_adaptation U content);
    destruct (0 <? count (txt "```") content); only_appends.
Qed.

Lemma checks_append :
  forall (U : UnicodeData) (name content : text),
    Forall appends (checks U name content).
Proof.
  intros U name content. unfold checks.
  repeat first [apply Forall_nil | apply Forall_cons].
  - apply check_file_naming_appends.
  - apply check_content_structure_appends.
  - apply check_arguments_placeholder_appends.
  - apply check_required_sections_appends.
  - apply check_heading_structure_appends.
  - apply check_process_steps_appends.
  - apply check_best_practices_appends.
Qed.

(** Checks that only append, run one after the other, leave the findings
    of each, in order. *)
Lemma run_appends :
  forall (cs : list (State -> State)) (st : State),
    Forall appends cs ->
    errors (fold_left (fun s chk => chk s) cs st)
    = errors st ++ flat_map (fun chk => errors (chk init)) cs
    /\ warnings (fold_left (fun s chk => chk s) cs st)
       = warnings st ++ flat_map (fun chk => warnings (chk init)) cs
    /\ info (fold_left (fun s chk => chk s) cs st)
       = info st ++ flat_map (fun chk => info (chk init)) cs.
Proof.
  induction cs as [|chk cs IH]; intros st Hall.
  - simpl. rewrite !app_nil_r. auto.
  - inversion Hall as [|? ? Hchk Hcs]; subst.
    cbn [fold_left flat_map].
    destruct (IH (chk st) Hcs) as [He [Hw Hi]].
    destruct (Hchk st) as [He1 [Hw1 Hi1]].
    rewrite He, Hw, Hi, He1, Hw1, Hi1, <- !app_assoc. auto.
Qed.

Lemma run_checks_fold :
  forall (U : UnicodeData) (name content : text) (st : State),
    run_checks U name content st
    = fold_left (fun s chk => chk s) (checks U name content) st.
Proof. reflexivity. Qed.

Lemma dropwhile_nil :
  forall (p : char -> bool) (s : text),
    dropwhile p s = [] <-> forallb p s = true.
Proof.
  intros p. induction s as [|c r IH]; simpl.
  - split; reflexivity.
  - destruct (p c); simpl; [exact IH|]. split; discriminate.
Qed.

Lemma dropwhile_head :
  forall (p : char -> bool) (s : text) (c : char) (t : text),
    dropwhile p s = c :: t -> p c = false.
Proof.
  intros p. induction s as [|x r IH]; intros c t H; simpl in H.
  - discriminate.
  - destruct (p x) eqn:Hx.
    + apply (IH c t H).
    + injection H as <- _. exact Hx.
Qed.

Lemma forallb_rev :
  forall (p : char -> bool) (s : text),
    forallb p (rev s) = true -> forallb p s = true.
Proof.
  intros p s H. rewrite forallb_forall in *. intros x Hx.
  apply H. apply in_rev in Hx. exact Hx.
Qed.

(** A text is stripped to nothing exactly when it is white space only. *)
Lemma strip_nil :
  forall (U : UnicodeData) (s : text),
    strip U s = [] <-> forallb (isspace U) s = true.
Proof.
  intros U s. unfold strip, rstrip, lstrip. split.
  - intros H.
    apply (f_equal (@rev char)) in H. rewrite rev_involutive in H.
    simpl in H. apply dropwhile_nil, forallb_rev in H.
    destruct (dropwhile (isspace U) s) as [|c t] eqn:Hd.
    + apply dropwhile_nil. exact Hd.
    + apply dropwhile_head in Hd. simpl in H. rewrite Hd in H. discriminate.
  - intros H. apply dropwhile_nil in H. rewrite H. reflexivity.
Qed.

Lemma split_on_blank :
  forall (p : char -> bool) (sep : char) (s : text),
    forallb p s = true ->
    Forall (fun l => forallb p l = true) (split_on sep s).
Proof.
  intros p sep. induction s as [|c r IH]; intros H; simpl.
  - constructor; [reflexivity | constructor].
  - simpl in H. apply andb_true_iff in H. destruct H as [Hc Hr].
    specialize (IH Hr).
    destruct (c =? sep)%N.
    + constructor; [reflexivity | exact IH].
    + destruct (split_on sep r) as [|l ls].
      * constructor; [simpl; rewrite Hc; reflexivity | constructor].
      * inversion IH; subst. constructor; [|assumption].
        simpl. rewrite Hc. assumption.
Qed.

Lemma collect_headings_blank :
  forall (U : UnicodeData) (lines : list text) (i : nat),
    Forall (fun l => forallb (isspace U) l = true) lines ->
    collect_headings U i lines = [].
Proof.
  intros U. induction lines as [|line rest IH]; intros i H.
  - reflexivity.
  - inversion H as [|? ? Hline Hrest]; subst. cbn [collect_headings].
    rewrite (proj2 (strip_nil U line) Hline). cbn [startswith app].
    apply IH. exact Hrest.
Qed.

(** The errors that the six other checks can add. *)
Lemma other_checks_no_title_error :
  forall (U : UnicodeData) (name content : text),
    ~ In MissingTitle (errors (check_file_naming name init))
    /\ ~ In MissingTitle (errors (check_arguments_placeholder content init))
    /\ ~ In MissingTitle (errors (check_required_sections content init))
    /\ ~ In MissingTitle (errors (check_heading_structure U content init))
    /\ ~ In MissingTitle (errors (check_process_steps U content init))
    /\ ~ In MissingTitle (errors (check_best_practices U content init)).
Proof.
  intros U name content. repeat split.
  - unfold check_file_naming.
    destruct (negb (kebab_match name)); destruct (50 <? length name);
      destruct (length name <? 3); cbn; intuition discriminate.
  - unfold check_arguments_placeholder.
    destruct (negb (contains ARGUMENTS content));
      [cbn; intuition discriminate|].
    cbv zeta. destruct (5 <? count ARGUMENTS content); cbn; auto.
  - unfold check_required_sections, required_sections. cbn [fold_left].
    destruct (negb (contains (txt "## Task") content));
      destruct (negb (contains (txt "## Process") content));
      cbn; intuition discriminate.
  - pose proof (heading_findings U content init) as H.
    destruct (collect_headings U 1 (split_on NL content)).
    + rewrite H. cbn. intuition discriminate.
    + destruct H as [-> _]. cbn. auto.
  - unfold check_process_steps.
    destruct (process_search U content) as [g|]; [|cbn; auto].
    cbv zeta. destruct (numbered_steps U g =? 0); [cbn; auto|].
    destruct (numbered_steps U g <? 3); [cbn; auto|].
    destruct (10 <? numbered_steps U g); cbn; auto.
  - unfold check_best_practices. cbv zeta.
    destruct (contains (txt "## Best Practices") content
              || contains (txt "## Best practices") content);
      destruct (has_adaptation U content);
      destruct (0 <? count (txt "```") content); cbn; auto.
Qed.

(** C9 (amended).  For every command file whose content is read, the
    seven check methods all run, none cutting another short: the errors,
    the warnings and the info of the validator are, in order, those that
    each check adds on its own, whatever the checks before it found.
    Inside the content-structure check, however, content that is empty or
    white space only yields the file-is-empty error and nothing else: the
    length test and the title (H1) test are skipped, and no missing-title
    error is reported; the other checks still contribute, among them the
    no-headings error of the heading check. *)
Theorem all_checks_run :
  forall (U : UnicodeData) (f : CommandFile) (content : text),
    file_exists f = true ->
    path_suffix (file_name f) = txt ".md" ->
    file_text f = Some content ->
    let cs := checks U (path_stem (file_name f)) content in
    let st := snd (validate U f) in
    Forall appends cs
    /\ errors st = flat_map (fun chk => errors (chk init)) cs
    /\ warnings st = flat_map (fun chk => warnings (chk init)) cs
    /\ info st = flat_map (fun chk => info (chk init)) cs
    /\ fst (validate U f) = is_nil (errors st)
    /\ (strip U content = [] ->
        check_content_structure U content init = add_error FileEmpty init
        /\ In FileEmpty (errors st)
        /\ In NoHeadings (errors st)
        /\ ~ In MissingTitle (errors st)).
Proof.
  intros U f content Hex Hsuf Htext cs st.
  assert (Hst : validate U f
                = (is_nil (errors (run_checks U (path_stem (file_name f))
                                     content init)),
                   run_checks U (path_stem (file_name f)) content init)).
  { unfold validate. rewrite Hex, Hsuf, Htext. reflexivity. }
  assert (Happ := checks_append U (path_stem (file_name f)) content).
  destruct (run_appends cs init Happ) as [He [Hw Hi]].
  subst st. rewrite Hst. cbn [fst snd]. rewrite run_checks_fold.
  fold cs. cbn [errors warnings info init app] in He, Hw, Hi.
  split; [exact Happ|]. split; [exact He|]. split; [exact Hw|].
  split; [exact Hi|]. split; [reflexivity|].
  intros Hblank.
  assert (Hcs : check_content_structure U content init
                = add_error FileEmpty init).
  { unfold check_content_structure. rewrite Hblank. reflexivity. }
  assert (Hhead : check_heading_structure U content init
                  = add_error NoHeadings init).
  { pose proof (heading_findings U content init) as H.
    rewrite collect_headings_blank in H; [exact H|].
    apply split_on_blank. apply strip_nil. exact Hblank. }
  destruct (other_checks_no_title_error U (path_stem (file_name f)) content)
    as [N1 [N3 [N4 [N5 [N6 N7]]]]].
  rewrite He. subst cs. unfold checks. cbn [flat_map].
  rewrite Hcs, Hhead in *. rewrite app_nil_r.
  split; [reflexivity|]. split; [|split].
  - apply in_or_app. right. left. reflexivity.
  - apply in_or_app. right. apply in_or_app. right.
    apply in_or_app. right. apply in_or_app. right.
    apply in_or_app. left. left. reflexivity.
  - intros Hin.
    repeat (apply in_app_or in Hin; destruct Hin as [Hin|Hin];
            [tauto || (cbn in Hin; intuition discriminate) |]).
    tauto.
Qed.

(** The empty file [my-command.md]. *)
Lemma all_checks_run_witness :
  errors (snd (validate ascii_only empty_command_file))
  = flat_map (fun chk => errors (chk init))
      (checks ascii_only (txt "my-command") [])
  /\ In NoHeadings (errors (snd (validate ascii_only empty_command_file))).
Proof.
  destruct (all_checks_run ascii_only empty_command_file []
              eq_refl eq_refl eq_refl) as [_ [He [_ [_ [_ Hblank]]]]].
  split.
  - exact He.
  - apply Hblank. reflexivity.
Defined.

(** C9, as stated, fails on the empty file: every other check adds its
    findings, and the missing-title error is not among the errors. *)
Lemma empty_file_has_no_title_error :
  validate ascii_only empty_command_file
  = (false,
     {| errors := [FileEmpty; MissingArguments;
                   MissingSection (txt "## Task");
                   MissingSection (txt "## Process"); NoHeadings];
        warnings := [SuggestBestPractices; SuggestAdaptation];
        info := [] |})
  /\ ~ In MissingTitle (errors (snd (validate ascii_only empty_command_file))).
Proof.
  split.
  - vm_compute. reflexivity.
  - vm_compute. intuition discriminate.
Qed.

(* ----------------------------------------------------------------- *)
(** ** A command name with two hyphens in a row *)

Lemma rfind_app_md :
  forall s : text, rfind DOT (s ++ txt ".md") = Some (length s).
Proof.
  induction s as [|c r IH].
  - reflexivity.
  - cbn [app rfind length]. rewrite IH. reflexivity.
Qed.

Lemma md_name_parts :
  forall stem : text,
    stem <> [] ->
    path_suffix (stem ++ txt ".md") = txt ".md"
    /\ path_stem (stem ++ txt ".md") = stem.
Proof.
  intros stem Hne.
  assert (Hc : cut_point (stem ++ txt ".md") = Some (length stem)).
  { unfold cut_point. rewrite rfind_app_md.
    destruct stem as [|c r]; [exfalso; apply Hne; reflexivity|].
    rewrite length_app.
    replace (0 <? length (c :: r)) with true
      by (symmetry; apply Nat.ltb_lt; simpl; lia).
    replace (length (c :: r) <? length (c :: r) + length (txt ".md") - 1)
      with true by (symmetry; apply Nat.ltb_lt; simpl; lia).
    reflexivity. }
  unfold path_suffix, path_stem. rewrite Hc. split.
  - rewrite skipn_app, Nat.sub_diag, skipn_all. reflexivity.
  - rewrite firstn_app, Nat.sub_diag, firstn_all. simpl. apply app_nil_r.
Qed.

Lemma kebab_word_head :
  forall (w x : text) (c : char),
    w <> [] -> forallb kebab_char w = true -> kebab_char c = false ->
    startswith [c] (w ++ x) = false.
Proof.
  intros w x c Hne Hw Hc. destruct w as [|h w']; [contradiction|].
  cbn [forallb] in Hw. apply andb_true_iff in Hw. destruct Hw as [Hh _].
  cbn [app startswith]. destruct (N.eqb_spec c h) as [->|]; [|reflexivity].
  congruence.
Qed.

Lemma kebab_word_rev :
  forall w : text,
    w <> [] -> forallb kebab_char w = true ->
    rev w <> [] /\ forallb kebab_char (rev w) = true.
Proof.
  intros w Hne Hw. split.
  - intros H. apply Hne. apply (f_equal (@rev char)) in H.
    rewrite rev_involutive in H. exact H.
  - rewrite forallb_forall in *. intros c Hc. apply Hw.
    apply in_rev. exact Hc.
Qed.

Lemma kebab_word_last :
  forall (w x : text) (c : char),
    w <> [] -> forallb kebab_char w = true -> kebab_char c = false ->
    endswith [c] (x ++ w) = false.
Proof.
  intros w x c Hne Hw Hc. unfold endswith. rewrite rev_app_distr.
  destruct (kebab_word_rev w Hne Hw) as [Hne' Hw'].
  apply kebab_word_head; assumption.
Qed.

Lemma kebab_word_chars_ok :
  forall (U : UnicodeData) (w : text),
    forallb kebab_char w = true -> name_chars_ok U w = true.
Proof.
  intros U w H. unfold name_chars_ok. rewrite forallb_forall in *.
  intros c Hc. destruct (kebab_char_true U c (H c Hc)) as [_ [_ Hk]].
  rewrite Hk. reflexivity.
Qed.

(** C4.  The two kebab-case tests do not agree, and it is the test of
    create-command that lets through names that are not kebab-case.  For
    two words [a] and [b] of lower-case letters and digits, [main] of
    create-command accepts the name [a--b]: it goes on to
    [create_command], and when that creates a file, exits with 0, the
    file being [a--b.md].  The pattern of the validator does not match
    the name, and [validate] on a file of that name fails, with the
    kebab-case error as its first error. *)
Theorem create_command_accepts_double_hyphen :
  forall (U : UnicodeData) (a b : text),
    a <> [] -> b <> [] ->
    forallb kebab_char a = true -> forallb kebab_char b = true ->
    let name := a ++ txt "--" ++ b in
    command_name_accepted U name = true
    /\ kebab_match name = false
    /\ (forall (E : Env) (scope : text) (answers : CommandAnswers)
               (f : Path) (content : text),
           create_command E name scope answers = CommandCreated f content ->
           create_command_main U E name scope answers
           = (0, CommandCreated f content)
           /\ exists dir, f = dir // (name ++ txt ".md"))
    /\ (forall content : text,
           let f := {| file_exists := true;
                       file_name := name ++ txt ".md";
                       file_text := Some content |} in
           fst (validate U f) = false
           /\ exists more,
                errors (snd (validate U f)) = NotKebabCase name :: more).
Proof.
  intros U a b Ha Hb Hka Hkb name.
  assert (Hne : name <> []).
  { subst name. destruct a; [contradiction | discriminate]. }
  assert (Hchars : name_chars_ok U name = true).
  { subst name. unfold name_chars_ok. rewrite !forallb_app.
    fold (name_chars_ok U a). fold (name_chars_ok U b).
    rewrite (kebab_word_chars_ok U a Hka), (kebab_word_chars_ok U b Hkb).
    change (txt "--") with [HYPHEN; HYPHEN]. cbn [forallb].
    rewrite N.eqb_refl, !orb_true_r. reflexivity. }
  assert (Hedge : hyphen_at_edge name = false).
  { subst name. unfold hyphen_at_edge.
    rewrite (kebab_word_head a _ HYPHEN Ha Hka eq_refl).
    rewrite app_assoc.
    rewrite (kebab_word_last b _ HYPHEN Hb Hkb eq_refl). reflexivity. }
  assert (Hacc : command_name_accepted U name = true).
  { unfold command_name_accepted. rewrite Hchars, Hedge. reflexivity. }
  assert (Hmatch : kebab_match name = false).
  { unfold kebab_match.
    assert (Hg : kebab_groups false name = false).
    { destruct (kebab_groups false name) eqn:Hg; [|reflexivity].
      destruct (kebab_groups_sound U name false Hg) as [_ [_ [Hdd _]]].
      assert (Hin : contains (txt "--") name = true).
      { apply contains_appears. exists a, b. reflexivity. }
      congruence. }
    rewrite Hg. cbn [orb].
    destruct (without_final_newline name) as [core|] eqn:Hw; [|reflexivity].
    apply without_final_newline_Some in Hw.
    assert (He : endswith [NL] name = false).
    { subst name. rewrite app_assoc.
      apply (kebab_word_last b _ NL Hb Hkb eq_refl). }
    rewrite Hw in He. unfold endswith in He.
    rewrite rev_app_distr in He. cbn in He. discriminate He. }
  split; [exact Hacc|]. split; [exact Hmatch|]. split.
  - intros E scope answers f content Hcreate. split.
    + unfold create_command_main. rewrite Hchars, Hedge, Hcreate.
      reflexivity.
    + unfold create_command in Hcreate.
      destruct (commands_target_dir E scope) as [dir|]; [|discriminate].
      destruct (negb (mkdir_ok answers)); [discriminate|].
      destruct (fs_exists E _ && negb _); [discriminate|].
      destruct (fill_command_template _ _); [discriminate|].
      destruct (write_ok answers); [|discriminate].
      injection Hcreate as <- _. exists dir. reflexivity.
  - intros content f. subst f. unfold validate.
    cbn [file_exists file_name file_text negb].
    destruct (md_name_parts name Hne) as [Hsuffix Hstem].
    rewrite Hsuffix, Hstem. cbn [text_eqb negb fst snd].
    change (negb (text_eqb (txt ".md") (txt ".md"))) with false. cbv iota.
    rewrite run_checks_fold.
    destruct (run_appends (checks U name content) init
                (checks_append U name content)) as [He _].
    cbn [fst snd]. rewrite He. cbn [errors init app checks flat_map].
    assert (Hfirst : exists more,
               errors (check_file_naming name init)
               = NotKebabCase name :: more).
    { unfold check_file_naming. rewrite Hmatch. cbn [negb].
      destruct (50 <? length name); destruct (length name <? 3);
        eexists; reflexivity. }
    destruct Hfirst as [more Hfirst]. rewrite Hfirst. cbn [app is_nil].
    split; [reflexivity|]. eexists. reflexivity.
Qed.

(** The name [a--b]: create-command writes [a--b.md] in the user's
    commands and exits with 0; the validator fails on the file. *)
Lemma create_command_accepts_double_hyphen_witness :
  command_name_accepted ascii_only (txt "a--b") = true
  /\ kebab_match (txt "a--b") = false
  /\ exists content,
       create_command_main ascii_only env_nested (txt "a--b") (txt "user")
         some_command_answers
       = (0, CommandCreated
               (home env_nested // DOT_CLAUDE // COMMANDS // txt "a--b.md")
               content)
       /\ fst (validate ascii_only
                 {| file_exists := true; file_name := txt "a--b.md";
                    file_text := Some content |}) = false
       /\ exists more,
            errors (snd (validate ascii_only
                           {| file_exists := true; file_name := txt "a--b.md";
                              file_text := Some content |}))
            = NotKebabCase (txt "a--b") :: more.
Proof.
  destruct (create_command_accepts_double_hyphen ascii_only (txt "a")
              (txt "b"))
    as [Hacc [Hmatch [Hmain Hval]]];
    [discriminate | discriminate | reflexivity | reflexivity |].
  split; [exact Hacc|]. split; [exact Hmatch|].
  destruct (create_command_content some_command_answers) as [content Hc].
  exists content.
  assert (Hcreate : create_command env_nested (txt "a--b") (txt "user")
                      some_command_answers
                    = CommandCreated
                        (home env_nested // DOT_CLAUDE // COMMANDS
                           // txt "a--b.md")
                        content).
  { unfold create_command.
    change (commands_target_dir env_nested (txt "user"))
      with (Some (home env_nested // DOT_CLAUDE // COMMANDS)).
    cbv iota beta. rewrite Hc. reflexivity. }
  split; [exact (proj1 (Hmain _ _ _ _ _ Hcreate))|].
  exact (Hval content).
Defined.

(* ----------------------------------------------------------------- *)
(** ** The command validator: the steps of the process *)

(** What [_check_process_steps] does with the text its pattern captures:
    nothing when the pattern does not match, and otherwise one finding,
    chosen by the number of numbered items. *)
Lemma process_steps_thresholds :
  forall (U : UnicodeData) (content : text) (st : State),
    match process_search U content with
    | None => check_process_steps U content st = st
    | Some process_content =>
        let n := numbered_steps U process_content in
        (n = 0 ->
         check_process_steps U content st = add_warning NoNumberedSteps st)
        /\ (1 <= n <= 2 ->
            check_process_steps U content st = add_warning (FewSteps n) st)
        /\ (10 < n ->
            check_process_steps U content st = add_warning (ManySteps n) st)
        /\ (3 <= n <= 10 ->
            check_process_steps U content st
            = add_info (WellDefinedSteps n) st)
    end.
Proof.
  intros U content st. unfold check_process_steps.
  destruct (process_search U content) as [g|]; [|reflexivity].
  cbv zeta.
  destruct (Nat.eqb_spec (numbered_steps U g) 0) as [H0|H0];
    destruct (Nat.ltb_spec (numbered_steps U g) 3) as [H3|H3];
    destruct (Nat.ltb_spec 10 (numbered_steps U g)) as [H10|H10];
    repeat split; intros; try reflexivity; lia.
Qed.

(** C6, where the code departs from it.  In [empty_process_doc] the
    [## Process] section is there and is empty: the text from its heading
    to the next [##] heading is one newline, with no numbered item, so
    the claim asks for the warning that there are no numbered steps.  The
    pattern of the script takes the newlines after the heading as white
    space, so its group runs through the next section to the end of the
    document, and the check reports three well-defined steps. *)
Theorem empty_process_section_counts_next_section :
  contains (txt "## Process") empty_process_doc = true
  /\ spec_process_text empty_process_doc = Some [NL]
  /\ numbered_steps ascii_only [NL] = 0
  /\ process_search ascii_only empty_process_doc
     = Some (txt "## Notes

1. first
2. second
3. third
")
  /\ check_process_steps ascii_only empty_process_doc init
     = add_info (WellDefinedSteps 3) init.
Proof. vm_compute. repeat split; reflexivity. Qed.

(* ----------------------------------------------------------------- *)
(** ** The embedding on small inputs *)

Example kebab_match_plain : kebab_match (txt "optimize-images") = true.
Proof. reflexivity. Qed.

Example kebab_match_final_newline : kebab_match (txt "abc" ++ [NL]) = true.
Proof. reflexivity. Qed.

Example kebab_match_upper : kebab_match (txt "My_Command") = false.
Proof. reflexivity. Qed.

Example main_accepts_empty_name : command_name_accepted ascii_only [] = true.
Proof. reflexivity. Qed.

Example main_rejects_final_newline :
  command_name_accepted ascii_only (txt "abc" ++ [NL]) = false.
Proof. reflexivity. Qed.

(** A fence followed by a blank: the lazy pattern of the line scanner
    matches, the pattern of the YAML validator does not. *)
Example fence_with_trailing_blank :
  scan_frontmatter ascii_only
    (txt "--- " ++ NL :: txt "name: x" ++ NL :: FENCE ++ [NL])
  = Some (txt "name: x")
  /\ frontmatter_match
       (txt "--- " ++ NL :: txt "name: x" ++ NL :: FENCE ++ [NL])
     = None.
Proof. split; reflexivity. Qed.

Example frontmatter_match_groups :
  frontmatter_match (txt "---
name: x
---
Body
") = Some (txt "name: x", txt "Body
").
Proof. reflexivity. Qed.

(** Two fences with nothing between them do not match: the newline of the
    opening fence cannot serve the closing one as well. *)
Example frontmatter_match_adjacent_fences :
  frontmatter_match (txt "---
---
") = None.
Proof. reflexivity. Qed.

(** The line scanner raises on a document without a [color] field, and
    otherwise measures the rest of the content from the end of that
    field. *)
Example scan_validator_without_color :
  validate_agent ascii_only (Some (txt "---
name: x
description: y
---
Body
")) = Raised.
Proof. reflexivity. Qed.

Example scan_validator_with_color :
  validate_agent ascii_only (Some (txt "---
name: x
description: y
color: red
---
Body
")) = Returned true [] [].
Proof. reflexivity. Qed.

Example numbered_steps_plain :
  numbered_steps ascii_only (txt "1. a
2. b
3. c") = 3.
Proof. reflexivity. Qed.

(** The white space after the dot may run over a line end. *)
Example numbered_steps_over_lines :
  numbered_steps ascii_only (txt "1.
2. b") = 1.
Proof. reflexivity. Qed.

Example process_search_stops_at_next_section :
  process_search ascii_only (txt "## Process
1. a
## Next
2. b") = Some (txt "1. a").
Proof. reflexivity. Qed.

Example process_search_needs_newline :
  process_search ascii_only (txt "## Process") = None.
Proof. reflexivity. Qed.

Example format_fills :
  format (txt "a{x}b{{y}}") [(txt "x", txt "1")] = inr (txt "a1b{y}").
Proof. reflexivity. Qed.

Example format_missing :
  format (txt "{title}: {x}") [(txt "x", txt "1")]
  = inl (KeyError (txt "title")).
Proof. reflexivity. Qed.

Example placeholders_generation :
  placeholders GENERATION_TEMPLATE
  = [txt "title"; txt "description"; txt "target"; txt "target";
     txt "target"; txt "target"].
Proof. vm_compute. reflexivity. Qed.

Example path_suffix_stem :
  path_suffix (txt "my-command.md") = txt ".md"
  /\ path_stem (txt "my-command.md") = txt "my-command".
Proof. split; reflexivity. Qed.

(* ================================================================= *)
(** * Further properties of the scripts *)

(* ----------------------------------------------------------------- *)
(** ** The walk to the project root *)

Lemma walk_up_Some :
  forall (E : Env) (dir target_dir : Path),
    walk_up E dir = Some target_dir ->
    exists pre d,
      dir = pre ++ d /\ d <> root
      /\ target_dir = d // DOT_CLAUDE // AGENTS
      /\ fs_exists E (d // DOT_CLAUDE) = true
      /\ (forall pre1 pre2, pre = pre1 ++ pre2 -> pre2 <> [] ->
                            fs_exists E ((pre2 ++ d) // DOT_CLAUDE) = false).
Proof.
  intros E. induction dir as [|c up IH]; intros target_dir H.
  - discriminate.
  - cbn [walk_up] in H.
    destruct (fs_exists E ((c :: up) // DOT_CLAUDE)) eqn:Hm.
    + injection H as <-. exists [], (c :: up).
      split; [reflexivity|]. split; [discriminate|].
      split; [reflexivity|]. split; [exact Hm|].
      intros pre1 pre2 Hp Hne. destruct pre1; destruct pre2;
        try discriminate. exfalso. apply Hne. reflexivity.
    + destruct (IH target_dir H) as [pre [d [-> [Hd [Ht [Hex Hnear]]]]]].
      exists (c :: pre), d.
      split; [reflexivity|]. split; [exact Hd|]. split; [exact Ht|].
      split; [exact Hex|].
      intros pre1 pre2 Hp Hne. destruct pre1 as [|x pre1].
      * simpl in Hp. subst pre2. exact Hm.
      * injection Hp as _ Hp. apply (Hnear pre1 pre2 Hp Hne).
Qed.

(** X1.  When the agent scripts resolve project scope, the directory they
    return is [.claude/agents] under a directory that is the working
    directory or one of its ancestors, is not the filesystem root, holds
    the marker, and is the nearest such directory: no directory between
    it and the working directory holds the marker. *)
Theorem project_dir_is_nearest_marker :
  forall (E : Env) (target_dir : Path),
    agents_target_dir E (txt "project") = inr target_dir ->
    exists pre d,
      cwd E = pre ++ d /\ d <> root
      /\ target_dir = d // DOT_CLAUDE // AGENTS
      /\ fs_exists E (d // DOT_CLAUDE) = true
      /\ (forall pre1 pre2, pre = pre1 ++ pre2 -> pre2 <> [] ->
                            fs_exists E ((pre2 ++ d) // DOT_CLAUDE) = false).
Proof.
  intros E target_dir H. rewrite agents_target_dir_project in H.
  destruct (walk_up E (cwd E)) as [t|] eqn:Hw; [|discriminate].
  injection H as <-. apply walk_up_Some. exact Hw.
Qed.

Lemma project_dir_is_nearest_marker_witness :
  exists pre d,
    cwd env_nested = pre ++ d /\ d <> root
    /\ [AGENTS; DOT_CLAUDE; txt "a"] = d // DOT_CLAUDE // AGENTS
    /\ fs_exists env_nested (d // DOT_CLAUDE) = true
    /\ (forall pre1 pre2, pre = pre1 ++ pre2 -> pre2 <> [] ->
          fs_exists env_nested ((pre2 ++ d) // DOT_CLAUDE) = false).
Proof.
  apply (project_dir_is_nearest_marker env_nested). reflexivity.
Defined.

(* ----------------------------------------------------------------- *)
(** ** [activate_agent] *)

Lemma endswith_app : forall p s : text, endswith p (s ++ p) = true.
Proof.
  intros p s. unfold endswith. rewrite rev_app_distr. apply startswith_app.
Qed.

Lemma ensure_md_endswith :
  forall agent_name : text, endswith (txt ".md") (ensure_md agent_name) = true.
Proof.
  intros agent_name. unfold ensure_md.
  destruct (endswith (txt ".md") agent_name) eqn:H; [exact H|].
  apply endswith_app.
Qed.

(** X2.  Whatever the scope, [activate_agent] copies only a source file
    that exists; the source and the target have the same file name, which
    ends with [.md]; and a name is given the extension once only: adding
    it again changes nothing. *)
Theorem activation_copies_md_file :
  forall (E : Env) (agent_name : text) (source_dir : Path) (scope : text)
         (source target : Path),
    activate_agent E agent_name source_dir scope = Activated source target ->
    exists (target_dir : Path) (file : text),
      source = source_dir // file /\ target = target_dir // file
      /\ endswith (txt ".md") file = true
      /\ fs_exists E source = true
      /\ agents_target_dir E scope = inr target_dir
      /\ ensure_md file = file.
Proof.
  intros E agent_name source_dir scope source target H.
  unfold activate_agent in H.
  destruct (fs_exists E (source_dir // ensure_md agent_name)) eqn:Hex;
    cbn [negb] in H; [|discriminate].
  destruct (agents_target_dir E scope) as [why|target_dir] eqn:Hdir;
    [discriminate|].
  injection H as <- <-. exists target_dir, (ensure_md agent_name).
  repeat split; try assumption.
  - apply ensure_md_endswith.
  - unfold ensure_md at 1. rewrite ensure_md_endswith. reflexivity.
Qed.

Lemma activation_copies_md_file_witness :
  exists (target_dir : Path) (file : text),
    [txt "planner.md"; txt "src"] = [txt "src"] // file
    /\ [txt "planner.md"; AGENTS; DOT_CLAUDE; txt "a"] = target_dir // file
    /\ endswith (txt ".md") file = true
    /\ fs_exists env_nested [txt "planner.md"; txt "src"] = true
    /\ agents_target_dir env_nested (txt "project") = inr target_dir
    /\ ensure_md file = file.
Proof.
  apply (activation_copies_md_file env_nested (txt "planner") [txt "src"]
           (txt "project")).
  reflexivity.
Defined.

(* ----------------------------------------------------------------- *)
(** ** Suffix and stem *)

Lemma cut_point_bounds :
  forall (name : text) (i : nat),
    cut_point name = Some i -> 0 < i /\ i < length name - 1.
Proof.
  intros name i H. unfold cut_point in H.
  destruct (rfind DOT name) as [j|]; [|discriminate].
  destruct (0 <? j) eqn:H0; [|discriminate].
  destruct (j <? length name - 1) eqn:H1; [|discriminate].
  injection H as <-. apply Nat.ltb_lt in H0, H1. split; assumption.
Qed.

(** The stem and the suffix of a file name put together give the
    name back.  A name has the suffix [.md] exactly when it is a stem
    that is not empty followed by [.md]; the stem is then that text. *)
Theorem stem_suffix_round_trip :
  forall name : text,
    path_stem name ++ path_suffix name = name
    /\ (path_suffix name = txt ".md" <->
        exists stem, stem <> [] /\ name = stem ++ txt ".md")
    /\ (forall stem, stem <> [] -> path_stem (stem ++ txt ".md") = stem).
Proof.
  intros name.
  assert (Hmd : forall stem, stem <> [] ->
                  cut_point (stem ++ txt ".md") = Some (length stem)).
  { intros stem Hne. unfold cut_point. rewrite rfind_app_md.
    destruct stem as [|c r]; [exfalso; apply Hne; reflexivity|].
    rewrite length_app.
    replace (0 <? length (c :: r)) with true
      by (symmetry; apply Nat.ltb_lt; simpl; lia).
    replace (length (c :: r) <? length (c :: r) + length (txt ".md") - 1)
      with true by (symmetry; apply Nat.ltb_lt; simpl; lia).
    reflexivity. }
  split; [|split].
  - unfold path_stem, path_suffix.
    destruct (cut_point name) as [i|]; [apply firstn_skipn | apply app_nil_r].
  - split.
    + intros H. unfold path_suffix in H.
      destruct (cut_point name) as [i|] eqn:Hc; [|discriminate].
      apply cut_point_bounds in Hc. exists (firstn i name). split.
      * intros Hnil. apply (f_equal (@length char)) in Hnil.
        rewrite length_firstn in Hnil. simpl in Hnil. lia.
      * rewrite <- H. symmetry. apply firstn_skipn.
    + intros [stem [Hne ->]]. unfold path_suffix. rewrite (Hmd stem Hne).
      rewrite skipn_app, Nat.sub_diag, skipn_all. reflexivity.
  - intros stem Hne. unfold path_stem. rewrite (Hmd stem Hne).
    rewrite firstn_app, Nat.sub_diag, firstn_all. simpl.
    apply app_nil_r.
Qed.

Lemma stem_suffix_round_trip_witness :
  path_stem (txt "optimize-images" ++ txt ".md") = txt "optimize-images".
Proof.
  apply (proj2 (proj2 (stem_suffix_round_trip []))). discriminate.
Defined.

(* ----------------------------------------------------------------- *)
(** ** [validate] of the command validator *)

(** X4.  Whatever the file, [validate] returns true exactly when the
    validator holds no error afterwards, warnings or not.  When the file
    is missing, has not the suffix [.md] or cannot be read, no check runs:
    there is one error, and no warning and no info. *)
Theorem validate_passes_iff_no_error :
  forall (U : UnicodeData) (f : CommandFile),
    fst (validate U f) = is_nil (errors (snd (validate U f)))
    /\ (file_exists f = false \/ path_suffix (file_name f) <> txt ".md"
        \/ file_text f = None ->
        fst (validate U f) = false
        /\ length (errors (snd (validate U f))) = 1
        /\ warnings (snd (validate U f)) = []
        /\ info (snd (validate U f)) = []).
Proof.
  intros U f. unfold validate.
  destruct (file_exists f); cbn [negb].
  - destruct (text_eqb (path_suffix (file_name f)) (txt ".md")) eqn:Hs;
      cbn [negb].
    + apply text_eqb_eq in Hs. destruct (file_text f) as [content|].
      * split; [reflexivity|]. intros [H|[H|H]]; congruence.
      * split; [reflexivity|]. intros _. repeat split.
    + split; [reflexivity|]. intros _. repeat split.
  - split; [reflexivity|]. intros _. repeat split.
Qed.

Lemma validate_passes_iff_no_error_witness :
  fst (validate ascii_only
         {| file_exists := true; file_name := txt "notes.txt";
            file_text := Some (txt "# T") |}) = false
  /\ length (errors (snd (validate ascii_only
         {| file_exists := true; file_name := txt "notes.txt";
            file_text := Some (txt "# T") |}))) = 1
  /\ warnings (snd (validate ascii_only
         {| file_exists := true; file_name := txt "notes.txt";
            file_text := Some (txt "# T") |})) = []
  /\ info (snd (validate ascii_only
         {| file_exists := true; file_name := txt "notes.txt";
            file_text := Some (txt "# T") |})) = [].
Proof.
  apply (proj2 (validate_passes_iff_no_error ascii_only
                  {| file_exists := true; file_name := txt "notes.txt";
                     file_text := Some (txt "# T") |})).
  right. left. vm_compute. discriminate.
Defined.

(* ----------------------------------------------------------------- *)
(** ** More on the template fill *)

Lemma fill_agree :
  forall (kw1 kw2 : Dict text) (segs : list Segment),
    (forall p, In p (field_names segs) -> dict_get kw1 p = dict_get kw2 p) ->
    fill kw1 segs = fill kw2 segs.
Proof.
  intros kw1 kw2. induction segs as [|seg segs IH]; intros H.
  - reflexivity.
  - destruct seg as [s|name]; cbn [fill field_names] in *.
    + rewrite (IH H). reflexivity.
    + unfold get_value. rewrite (H name (or_introl eq_refl)).
      rewrite IH; [reflexivity|]. intros p Hp. apply H. right. exact Hp.
Qed.

(** X5.  The fill of a template depends on the mapping only through the
    entries of the template's placeholders: two mappings that agree on
    them give the same text or the same error.  Entries for other names,
    and the order of the entries, do not matter.  This is for templates
    of the kind the repository has, which [parse_format] covers: literal
    text, doubled braces, and fields that are plain names (no conversion,
    no format specification, no attribute or index, no number). *)
Theorem format_uses_placeholders_only :
  forall (t : text) (kw1 kw2 : Dict text),
    snd (parse_format None t) = None ->
    forallb named (placeholders t) = true ->
    (forall p, In p (placeholders t) -> dict_get kw1 p = dict_get kw2 p) ->
    format t kw1 = format t kw2.
Proof.
  intros t kw1 kw2 _ _ H. unfold format, placeholders in *.
  destruct (parse_format None t) as [segs err]. cbn [fst] in H.
  rewrite (fill_agree kw1 kw2 segs H). reflexivity.
Qed.

(** The template of the generation commands, filled from two mappings
    that differ in their order and in an entry that the template does
    not name. *)
Lemma format_uses_placeholders_only_witness :
  format GENERATION_TEMPLATE
    [(txt "title", txt "T"); (txt "description", txt "D");
     (txt "target", txt "X"); (txt "concerns", txt "C")]
  = format GENERATION_TEMPLATE
      [(txt "target", txt "X"); (txt "title", txt "T");
       (txt "description", txt "D")].
Proof.
  apply format_uses_placeholders_only.
  - reflexivity.
  - reflexivity.
  - intros p Hp. vm_compute in Hp.
    repeat (destruct Hp as [<-|Hp]; [reflexivity|]). destruct Hp.
Defined.

Lemma parse_brace_free :
  forall t : text,
    brace_free t = true ->
    parse_format None t
    = (match t with [] => [] | _ :: _ => [Lit t] end, None).
Proof.
  induction t as [|c r IH]; intros H.
  - reflexivity.
  - unfold brace_free in H. cbn [forallb] in H.
    apply andb_true_iff in H. destruct H as [Hc Hr].
    unfold is_brace in Hc. apply negb_true_iff, orb_false_iff in Hc.
    destruct Hc as [Hl Hrb]. cbn [parse_format]. rewrite Hl, Hrb.
    rewrite (IH Hr). destruct r; reflexivity.
Qed.

(** A text without braces is a template without placeholders: its
    fill succeeds with any mapping and gives the text back unchanged. *)
Theorem format_without_braces_is_identity :
  forall (t : text) (kwargs : Dict text),
    brace_free t = true -> format t kwargs = inr t.
Proof.
  intros t kwargs H. unfold format. rewrite (parse_brace_free t H).
  destruct t; cbn [fill]; rewrite ?app_nil_r; reflexivity.
Qed.

Lemma format_without_braces_is_identity_witness :
  format (txt "## Task") [(txt "title", txt "T")] = inr (txt "## Task").
Proof. apply format_without_braces_is_identity. reflexivity. Defined.

(** X6.  The creation scripts supply every placeholder of the template
    they fill: whatever the answers (the category typed in included, a
    choice outside 1-4 standing for generation), the fill inside
    [create_command] and inside [create_agent] does not raise. *)
Theorem creation_never_raises :
  forall (E : Env) (name scope : text) (ca : CommandAnswers)
         (aa : AgentAnswers) (e : FormatError),
    create_command E name scope ca <> CommandRaised e
    /\ create_agent E name scope aa <> AgentRaised e.
Proof.
  intros E name scope ca aa e. split.
  - unfold create_command.
    destruct (create_command_content ca) as [content Hc]. rewrite Hc.
    destruct (commands_target_dir E scope); [|discriminate].
    destruct (negb (mkdir_ok ca)); [discriminate|].
    destruct (fs_exists E _ && negb _); [discriminate|].
    destruct (write_ok ca); discriminate.
  - unfold create_agent.
    destruct (create_agent_content name aa) as [content Hc]. rewrite Hc.
    destruct (agents_target_dir E scope); discriminate.
Qed.

(* ----------------------------------------------------------------- *)
(** ** More on the agent validators *)

Lemma is_str_YStr :
  forall v : yaml_value, is_str v = true -> exists s, v = YStr s.
Proof. intros v H. destruct v; try discriminate. eexists. reflexivity. Qed.

(** X7.  When the YAML validator returns for a file that exists, it
    returns true exactly when it found no error, whatever the warnings;
    it finds two errors at most; and when it returns true, the
    frontmatter was found, was loaded as a mapping, and binds both
    [name] and [description] to strings. *)
Theorem skogix_pass_means_fields :
  forall (U : UnicodeData) (safe_load : text -> yaml_load) (content : text)
         (ok : bool) (errs warns : list AgentMsg),
    validate_skogix_agent U safe_load (Some content) = Returned ok errs warns ->
    ok = is_nil errs
    /\ length errs <= 2
    /\ (ok = true ->
        exists frontmatter_str body frontmatter n d,
          frontmatter_match content = Some (frontmatter_str, body)
          /\ safe_load frontmatter_str = YamlLoaded (YMap frontmatter)
          /\ dict_get frontmatter (txt "name") = Some (YStr n)
          /\ dict_get frontmatter (txt "description") = Some (YStr d)
          /\ warns = color_warnings frontmatter ++ body_warnings U body).
Proof.
  intros U safe_load content ok errs warns H.
  unfold validate_skogix_agent in H.
  destruct (frontmatter_match content) as [[fm_str body]|] eqn:Hm.
  2:{ injection H as <- <- <-.
      split; [reflexivity|]. split; [simpl; lia | discriminate]. }
  destruct (safe_load fm_str) as [|v] eqn:Hl.
  { injection H as <- <- <-.
    split; [reflexivity|]. split; [simpl; lia | discriminate]. }
  destruct v as [| | | | |m|]; try discriminate.
  destruct (printing_raises m); [discriminate|].
  injection H as <- <- <-. unfold required_field.
  destruct (dict_get m (txt "name")) as [vn|] eqn:Hn;
    destruct (dict_get m (txt "description")) as [vd|] eqn:Hd;
    try destruct (is_str vn) eqn:Hsn; try destruct (is_str vd) eqn:Hsd;
    cbn; (split; [reflexivity|]); (split; [lia|]);
    intros Hok; try discriminate.
  apply is_str_YStr in Hsn, Hsd. destruct Hsn as [n ->].
  destruct Hsd as [d ->].
  exists fm_str, body, m, n, d. auto.
Qed.

Lemma skogix_pass_means_fields_witness :
  exists frontmatter_str body frontmatter n d,
    frontmatter_match doc_with_fields = Some (frontmatter_str, body)
    /\ load_with_fields frontmatter_str = YamlLoaded (YMap frontmatter)
    /\ dict_get frontmatter (txt "name") = Some (YStr n)
    /\ dict_get frontmatter (txt "description") = Some (YStr d)
    /\ [MissingColor; MissingIdentity; MissingPrinciples; MissingHardToVary;
        MissingPopper; MissingKiss; MissingWorkflow; MissingInput;
        MissingOutput; MissingQuality; MissingUncertainty]
       = color_warnings frontmatter ++ body_warnings ascii_only body.
Proof.
  apply (proj2 (proj2 (skogix_pass_means_fields ascii_only load_with_fields
                         doc_with_fields true [] _ eq_refl))).
  reflexivity.
Defined.

Lemma find_close_shape :
  forall (U : UnicodeData) (s g : text),
    find_close U s = Some g -> exists post, s = g ++ NL :: FENCE ++ post.
Proof.
  intros U. induction s as [|c r IH]; intros g H; cbn [find_close] in H.
  - destruct (closes_here U []) eqn:Hc; [|discriminate]. discriminate Hc.
  - destruct (closes_here U (c :: r)) eqn:Hc.
    + injection H as <-. unfold closes_here in Hc.
      destruct (strip_prefix (NL :: FENCE) (c :: r)) as [post|] eqn:Hp;
        [|discriminate].
      apply strip_prefix_Some in Hp. exists post. exact Hp.
    + destruct (find_close U r) as [g'|] eqn:Hr; [|discriminate].
      injection H as <-. destruct (IH g' eq_refl) as [post ->].
      exists post. reflexivity.
Qed.

(** The frontmatter that the line scanner finds lies in the content
    before a closing fence. *)
Lemma scan_frontmatter_shape :
  forall (U : UnicodeData) (content frontmatter : text),
    scan_frontmatter U content = Some frontmatter ->
    exists pre post, content = pre ++ frontmatter ++ NL :: FENCE ++ post.
Proof.
  intros U content frontmatter H. unfold scan_frontmatter in H.
  destruct (strip_prefix FENCE content) as [r|] eqn:Hp; [|discriminate].
  apply strip_prefix_Some in Hp.
  apply first_some_In in H. destruct H as [t [Hin Hc]].
  apply ws_newline_tails_In in Hin. destruct Hin as [ws [Hr _]].
  apply find_close_shape in Hc. destruct Hc as [post Ht].
  exists (FENCE ++ ws ++ [NL]), post.
  rewrite Hp, Hr, Ht, <- !app_assoc. reflexivity.
Qed.

Lemma up_to_length :
  forall stop s : text, length (up_to stop s) <= length s.
Proof.
  intros stop. induction s as [|c r IH]; cbn [up_to].
  - destruct (startswith stop []); simpl; lia.
  - destruct (startswith stop (c :: r)); simpl; lia.
Qed.

Lemma value_after_ws_length :
  forall (U : UnicodeData) (s : text) (k : nat) (g : text),
    value_after_ws U s = Some (k, g) -> k + length g <= length s.
Proof.
  intros U. induction s as [|c r IH]; intros k g H; cbn [value_after_ws] in H.
  - discriminate.
  - pose proof (up_to_length [NL] (c :: r)) as Hu.
    destruct (isspace U c).
    + destruct (value_after_ws U r) as [[k' g']|] eqn:Hr.
      * injection H as <- <-. specialize (IH k' g' eq_refl). simpl. lia.
      * destruct (c =? NL)%N; [discriminate|].
        injection H as <- <-. simpl in *. lia.
    + injection H as <- <-. simpl in *. lia.
Qed.

(** A field found in a text ends inside the text. *)
Lemma search_field_end :
  forall (U : UnicodeData) (key s g : text) (e : nat),
    search_field U key s = Some (g, e) -> e <= length s.
Proof.
  intros U key. induction s as [|c r IH]; intros g e H;
    cbn [search_field] in H.
  - destruct (strip_prefix (key ++ txt ":") []) as [r0|] eqn:Hp;
      [|discriminate].
    destruct (value_after_ws U r0) as [[k g0]|] eqn:Hv; [|discriminate].
    injection H as <- <-.
    apply strip_prefix_Some in Hp. apply value_after_ws_length in Hv.
    apply (f_equal (@length char)) in Hp.
    rewrite !length_app in Hp. simpl in *. lia.
  - destruct (strip_prefix (key ++ txt ":") (c :: r)) as [r0|] eqn:Hp.
    + destruct (value_after_ws U r0) as [[k g0]|] eqn:Hv.
      * injection H as <- <-.
        apply strip_prefix_Some in Hp. apply value_after_ws_length in Hv.
        apply (f_equal (@length char)) in Hp.
        rewrite !length_app in Hp. simpl in *. lia.
      * destruct (search_field U key r) as [[g' e']|] eqn:Hr; [|discriminate].
        injection H as <- <-. specialize (IH g' e' eq_refl). simpl. lia.
    + destruct (search_field U key r) as [[g' e']|] eqn:Hr; [|discriminate].
      injection H as <- <-. specialize (IH g' e' eq_refl). simpl. lia.
Qed.

Lemma search_model_valid :
  forall (U : UnicodeData) (s m : text),
    search_model U s = Some m -> In m valid_models.
Proof.
  intros U. induction s as [|c r IH]; intros m H; cbn [search_model] in H.
  - destruct (model_at U []) as [m'|] eqn:Hm; [|discriminate].
    discriminate Hm.
  - destruct (model_at U (c :: r)) as [m'|] eqn:Hm; [|apply (IH m H)].
    injection H as <-. unfold model_at in Hm.
    destruct (strip_prefix (txt "model:") (c :: r)); [|discriminate].
    apply first_some_In in Hm. destruct Hm as [x [Hin Hx]].
    destruct (startswith x _); [|discriminate].
    injection Hx as <-. exact Hin.
Qed.

(** X8.  Two tests of the line-scanning validator never fire.  Whenever
    it returns, there is no warning (the model found by its pattern is
    always one of the valid models), and the error "No content after
    frontmatter" is not reported (the text measured includes the closing
    fence): the errors are missing-field errors for [name] or
    [description] only, and the run passes exactly when there is none. *)
Theorem scan_validator_dead_tests :
  forall (U : UnicodeData) (content : text) (ok : bool)
         (errs warns : list ScanMsg),
    validate_agent U (Some content) = Returned ok errs warns ->
    warns = []
    /\ ~ In NoContentAfter errs
    /\ (forall m, In m errs ->
          m = MissingScanField (txt "name")
          \/ m = MissingScanField (txt "description"))
    /\ (scan_frontmatter U content <> None -> ok = is_nil errs).
Proof.
  intros U content ok errs warns H. unfold validate_agent in H.
  destruct (scan_frontmatter U content) as [fm|] eqn:Hfm.
  2:{ injection H as <- <- <-.
      split; [reflexivity|]. split; [intros []|]. split; [intros m []|].
      intros Hn. exfalso. apply Hn. reflexivity. }
  destruct (search_field U (txt "color") fm) as [[g e]|] eqn:Hc;
    [|discriminate].
  assert (Hafter : is_nil (strip U (skipn e content)) = false).
  { apply scan_frontmatter_shape in Hfm. destruct Hfm as [pre [post ->]].
    apply search_field_end in Hc.
    destruct (strip U _) eqn:Hs; [|reflexivity]. exfalso.
    apply strip_nil in Hs. rewrite app_assoc, skipn_app in Hs.
    replace (e - length (pre ++ fm)) with 0 in Hs
      by (rewrite length_app; lia).
    cbn [skipn] in Hs. rewrite forallb_app in Hs.
    apply andb_true_iff in Hs. destruct Hs as [_ Hs]. discriminate Hs. }
  rewrite Hafter in H.
  assert (Hw : match search_model U fm with
               | Some m =>
                   if existsb (text_eqb (strip U m)) valid_models then []
                   else [ModelNotValid (strip U m)]
               | None => []
               end = []).
  { destruct (search_model U fm) as [m|] eqn:Hm; [|reflexivity].
    apply search_model_valid in Hm.
    repeat (destruct Hm as [<-|Hm]; [reflexivity|]). destruct Hm. }
  rewrite Hw in H. injection H as <- <- <-. rewrite app_nil_r.
  split; [reflexivity|].
  assert (Hin : forall m,
             In m ((match search_field U (txt "name") fm with
                    | Some _ => []
                    | None => [MissingScanField (txt "name")]
                    end)
                   ++ (match search_field U (txt "description") fm with
                       | Some _ => []
                       | None => [MissingScanField (txt "description")]
                       end)) ->
             m = MissingScanField (txt "name")
             \/ m = MissingScanField (txt "description")).
  { intros m Hm. apply in_app_or in Hm.
    destruct (search_field U (txt "name") fm);
      destruct (search_field U (txt "description") fm);
      destruct Hm as [Hm|Hm]; simpl in Hm; intuition. }
  split; [|split].
  - intros Hn. destruct (Hin _ Hn); discriminate.
  - exact Hin.
  - intros _. reflexivity.
Qed.

Lemma scan_validator_dead_tests_witness :
  ~ In NoContentAfter [MissingScanField (txt "description")].
Proof.
  apply (proj1 (proj2 (scan_validator_dead_tests ascii_only
                         doc_with_unknown_model false
                         [MissingScanField (txt "description")] []
                         eq_refl))).
Defined.

(* ----------------------------------------------------------------- *)
(** ** The prompts *)

Lemma dropwhile_snoc :
  forall (p : char -> bool) (l : text) (c : char),
    p c = false -> dropwhile p (l ++ [c]) = dropwhile p l ++ [c].
Proof.
  intros p l c Hc. induction l as [|x l IH]; simpl.
  - rewrite Hc. reflexivity.
  - destruct (p x); [exact IH | reflexivity].
Qed.

Lemma rstrip_cons :
  forall (U : UnicodeData) (c : char) (r : text),
    isspace U c = false -> rstrip U (c :: r) = c :: rstrip U r.
Proof.
  intros U c r Hc. unfold rstrip. cbn [rev].
  rewrite (dropwhile_snoc _ _ _ Hc), rev_app_distr. reflexivity.
Qed.







(* ----------------------------------------------------------------- *)
(** ** What [create_command] writes, read by the validator *)

Lemma startswith_app_l :
  forall sub a b : text,
    startswith sub a = true -> startswith sub (a ++ b) = true.
Proof.
  induction sub as [|x sub IH]; intros a b H.
  - reflexivity.
  - destruct a as [|y a]; [discriminate|]. cbn [startswith app] in *.
    apply andb_true_iff in H. destruct H as [H1 H2].
    rewrite H1, (IH a b H2). reflexivity.
Qed.

Lemma contains_app_l :
  forall sub a b : text,
    contains sub a = true -> contains sub (a ++ b) = true.
Proof.
  intros sub. induction a as [|c r IH]; intros b H.
  - cbn [contains] in H. rewrite orb_false_r in H.
    destruct sub; [|discriminate]. destruct b; reflexivity.
  - cbn [contains app] in *. apply orb_true_iff in H.
    apply orb_true_iff. destruct H as [H|H].
    + left. apply (startswith_app_l sub (c :: r) b H).
    + right. apply IH. exact H.
Qed.

Lemma contains_app_r :
  forall sub a b : text,
    contains sub b = true -> contains sub (a ++ b) = true.
Proof.
  intros sub. induction a as [|c r IH]; intros b H.
  - exact H.
  - cbn [contains app]. rewrite (IH b H). apply orb_true_r.
Qed.

Lemma fill_lit_contains :
  forall (sub : text) (kwargs : Dict text) (segs : list Segment) (out : text),
    fill kwargs segs = inr out ->
    lit_contains sub segs = true ->
    contains sub out = true.
Proof.
  intros sub kwargs. induction segs as [|seg segs IH]; intros out Hf Hc.
  - discriminate.
  - unfold lit_contains in Hc. cbn [existsb] in Hc.
    destruct seg as [s|name]; cbn [fill] in Hf.
    + destruct (fill kwargs segs) as [e|out'] eqn:Hr; [discriminate|].
      injection Hf as <-. apply orb_true_iff in Hc. destruct Hc as [Hc|Hc].
      * apply contains_app_l. exact Hc.
      * apply contains_app_r. apply (IH out' eq_refl Hc).
    + destruct (get_value kwargs name) as [e|v]; [discriminate|].
      destruct (fill kwargs segs) as [e|out'] eqn:Hr; [discriminate|].
      injection Hf as <-. apply contains_app_r. apply (IH out' eq_refl Hc).
Qed.

(** What is filled into a command template begins with the title line
    and holds the token and the two sections. *)
Lemma shaped_content :
  forall (t : text) (kwargs : Dict text) (content ti : text),
    command_template_shape t = true ->
    format t kwargs = inr content ->
    dict_get kwargs (txt "title") = Some ti ->
    (exists rest, content = txt "# " ++ ti ++ rest)
    /\ contains ARGUMENTS content = true
    /\ contains (txt "## Task") content = true
    /\ contains (txt "## Process") content = true.
Proof.
  intros t kwargs content ti Hs Hf Ht.
  unfold command_template_shape in Hs. unfold format in Hf.
  destruct (parse_format None t) as [segs err].
  destruct segs as [|[s|] [|[|name] rest]]; try discriminate.
  destruct err; [discriminate|].
  repeat (apply andb_true_iff in Hs; destruct Hs as [Hs ?]).
  apply text_eqb_eq in Hs. subst s.
  match goal with H : text_eqb name _ = true |- _ =>
    apply text_eqb_eq in H; subst name end.
  cbn [fill] in Hf. unfold get_value in Hf.
  change (forallb ascii_isdigit (txt "title")) with false in Hf.
  cbv iota in Hf. rewrite Ht in Hf.
  destruct (fill kwargs rest) as [e|out] eqn:Hr; [discriminate|].
  injection Hf as <-.
  split; [exists out; reflexivity|].
  assert (Hin : forall sub, lit_contains sub rest = true ->
                  contains sub (txt "# " ++ ti ++ out) = true).
  { intros sub Hsub. apply (contains_app_r sub (txt "# ") (ti ++ out)).
    apply (contains_app_r sub ti out).
    apply (fill_lit_contains sub kwargs rest out Hr Hsub). }
  repeat split; apply Hin; assumption.
Qed.

Lemma command_templates_shaped :
  forallb (fun item => command_template_shape (snd item)) COMMAND_TEMPLATES
  = true.
Proof. vm_compute. reflexivity. Qed.

Lemma template_vars_title :
  forall (c : text) (a : CommandAnswers),
    dict_get (template_vars (category_name_of c) a) (txt "title")
    = Some (title a).
Proof.
  intros c a.
  destruct (category_name_cases c) as [H|[H|[H|H]]]; rewrite H; reflexivity.
Qed.

(** The first line of a text that begins with a hash, a space and a
    visible character. *)
Lemma title_line :
  forall (c : char) (r : text),
    (c =? NL)%N = false ->
    exists l ls,
      split_on NL (txt "# " ++ c :: r) = (HASH :: 32%N :: c :: l) :: ls.
Proof.
  intros c r Hc.
  change (txt "# " ++ c :: r) with (HASH :: 32%N :: c :: r).
  cbn [split_on].
  change ((HASH =? NL)%N) with false. change ((32 =? NL)%N) with false.
  rewrite Hc. cbv iota.
  destruct (split_on NL r) as [|l ls] eqn:Hr.
  - exfalso. apply (split_on_nonnil NL r Hr).
  - exists l, ls. reflexivity.
Qed.

Lemma strip_hash_line :
  forall (U : UnicodeData) (r : text),
    strip U (HASH :: r) = HASH :: rstrip U r.
Proof.
  intros U r. unfold strip, lstrip. cbn [dropwhile].
  change (isspace U HASH) with false. cbv iota.
  apply rstrip_cons. reflexivity.
Qed.

Lemma check_process_steps_errors :
  forall (U : UnicodeData) (content : text) (st : State),
    errors (check_process_steps U content st) = errors st.
Proof.
  intros U content st. unfold check_process_steps.
  destruct (process_search U content) as [g|]; [|reflexivity].
  cbv zeta. destruct (numbered_steps U g =? 0); [reflexivity|].
  destruct (numbered_steps U g <? 3); [reflexivity|].
  destruct (10 <? numbered_steps U g); reflexivity.
Qed.

Lemma check_best_practices_errors :
  forall (U : UnicodeData) (content : text) (st : State),
    errors (check_best_practices U content st) = errors st.
Proof.
  intros U content st. unfold check_best_practices. cbv zeta.
  destruct (contains (txt "## Best Practices") content
            || contains (txt "## Best practices") content);
    destruct (has_adaptation U content);
    destruct (0 <? count (txt "```") content); reflexivity.
Qed.

(** A document that begins with a title line and holds the token and the
    two sections, under a kebab-case name, passes every check. *)
Lemma well_shaped_document_passes :
  forall (U : UnicodeData) (name content : text) (c : char) (r : text),
    kebab_match name = true ->
    content = txt "# " ++ c :: r ->
    (c =? NL)%N = false ->
    contains ARGUMENTS content = true ->
    contains (txt "## Task") content = true ->
    contains (txt "## Process") content = true ->
    errors (run_checks U name content init) = [].
Proof.
  intros U name content c r Hk Hcontent Hc Harg Htask Hproc.
  rewrite run_checks_fold.
  destruct (run_appends (checks U name content) init
              (checks_append U name content)) as [He _].
  rewrite He. cbn [errors init app checks flat_map].
  assert (H1 : errors (check_file_naming name init) = []).
  { unfold check_file_naming. rewrite Hk. cbn [negb].
    destruct (50 <? length name); destruct (length name <? 3); reflexivity. }
  assert (H2 : errors (check_content_structure U content init) = []).
  { unfold check_content_structure.
    assert (Hs : is_nil (strip U content) = false).
    { rewrite Hcontent. change (txt "# " ++ c :: r) with (HASH :: 32%N :: c :: r).
      rewrite strip_hash_line. reflexivity. }
    rewrite Hs.
    assert (Ht : has_title content = true).
    { unfold has_title. rewrite Hcontent.
      destruct (title_line c r Hc) as [l [ls ->]]. reflexivity. }
    rewrite Ht. cbn [negb]. destruct (length content <? 100); reflexivity. }
  assert (H3 : errors (check_arguments_placeholder content init) = []).
  { unfold check_arguments_placeholder. rewrite Harg. cbn [negb]. cbv zeta.
    destruct (5 <? count ARGUMENTS content); reflexivity. }
  assert (H4 : errors (check_required_sections content init) = []).
  { unfold check_required_sections, required_sections. cbn [fold_left].
    rewrite Htask, Hproc. reflexivity. }
  assert (H5 : errors (check_heading_structure U content init) = []).
  { pose proof (heading_findings U content init) as H.
    rewrite Hcontent in H. destruct (title_line c r Hc) as [l [ls Hl]].
    rewrite Hl in H. cbn [collect_headings] in H.
    rewrite strip_hash_line in H. cbn [startswith N.eqb] in H.
    change ((HASH =? HASH)%N) with true in H. cbn [andb app] in H.
    destruct H as [H _]. rewrite <- Hcontent in H. exact H. }
  rewrite H1, H2, H3, H4, H5, check_process_steps_errors,
    check_best_practices_errors.
  reflexivity.
Qed.

(** The fill of a command template with the script's variables, under a
    kebab-case name and a title that begins with a visible character,
    passes the validator. *)
Lemma filled_command_passes :
  forall (U : UnicodeData) (name : text) (a : CommandAnswers)
         (content : text),
    fill_command_template (category_name_of (category a))
      (template_vars (category_name_of (category a)) a) = inr content ->
    kebab_match name = true ->
    starts_visible (title a) = true ->
    validate U {| file_exists := true;
                  file_name := name ++ txt ".md";
                  file_text := Some content |}
    = (true, run_checks U name content init)
    /\ errors (run_checks U name content init) = [].
Proof.
  intros U name a content Hfill Hk Hvis.
  assert (Hshape : exists rest,
             content = txt "# " ++ title a ++ rest
             /\ contains ARGUMENTS content = true
             /\ contains (txt "## Task") content = true
             /\ contains (txt "## Process") content = true).
  { unfold fill_command_template in Hfill.
    destruct (dict_get COMMAND_TEMPLATES (category_name_of (category a)))
      as [t|] eqn:Ht; [|discriminate].
    assert (Hs : command_template_shape t = true).
    { apply dict_get_In in Ht.
      pose proof command_templates_shaped as Hall.
      rewrite forallb_forall in Hall. apply (Hall (_, t) Ht). }
    destruct (shaped_content t _ content (title a) Hs Hfill
                (template_vars_title (category a) a))
      as [[rest Hr] [H1 [H2 H3]]].
    exists rest. auto. }
  destruct Hshape as [rest [Hcontent [Harg [Htask Hproc]]]].
  destruct (title a) as [|c t] eqn:Htitle; [discriminate|].
  unfold starts_visible in Hvis. apply negb_true_iff in Hvis.
  assert (Hne : name <> []). { intros ->. discriminate Hk. }
  destruct (md_name_parts name Hne) as [Hsuf Hstem].
  assert (Herr : errors (run_checks U name content init) = []).
  { apply (well_shaped_document_passes U name content c (t ++ rest));
      assumption. }
  split; [|exact Herr].
  unfold validate. cbn [file_exists file_name file_text negb].
  rewrite Hsuf, Hstem, text_eqb_refl. cbn [negb]. rewrite Herr. reflexivity.
Qed.

(** X10.  A command that [create_command] has written passes the command
    validator: when the name is kebab-case for the validator and the
    title begins with a visible character, the file created is named
    after the command, and [validate] on a file of that name and content
    returns true, with no error, whatever the category and the other
    answers. *)
Theorem created_command_passes_validation :
  forall (U : UnicodeData) (E : Env) (name scope : text) (a : CommandAnswers)
         (f : Path) (content : text),
    create_command E name scope a = CommandCreated f content ->
    kebab_match name = true ->
    starts_visible (title a) = true ->
    parent f // (name ++ txt ".md") = f
    /\ validate U {| file_exists := true;
                     file_name := name ++ txt ".md";
                     file_text := Some content |}
       = (true, run_checks U name content init)
    /\ errors (run_checks U name content init) = [].
Proof.
  intros U E name scope a f content Hcreate Hk Hvis.
  unfold create_command in Hcreate.
  destruct (commands_target_dir E scope) as [dir|]; [|discriminate].
  destruct (negb (mkdir_ok a)); [discriminate|].
  destruct (fs_exists E _ && negb _); [discriminate|].
  destruct (fill_command_template (category_name_of (category a)) _)
    as [e|content'] eqn:Hfill; [discriminate|].
  destruct (write_ok a); [|discriminate].
  injection Hcreate as <- <-.
  split; [reflexivity|].
  apply (filled_command_passes U name a content' Hfill Hk Hvis).
Qed.

Lemma created_command_passes_validation_witness :
  exists f content,
    create_command env_nested (txt "optimize-images") (txt "project")
      some_command_answers = CommandCreated f content
    /\ errors (run_checks ascii_only (txt "optimize-images") content init) = [].
Proof.
  destruct (create_command_content some_command_answers) as [content Hc].
  assert (H : create_command env_nested (txt "optimize-images")
                (txt "project") some_command_answers
              = CommandCreated
                  [txt "optimize-images.md"; COMMANDS; DOT_CLAUDE;
                   txt "b"; txt "a"] content).
  { unfold create_command.
    change (commands_target_dir env_nested (txt "project"))
      with (Some (cwd env_nested // DOT_CLAUDE // COMMANDS)).
    cbv iota beta. rewrite Hc. reflexivity. }
  exists [txt "optimize-images.md"; COMMANDS; DOT_CLAUDE; txt "b"; txt "a"],
    content.
  split; [exact H|].
  apply (created_command_passes_validation ascii_only env_nested
           (txt "optimize-images") (txt "project") some_command_answers
           _ content H eq_refl eq_refl).
Defined.

(* ----------------------------------------------------------------- *)
(** ** [create_command] at the terminal *)








(* ----------------------------------------------------------------- *)
(** ** What [create_agent] writes, read by the agent validator *)

Lemma agent_template_shaped : agent_template_shape AGENT_TEMPLATE = true.
Proof. vm_compute. reflexivity. Qed.

Lemma startswith_contains :
  forall sub s : text, startswith sub s = true -> contains sub s = true.
Proof.
  intros sub s H. destruct s; cbn [contains]; rewrite H; reflexivity.
Qed.

(** An ASCII stretch is put in lower case character by character,
    whatever stands around it. *)
Lemma lower_from_ascii :
  forall (U : UnicodeData) (w before rest : text),
    forallb is_ascii w = true ->
    lower_from U before (w ++ rest)
    = map ascii_lower w ++ lower_from U (rev w ++ before) rest.
Proof.
  intros U. induction w as [|c w IH]; intros before rest H.
  - reflexivity.
  - cbn [forallb] in H. apply andb_true_iff in H. destruct H as [Hc Hw].
    cbn [app lower_from map rev]. rewrite Hc. cbn [app].
    rewrite (IH (c :: before) rest Hw), <- app_assoc. reflexivity.
Qed.

Lemma lower_from_contains_r :
  forall (U : UnicodeData) (sub x y : text),
    (forall before, contains sub (lower_from U before y) = true) ->
    forall before, contains sub (lower_from U before (x ++ y)) = true.
Proof.
  intros U sub. induction x as [|c x IH]; intros y Hy before.
  - apply Hy.
  - cbn [app lower_from]. apply contains_app_r. apply IH. exact Hy.
Qed.

Lemma lowers_to_contains :
  forall (U : UnicodeData) (sub s y before : text),
    any_suffix (lowers_to sub) s = true ->
    contains sub (lower_from U before (s ++ y)) = true.
Proof.
  intros U sub. induction s as [|c r IH]; intros y before H;
    cbn [any_suffix] in H; apply orb_true_iff in H.
  - destruct H as [H|H]; [|discriminate].
    unfold lowers_to in H. rewrite firstn_nil in H.
    apply andb_true_iff in H. destruct H as [_ H].
    apply text_eqb_eq in H. simpl in H. subst sub.
    destruct (lower_from U before ([] ++ y)); reflexivity.
  - destruct H as [H|H].
    + unfold lowers_to in H. apply andb_true_iff in H. destruct H as [Ha He].
      apply text_eqb_eq in He.
      rewrite <- (firstn_skipn (length sub) (c :: r)), <- app_assoc.
      rewrite (lower_from_ascii U _ before _ Ha), He.
      apply startswith_contains. apply startswith_app.
    + cbn [app lower_from]. apply contains_app_r. apply IH. exact H.
Qed.

Lemma fill_lit_lower_contains :
  forall (U : UnicodeData) (sub : text) (kwargs : Dict text)
         (segs : list Segment) (out : text),
    fill kwargs segs = inr out ->
    lit_lower_contains sub segs = true ->
    forall before, contains sub (lower_from U before out) = true.
Proof.
  intros U sub kwargs. induction segs as [|seg segs IH]; intros out Hf Hc.
  - discriminate.
  - unfold lit_lower_contains in Hc. cbn [existsb] in Hc.
    destruct seg as [s|name]; cbn [fill] in Hf.
    + destruct (fill kwargs segs) as [e|out'] eqn:Hr; [discriminate|].
      injection Hf as <-. apply orb_true_iff in Hc. destruct Hc as [Hc|Hc].
      * intros before. apply lowers_to_contains. exact Hc.
      * apply lower_from_contains_r. apply (IH out' eq_refl Hc).
    + destruct (get_value kwargs name) as [e|v]; [discriminate|].
      destruct (fill kwargs segs) as [e|out'] eqn:Hr; [discriminate|].
      injection Hf as <-.
      apply lower_from_contains_r. apply (IH out' eq_refl Hc).
Qed.

Lemma fence_free_app :
  forall x y : text,
    forallb not_nl x = true -> fence_free y = true ->
    fence_free (x ++ y) = true.
Proof.
  induction x as [|c x IH]; intros y Hx Hy.
  - exact Hy.
  - cbn [forallb] in Hx. apply andb_true_iff in Hx. destruct Hx as [Hc Hx].
    unfold not_nl in Hc. apply negb_true_iff in Hc.
    cbn [app fence_free]. rewrite Hc, (IH y Hx Hy). reflexivity.
Qed.

Lemma span_run :
  forall (p : char -> bool) (x y : text),
    forallb p x = true ->
    match y with c :: _ => p c = false | [] => True end ->
    span p (x ++ y) = (x, y).
Proof.
  intros p. induction x as [|c x IH]; intros y Hx Hy.
  - destruct y as [|c y]; [reflexivity|]. cbn [app span]. rewrite Hy.
    reflexivity.
  - cbn [forallb] in Hx. apply andb_true_iff in Hx. destruct Hx as [Hc Hx].
    cbn [app span]. rewrite Hc, (IH y Hx Hy). reflexivity.
Qed.

(** What is filled into the agent template: the frontmatter, the
    identity statement, and a rest that holds the words of the pattern. *)
Lemma shaped_agent_content :
  forall (U : UnicodeData) (t : text) (kwargs : Dict text)
         (content n d c r : text),
    agent_template_shape t = true ->
    format t kwargs = inr content ->
    dict_get kwargs (txt "name") = Some n ->
    dict_get kwargs (txt "description") = Some d ->
    dict_get kwargs (txt "color") = Some c ->
    dict_get kwargs (txt "role") = Some r ->
    exists rest,
      content = (FENCE ++ NL :: txt "name: ") ++ n
                ++ (NL :: txt "description: ") ++ d
                ++ (NL :: txt "color: ") ++ c
                ++ (NL :: FENCE ++ NL :: NL :: txt "You are the **") ++ r
                ++ rest
      /\ startswith (txt "**") rest = true
      /\ Forall (fun k => contains k rest = true)
           [txt "Principles"; txt "Workflow"; txt "**Input"; txt "**Output";
            txt "Quality"; txt "If"; txt "rather than"]
      /\ Forall (fun k => forall before,
                          contains k (lower_from U before rest) = true)
           [txt "hard-to-vary"; txt "popper"; txt "kiss"].
Proof.
  intros U t kwargs content n d c r Hs Hf Hn Hd Hc Hr.
  unfold agent_template_shape in Hs. unfold format in Hf.
  destruct (parse_format None t) as [segs err].
  destruct segs as [|[l1|] [|[|f1] [|[l2|] [|[|f2] [|[l3|] [|[|f3]
    [|[l4|] [|[|f4] [|[l5|] rest]]]]]]]]]; try discriminate.
  destruct err; [discriminate|].
  repeat (apply andb_true_iff in Hs; destruct Hs as [Hs ?]).
  repeat match goal with
         | H : text_eqb _ _ = true |- _ => apply text_eqb_eq in H
         end.
  subst l1 f1 l2 f2 l3 f3 l4 f4.
  cbn [fill] in Hf. unfold get_value in Hf.
  change (forallb ascii_isdigit (txt "name")) with false in Hf.
  change (forallb ascii_isdigit (txt "description")) with false in Hf.
  change (forallb ascii_isdigit (txt "color")) with false in Hf.
  change (forallb ascii_isdigit (txt "role")) with false in Hf.
  cbv iota in Hf. rewrite Hn, Hd, Hc, Hr in Hf.
  destruct (fill kwargs rest) as [e|out] eqn:Hrest; [discriminate|].
  injection Hf as <-.
  assert (Hfill : fill kwargs (Lit l5 :: rest) = inr (l5 ++ out)).
  { cbn [fill]. rewrite Hrest. reflexivity. }
  exists (l5 ++ out). split; [|split; [|split]].
  - rewrite <- !app_assoc. reflexivity.
  - apply startswith_app_l. assumption.
  - match goal with
    | H : forallb (fun k => lit_contains k _) _ = true |- _ =>
        rewrite forallb_forall in H; apply Forall_forall; intros k Hk;
        apply (fill_lit_contains k kwargs _ _ Hfill (H k Hk))
    end.
  - match goal with
    | H : forallb (fun k => lit_lower_contains k _) _ = true |- _ =>
        rewrite forallb_forall in H; apply Forall_forall; intros k Hk;
        apply (fill_lit_lower_contains U k kwargs _ _ Hfill (H k Hk))
    end.
Qed.

Lemma any_suffix_here :
  forall (p : text -> bool) (s : text), p s = true -> any_suffix p s = true.
Proof.
  intros p s H. destruct s; cbn [any_suffix]; rewrite H; reflexivity.
Qed.

Lemma fence_free_nl_free :
  forall x : text, forallb not_nl x = true -> fence_free x = true.
Proof.
  intros x H. rewrite <- (app_nil_r x). apply fence_free_app;
    [exact H | reflexivity].
Qed.

(** The frontmatter that [create_agent] writes, for values on one line
    each, is cut off at its own closing fence. *)
Lemma line_chars_not_nl :
  forall s : text, forallb line_char s = true -> forallb not_nl s = true.
Proof.
  intros s H. rewrite forallb_forall in *. intros c Hc.
  specialize (H c Hc). unfold line_char in H.
  apply andb_true_iff in H. destruct H as [H _]. exact H.
Qed.

Lemma agent_frontmatter_found :
  forall n d c y : text,
    forallb not_nl n = true ->
    forallb not_nl d = true ->
    forallb not_nl c = true ->
    frontmatter_match
      ((FENCE ++ NL :: txt "name: ") ++ n
       ++ (NL :: txt "description: ") ++ d
       ++ (NL :: txt "color: ") ++ c
       ++ (NL :: FENCE ++ NL :: y))
    = Some (txt "name: " ++ n ++ NL :: txt "description: " ++ d
              ++ NL :: txt "color: " ++ c, y).
Proof.
  intros n d c y Hn Hd Hc.
  set (p := txt "name: " ++ n ++ NL :: txt "description: " ++ d
              ++ NL :: txt "color: " ++ c).
  assert (Heq : (FENCE ++ NL :: txt "name: ") ++ n
                ++ (NL :: txt "description: ") ++ d
                ++ (NL :: txt "color: ") ++ c
                ++ (NL :: FENCE ++ NL :: y)
                = (FENCE ++ [NL]) ++ (p ++ NL :: FENCE ++ NL :: y)).
  { subst p. simpl. repeat (rewrite <- app_assoc; simpl). reflexivity. }
  rewrite Heq. unfold frontmatter_match. rewrite strip_prefix_app.
  apply split_first_fence. subst p.
  apply (fence_free_app (txt "name: " ++ n)).
  { rewrite forallb_app, Hn. reflexivity. }
  change (fence_free (NL :: 100%N :: (txt "escription: " ++ d)
                        ++ (NL :: 99%N :: txt "olor: " ++ c)) = true).
  cbn [fence_free]. rewrite N.eqb_refl.
  change ((100 =? HYPHEN)%N) with false. change ((100 =? NL)%N) with false.
  cbn [negb andb].
  apply (fence_free_app (txt "escription: " ++ d)).
  { rewrite forallb_app, Hd. reflexivity. }
  cbn [fence_free]. rewrite N.eqb_refl.
  change ((99 =? HYPHEN)%N) with false. change ((99 =? NL)%N) with false.
  cbn [negb andb].
  apply (fence_free_app (txt "olor: ") c); [reflexivity|].
  apply fence_free_nl_free. exact Hc.
Qed.

(** X12.  An agent that [create_agent] has written follows the pattern
    that the YAML validator checks.  When the name, the description and
    the color hold no line end (no line feed, and no carriage return,
    which the validator would read as a line feed), the frontmatter
    pattern of the validator splits the file at the fences written by the
    template, into the three fields and a body; in that body every
    section and every word that the pattern checks look for is there, so
    that the one body warning possible is the one on the identity
    statement; and there is none when the role is not empty and is made
    of word characters, white space and hyphens. *)
Theorem created_agent_follows_pattern :
  forall (U : UnicodeData) (E : Env) (name scope : text) (a : AgentAnswers)
         (f : Path) (content : text),
    create_agent E name scope a = AgentCreated f content ->
    forallb line_char name = true ->
    forallb line_char (description a) = true ->
    forallb line_char (color a) = true ->
    exists body,
      frontmatter_match content
      = Some (txt "name: " ++ name ++ NL :: txt "description: "
                ++ description a ++ NL :: txt "color: " ++ color a, body)
      /\ body_warnings U body
         = (if has_identity U body then [] else [MissingIdentity])
      /\ (role a <> [] -> forallb (identity_class U) (role a) = true ->
          body_warnings U body = []).
Proof.
  intros U E name scope a f content Hcreate Hn Hd Hc.
  apply line_chars_not_nl in Hn, Hd, Hc.
  unfold create_agent in Hcreate.
  destruct (format AGENT_TEMPLATE (agent_kwargs name a)) as [e|content']
    eqn:Hf; [discriminate|].
  destruct (agents_target_dir E scope); [discriminate|].
  injection Hcreate as _ <-.
  destruct (shaped_agent_content U AGENT_TEMPLATE (agent_kwargs name a)
              content' name (description a) (color a) (role a)
              agent_template_shaped Hf eq_refl eq_refl eq_refl eq_refl)
    as [rest [Hcontent [Hstars [Hk Hl]]]].
  set (pre := NL :: txt "You are the **" ++ role a).
  exists (pre ++ rest).
  assert (Hbody : content'
                  = (FENCE ++ NL :: txt "name: ") ++ name
                    ++ (NL :: txt "description: ") ++ description a
                    ++ (NL :: txt "color: ") ++ color a
                    ++ (NL :: FENCE ++ NL :: pre ++ rest)).
  { rewrite Hcontent. subst pre. simpl.
    repeat (rewrite <- app_assoc; simpl). reflexivity. }
  rewrite Forall_forall in Hk, Hl.
  assert (Kc : forall k,
             In k [txt "Principles"; txt "Workflow"; txt "**Input";
                   txt "**Output"; txt "Quality"; txt "If";
                   txt "rather than"] ->
             contains k (pre ++ rest) = true).
  { intros k Hin. apply contains_app_r. apply (Hk k Hin). }
  assert (Kl : forall k,
             In k [txt "hard-to-vary"; txt "popper"; txt "kiss"] ->
             contains k (lower U (pre ++ rest)) = true).
  { intros k Hin. unfold lower. apply lower_from_contains_r.
    apply (Hl k Hin). }
  assert (Hw : body_warnings U (pre ++ rest)
               = (if has_identity U (pre ++ rest) then []
                  else [MissingIdentity])).
  { unfold body_warnings. cbn [existsb].
    rewrite (Kc (txt "Principles")) by (simpl; auto 10).
    rewrite (Kc (txt "Workflow")) by (simpl; auto 10).
    rewrite (Kc (txt "**Input")) by (simpl; auto 10).
    rewrite (Kc (txt "**Output")) by (simpl; auto 10).
    rewrite (Kc (txt "Quality")) by (simpl; auto 10).
    rewrite (Kc (txt "If")) by (simpl; auto 10).
    rewrite (Kc (txt "rather than")) by (simpl; auto 10).
    rewrite (Kl (txt "hard-to-vary")) by (simpl; auto 10).
    rewrite (Kl (txt "popper")) by (simpl; auto 10).
    rewrite (Kl (txt "kiss")) by (simpl; auto 10).
    cbn [orb andb warn_unless app]. unfold warn_unless.
    destruct (has_identity U (pre ++ rest)); reflexivity. }
  split; [|split].
  - rewrite Hbody. apply agent_frontmatter_found; assumption.
  - exact Hw.
  - intros Hrole Hclass. rewrite Hw.
    assert (Hid : has_identity U (pre ++ rest) = true).
    { unfold has_identity. subst pre. cbn [app any_suffix].
      apply orb_true_iff. right. apply any_suffix_here.
      unfold identity_at. rewrite <- app_assoc, strip_prefix_app.
      apply startswith_true in Hstars. destruct Hstars as [rest' ->].
      rewrite (span_run (identity_class U) (role a) (txt "**" ++ rest')
                 Hclass) by reflexivity.
      destruct (role a); [contradiction|]. reflexivity. }
    rewrite Hid. reflexivity.
Qed.

Lemma created_agent_follows_pattern_witness :
  exists f content body,
    create_agent env_nested (txt "planner") (txt "user") some_agent_answers
    = AgentCreated f content
    /\ frontmatter_match content
       = Some (txt "name: planner
description: Plans the work
color: blue", body)
    /\ body_warnings ascii_only body = [].
Proof.
  destruct (create_agent_content (txt "planner") some_agent_answers)
    as [content Hc].
  assert (H : create_agent env_nested (txt "planner") (txt "user")
                some_agent_answers
              = AgentCreated [txt "planner.md"; AGENTS; DOT_CLAUDE;
                              txt "u"; txt "home"] content).
  { unfold create_agent. rewrite Hc. reflexivity. }
  destruct (created_agent_follows_pattern ascii_only env_nested
              (txt "planner") (txt "user") some_agent_answers _ content H
              eq_refl eq_refl eq_refl) as [body [Hm [_ Hw]]].
  exists [txt "planner.md"; AGENTS; DOT_CLAUDE; txt "u"; txt "home"],
    content, body.
  split; [exact H|]. split; [exact Hm|].
  apply Hw; [discriminate | reflexivity].
Defined.

(* ----------------------------------------------------------------- *)
(** ** [create_agent] at the terminal *)



(* ----------------------------------------------------------------- *)
(** ** The default title *)

Lemma untitle_app :
  forall a b : text, untitle (a ++ b) = untitle a ++ untitle b.
Proof. intros a b. unfold untitle. apply map_app. Qed.

Lemma kebab_char_cases :
  forall c : char,
    kebab_char c = true ->
    is_ascii c = true
    /\ (ascii_lower (ascii_upper c) =? 32)%N = false
    /\ ascii_lower (ascii_upper c) = c
    /\ (ascii_lower c =? 32)%N = false
    /\ ascii_lower c = c.
Proof.
  intros c H.
  destruct (kebab_char_true ascii_only c H) as [Ha _].
  split; [exact Ha|].
  unfold kebab_char, between in H.
  unfold ascii_lower, ascii_upper, ascii_islower, ascii_isupper, between.
  apply orb_true_iff in H.
  destruct H as [H|H]; apply andb_true_iff in H; destruct H as [H1 H2];
    apply N.leb_le in H1, H2.
  - replace ((97 <=? c)%N && (c <=? 122)%N) with true
      by (symmetry; apply andb_true_iff; split; apply N.leb_le; lia).
    replace ((65 <=? c - 32)%N && (c - 32 <=? 90)%N) with true
      by (symmetry; apply andb_true_iff; split; apply N.leb_le; lia).
    replace ((65 <=? c)%N && (c <=? 90)%N) with false
      by (symmetry; apply andb_false_iff; right; apply N.leb_gt; lia).
    replace (c - 32 + 32)%N with c by lia.
    repeat split; try reflexivity; apply N.eqb_neq; lia.
  - replace ((97 <=? c)%N && (c <=? 122)%N) with false
      by (symmetry; apply andb_false_iff; left; apply N.leb_gt; lia).
    replace ((65 <=? c)%N && (c <=? 90)%N) with false
      by (symmetry; apply andb_false_iff; left; apply N.leb_gt; lia).
    repeat split; try reflexivity; apply N.eqb_neq; lia.
Qed.

Lemma untitle_lower_word :
  forall w : text,
    forallb kebab_char w = true -> untitle (map ascii_lower w) = w.
Proof.
  induction w as [|c w IH]; intros H.
  - reflexivity.
  - cbn [forallb] in H. apply andb_true_iff in H. destruct H as [Hc Hw].
    destruct (kebab_char_cases c Hc) as [_ [_ [_ [H1 H2]]]].
    unfold untitle in *. cbn [map]. rewrite H1, !H2, (IH Hw).
    reflexivity.
Qed.

(** A word of [[a-z0-9]] comes back from its capitalized form. *)
Lemma untitle_capitalize :
  forall (cap : text -> text) (w : text),
    forallb kebab_char w = true -> untitle (capitalize cap w) = w.
Proof.
  intros cap w H. unfold capitalize.
  assert (Ha : forallb is_ascii w = true).
  { rewrite forallb_forall in *. intros c Hc.
    apply (kebab_char_cases c (H c Hc)). }
  rewrite Ha. destruct w as [|c w]; [reflexivity|].
  cbn [forallb] in H. apply andb_true_iff in H. destruct H as [Hc Hw].
  destruct (kebab_char_cases c Hc) as [_ [H1 [H2 _]]].
  change (untitle (ascii_upper c :: map ascii_lower w))
    with ((if (ascii_upper c =? 32)%N then HYPHEN
           else ascii_lower (ascii_upper c))
          :: untitle (map ascii_lower w)).
  rewrite (untitle_lower_word w Hw), H2.
  destruct (N.eqb_spec (ascii_upper c) 32) as [He|]; [|reflexivity].
  exfalso. rewrite He in H2. vm_compute in H2. subst c. discriminate Hc.
Qed.

Lemma untitle_join :
  forall (cap : text -> text) (ws : list text),
    Forall (fun w => forallb kebab_char w = true) ws ->
    untitle (join [32%N] (map (capitalize cap) ws)) = join [HYPHEN] ws.
Proof.
  intros cap. induction ws as [|w ws IH]; intros H.
  - reflexivity.
  - inversion H as [|? ? Hw Hws]; subst. specialize (IH Hws).
    destruct ws as [|w' ws'].
    + cbn [map join]. apply untitle_capitalize. exact Hw.
    + cbn [map join] in *. rewrite !untitle_app, IH.
      rewrite (untitle_capitalize cap w Hw). reflexivity.
Qed.

(** X14.  The default title keeps the command name: for a name made of
    the characters [[a-z0-9]] and hyphens, the title that
    [title_case_command_name] builds, put back in lower case with a
    hyphen for every blank, is the name; its length is that of the
    name. *)
Theorem title_case_keeps_name :
  forall (cap : text -> text) (name : text),
    forallb name_char name = true ->
    untitle (title_case_command_name cap name) = name
    /\ length (title_case_command_name cap name) = length name.
Proof.
  intros cap name H.
  assert (Hu : untitle (title_case_command_name cap name) = name).
  { unfold title_case_command_name.
    rewrite untitle_join; [apply join_split|].
    pose proof (split_on_words HYPHEN name) as Hw.
    pose proof (split_on_blank name_char HYPHEN name H) as Hn.
    rewrite Forall_forall in *. intros w Hin.
    specialize (Hw w Hin). specialize (Hn w Hin).
    rewrite forallb_forall in *. intros c Hc.
    specialize (Hw c Hc). specialize (Hn c Hc).
    unfold name_char in Hn. apply negb_true_iff in Hw. rewrite Hw in Hn.
    rewrite orb_false_r in Hn. exact Hn. }
  split; [exact Hu|].
  rewrite <- Hu at 2. unfold untitle. rewrite length_map. reflexivity.
Qed.

Lemma title_case_keeps_name_witness :
  title_case_command_name (fun w => w) (txt "optimize-images")
  = txt "Optimize Images"
  /\ untitle (title_case_command_name (fun w => w) (txt "optimize-images"))
     = txt "optimize-images".
Proof.
  split; [reflexivity|].
  apply (proj1 (title_case_keeps_name (fun w => w) (txt "optimize-images")
                  eq_refl)).
Defined.

(* ----------------------------------------------------------------- *)
(** ** The warnings that a created command can get *)

Lemma fill_lit_length :
  forall (kwargs : Dict text) (segs : list Segment) (out : text),
    fill kwargs segs = inr out -> lit_length segs <= length out.
Proof.
  intros kwargs. induction segs as [|seg segs IH]; intros out Hf.
  - simpl. lia.
  - destruct seg as [s|name]; cbn [fill lit_length] in *.
    + destruct (fill kwargs segs) as [e|out'] eqn:Hr; [discriminate|].
      injection Hf as <-. specialize (IH out' eq_refl).
      rewrite length_app. lia.
    + destruct (get_value kwargs name) as [e|v]; [discriminate|].
      destruct (fill kwargs segs) as [e|out'] eqn:Hr; [discriminate|].
      injection Hf as <-. specialize (IH out' eq_refl).
      rewrite length_app. lia.
Qed.

Lemma istrip_prefix_app :
  forall (U : UnicodeData) (p s r y : text),
    istrip_prefix U p s = Some r ->
    istrip_prefix U p (s ++ y) = Some (r ++ y).
Proof.
  intros U. induction p as [|x p IH]; intros s r y H.
  - cbn [istrip_prefix] in *. injection H as <-. reflexivity.
  - destruct s as [|c s]; cbn [istrip_prefix app] in *; [discriminate|].
    destruct (ichar U x c); [|discriminate]. apply IH. exact H.
Qed.

Lemma istartswith_app :
  forall (U : UnicodeData) (p s y : text),
    istartswith U p s = true -> istartswith U p (s ++ y) = true.
Proof.
  intros U p s y H. unfold istartswith in *.
  destruct (istrip_prefix U p s) as [r|] eqn:Hr; [|discriminate].
  rewrite (istrip_prefix_app U p s r y Hr). reflexivity.
Qed.

Lemma any_suffix_app_r :
  forall (p : text -> bool) (x y : text),
    any_suffix p y = true -> any_suffix p (x ++ y) = true.
Proof.
  intros p. induction x as [|c x IH]; intros y H.
  - exact H.
  - cbn [app any_suffix]. rewrite (IH y H). apply orb_true_r.
Qed.

Lemma any_suffix_istartswith_app_l :
  forall (U : UnicodeData) (pat s y : text),
    any_suffix (istartswith U pat) s = true ->
    any_suffix (istartswith U pat) (s ++ y) = true.
Proof.
  intros U pat. induction s as [|c s IH]; intros y H;
    cbn [any_suffix] in H; apply orb_true_iff in H.
  - destruct H as [H|H]; [|discriminate].
    apply any_suffix_here. apply (istartswith_app U pat [] y H).
  - cbn [app any_suffix]. apply orb_true_iff. destruct H as [H|H].
    + left. apply (istartswith_app U pat (c :: s) y H).
    + right. apply IH. exact H.
Qed.

Lemma fill_lit_icontains :
  forall (U : UnicodeData) (pat : text) (kwargs : Dict text)
         (segs : list Segment) (out : text),
    fill kwargs segs = inr out ->
    lit_icontains U pat segs = true ->
    any_suffix (istartswith U pat) out = true.
Proof.
  intros U pat kwargs. induction segs as [|seg segs IH]; intros out Hf Hc.
  - discriminate.
  - unfold lit_icontains in Hc. cbn [existsb] in Hc.
    destruct seg as [s|name]; cbn [fill] in Hf.
    + destruct (fill kwargs segs) as [e|out'] eqn:Hr; [discriminate|].
      injection Hf as <-. apply orb_true_iff in Hc. destruct Hc as [Hc|Hc].
      * apply any_suffix_istartswith_app_l. exact Hc.
      * apply any_suffix_app_r. apply (IH out' eq_refl Hc).
    + destruct (get_value kwargs name) as [e|v]; [discriminate|].
      destruct (fill kwargs segs) as [e|out'] eqn:Hr; [discriminate|].
      injection Hf as <-. apply any_suffix_app_r. apply (IH out' eq_refl Hc).
Qed.

Lemma command_templates_recommended :
  forall U : UnicodeData,
    forallb (fun item => command_template_recommended U (snd item))
      COMMAND_TEMPLATES = true.
Proof. intros U. vm_compute. reflexivity. Qed.

Lemma spec_jumps_kind :
  forall (rest : list Heading) (prev : Heading) (m : Msg),
    In m (spec_jumps prev rest) -> answer_dependent m = true.
Proof.
  induction rest as [|h rest IH]; intros prev m H; cbn [spec_jumps] in H.
  - destruct H.
  - apply in_app_or in H. destruct H as [H|H]; [|apply (IH h m H)].
    destruct (_ <? _); [|destruct H].
    destruct H as [<-|[]]. reflexivity.
Qed.

(** The warnings of the checks that do not look at the shape of the
    document. *)
Lemma name_and_step_warnings :
  forall (U : UnicodeData) (name content : text) (m : Msg),
    In m (warnings (check_file_naming name init))
    \/ In m (warnings (check_arguments_placeholder content init))
    \/ In m (warnings (check_required_sections content init))
    \/ In m (warnings (check_process_steps U content init)) ->
    answer_dependent m = true.
Proof.
  intros U name content m [H|[H|[H|H]]].
  - unfold check_file_naming in H.
    destruct (negb (kebab_match name)); destruct (50 <? length name);
      destruct (length name <? 3); cbn in H;
      intuition (subst; reflexivity).
  - unfold check_arguments_placeholder in H.
    destruct (negb (contains ARGUMENTS content)); [destruct H|].
    cbv zeta in H. destruct (5 <? count ARGUMENTS content); cbn in H;
      intuition (subst; reflexivity).
  - unfold check_required_sections, required_sections in H.
    cbn [fold_left] in H.
    destruct (negb (contains (txt "## Task") content));
      destruct (negb (contains (txt "## Process") content));
      cbn in H; destruct H.
  - unfold check_process_steps in H.
    destruct (process_search U content) as [g|]; [|destruct H].
    cbv zeta in H. destruct (numbered_steps U g =? 0);
      [cbn in H; intuition (subst; reflexivity)|].
    destruct (numbered_steps U g <? 3);
      [cbn in H; intuition (subst; reflexivity)|].
    destruct (10 <? numbered_steps U g); cbn in H;
      intuition (subst; reflexivity).
Qed.

(** X15.  The warnings that a command written by [create_command] can
    get are those that depend on the name and on the answers: the length
    of the name, the number of placeholders, jumps between headings and
    the number of steps.  The validator never finds its content short,
    its first heading other than a title, its best-practices section
    missing or its adaptation statement missing, whatever the category
    and the answers, provided the title begins with a visible
    character. *)
Theorem created_command_warnings :
  forall (U : UnicodeData) (E : Env) (name scope : text) (a : CommandAnswers)
         (f : Path) (content : text),
    create_command E name scope a = CommandCreated f content ->
    starts_visible (title a) = true ->
    (forall m, In m (warnings (run_checks U name content init)) ->
               answer_dependent m = true)
    /\ In HasBestPractices (info (run_checks U name content init))
    /\ In HasAdaptation (info (run_checks U name content init)).
Proof.
  intros U E name scope a f content Hcreate Hvis.
  unfold create_command in Hcreate.
  destruct (commands_target_dir E scope) as [dir|]; [|discriminate].
  destruct (negb (mkdir_ok a)); [discriminate|].
  destruct (fs_exists E _ && negb _); [discriminate|].
  destruct (fill_command_template (category_name_of (category a)) _)
    as [e|content'] eqn:Hfill; [discriminate|].
  destruct (write_ok a); [|discriminate].
  injection Hcreate as _ <-.
  unfold fill_command_template in Hfill.
  destruct (dict_get COMMAND_TEMPLATES (category_name_of (category a)))
    as [t|] eqn:Ht; [|discriminate].
  apply dict_get_In in Ht.
  assert (Hs : command_template_shape t = true).
  { pose proof command_templates_shaped as Hall.
    rewrite forallb_forall in Hall. apply (Hall (_, t) Ht). }
  assert (Hr : command_template_recommended U t = true).
  { pose proof (command_templates_recommended U) as Hall.
    rewrite forallb_forall in Hall. apply (Hall (_, t) Ht). }
  destruct (shaped_content t _ content' (title a) Hs Hfill
              (template_vars_title (category a) a)) as [[rest Hc] _].
  assert (Hrec : 100 <= length content'
                 /\ contains (txt "## Best Practices") content' = true
                 /\ has_adaptation U content' = true).
  { unfold command_template_recommended in Hr. unfold format in Hfill.
    destruct (parse_format None t) as [segs [err|]]; [discriminate|].
    destruct (fill (template_vars (category_name_of (category a)) a) segs)
      as [e|out] eqn:Hout; [discriminate|].
    injection Hfill as <-.
    apply andb_true_iff in Hr. destruct Hr as [Hr H3].
    apply andb_true_iff in Hr. destruct Hr as [H1 H2].
    apply Nat.leb_le in H1. split; [|split].
    - pose proof (fill_lit_length _ segs out Hout). lia.
    - apply (fill_lit_contains _ _ segs out Hout H2).
    - unfold has_adaptation.
      rewrite (fill_lit_icontains U _ _ segs out Hout H3). reflexivity. }
  destruct Hrec as [Hlen [Hbest Hadapt]].
  destruct (title a) as [|c ti] eqn:Htitle; [discriminate|].
  unfold starts_visible in Hvis. apply negb_true_iff in Hvis.
  assert (Hc' : content' = txt "# " ++ c :: (ti ++ rest)) by exact Hc.
  clear Hc.
  assert (W2 : warnings (check_content_structure U content' init) = []).
  { unfold check_content_structure.
    assert (Hstrip : is_nil (strip U content') = false).
    { rewrite Hc'.
      change (txt "# " ++ c :: ti ++ rest) with (HASH :: 32%N :: c :: ti ++ rest).
      rewrite strip_hash_line. reflexivity. }
    rewrite Hstrip.
    replace (length content' <? 100) with false
      by (symmetry; apply Nat.ltb_ge; exact Hlen).
    destruct (negb (has_title content')); reflexivity. }
  assert (W5 : forall m,
             In m (warnings (check_heading_structure U content' init)) ->
             answer_dependent m = true).
  { intros m Hm. pose proof (heading_findings U content' init) as H.
    rewrite Hc' in H. destruct (title_line c (ti ++ rest) Hvis)
      as [l [ls Hl]].
    rewrite Hl in H. cbn [collect_headings] in H.
    rewrite strip_hash_line in H. cbn [startswith] in H.
    change ((HASH =? HASH)%N) with true in H. cbn [andb app] in H.
    destruct H as [_ [Hw _]]. rewrite <- Hc' in Hw. rewrite Hw in Hm.
    cbn [warnings init app h_level fst] in Hm.
    assert (Hlevel : length (HASH :: 32%N :: c :: l)
                     - length (lstrip_char HASH (HASH :: 32%N :: c :: l))
                     = 1).
    { unfold lstrip_char. cbn [dropwhile].
      change ((HASH =? HASH)%N) with true. change ((32 =? HASH)%N) with false.
      cbv iota. cbn [length]. lia. }
    rewrite Hlevel in Hm. cbn [Nat.eqb app] in Hm.
    apply (spec_jumps_kind _ _ m Hm). }
  assert (W7 : warnings (check_best_practices U content' init) = []
               /\ In HasBestPractices
                    (info (check_best_practices U content' init))
               /\ In HasAdaptation
                    (info (check_best_practices U content' init))).
  { unfold check_best_practices. cbv zeta. rewrite Hbest, Hadapt.
    cbn [orb]. destruct (0 <? count (txt "```") content'); cbn; auto. }
  destruct W7 as [W7 [I1 I2]].
  rewrite run_checks_fold.
  destruct (run_appends (checks U name content') init
              (checks_append U name content')) as [_ [Hw Hi]].
  rewrite Hw, Hi. cbn [warnings info init app checks flat_map].
  split; [|split].
  - intros m Hm. rewrite W2, W7, app_nil_r in Hm. cbn [app] in Hm.
    repeat (apply in_app_or in Hm; destruct Hm as [Hm|Hm]);
      try (apply (W5 m Hm));
      apply (name_and_step_warnings U name content' m); tauto.
  - do 6 (apply in_or_app; right). apply in_or_app. left. exact I1.
  - do 6 (apply in_or_app; right). apply in_or_app. left. exact I2.
Qed.

Lemma created_command_warnings_witness :
  exists f content,
    create_command env_nested (txt "optimize-images") (txt "project")
      some_command_answers = CommandCreated f content
    /\ In HasAdaptation
         (info (run_checks ascii_only (txt "optimize-images") content init)).
Proof.
  destruct (create_command_content some_command_answers) as [content Hc].
  assert (H : create_command env_nested (txt "optimize-images")
                (txt "project") some_command_answers
              = CommandCreated
                  [txt "optimize-images.md"; COMMANDS; DOT_CLAUDE;
                   txt "b"; txt "a"] content).
  { unfold create_command.
    change (commands_target_dir env_nested (txt "project"))
      with (Some (cwd env_nested // DOT_CLAUDE // COMMANDS)).
    cbv iota beta. rewrite Hc. reflexivity. }
  exists [txt "optimize-images.md"; COMMANDS; DOT_CLAUDE; txt "b"; txt "a"],
    content.
  split; [exact H|].
  apply (created_command_warnings ascii_only env_nested
           (txt "optimize-images") (txt "project") some_command_answers
           _ content H eq_refl).
Defined.

(* ----------------------------------------------------------------- *)
(** ** The names that [validate] checks *)

(** X3.  For a file that exists and can be read, [validate] runs its
    checks exactly when the file name is a stem that is not empty
    followed by [.md], and the name it then checks for kebab-case and
    length is that stem; for any other name it stops with the
    wrong-extension error alone. *)
Theorem validate_runs_on_md_names :
  forall (U : UnicodeData) (f : CommandFile) (content : text),
    file_exists f = true ->
    file_text f = Some content ->
    (exists stem,
        stem <> [] /\ file_name f = stem ++ txt ".md"
        /\ validate U f
           = (is_nil (errors (run_checks U stem content init)),
              run_checks U stem content init))
    \/ ((forall stem, stem <> [] -> file_name f <> stem ++ txt ".md")
        /\ validate U f
           = (false, add_error (BadExtension (path_suffix (file_name f)))
                       init)).
Proof.
  intros U f content Hex Htext.
  destruct (stem_suffix_round_trip (file_name f)) as [_ [Hiff _]].
  unfold validate. rewrite Hex, Htext. cbn [negb].
  destruct (text_eqb (path_suffix (file_name f)) (txt ".md")) eqn:Hs.
  - left. apply text_eqb_eq in Hs. destruct (proj1 Hiff Hs) as [stem [Hne Hn]].
    exists stem. split; [exact Hne|]. split; [exact Hn|].
    rewrite Hn. destruct (md_name_parts stem Hne) as [_ ->]. reflexivity.
  - right. split; [|reflexivity]. intros stem Hne Hn.
    assert (Hmd : path_suffix (file_name f) = txt ".md").
    { apply Hiff. exists stem. split; assumption. }
    rewrite Hmd, text_eqb_refl in Hs. discriminate.
Qed.

Lemma validate_runs_on_md_names_witness :
  (exists stem,
      stem <> [] /\ txt "my-command.md" = stem ++ txt ".md"
      /\ validate ascii_only empty_command_file
         = (is_nil (errors (run_checks ascii_only stem [] init)),
            run_checks ascii_only stem [] init))
  \/ ((forall stem, stem <> [] -> txt "my-command.md" <> stem ++ txt ".md")
      /\ validate ascii_only empty_command_file
         = (false, add_error (BadExtension (path_suffix (txt "my-command.md")))
                     init)).
Proof.
  apply (validate_runs_on_md_names ascii_only empty_command_file []);
    reflexivity.
Defined.
